(** * Personal health-log tools: normalisation, weekly aggregation, 1RM and PR statistics

    A shallow embedding of
      - [Diet/update_weight_history.py]   (daily log -> weekly averages, merge-upsert),
      - [03_ projects/Calories_BMR/loseit_week_analyzer.py]  (the choice of the
        export, [parse_int_like], the Daily Summary table, the maintenance
        estimate),
      - [Workout/workout_history.py]      (1RM estimate, preparation of the sets,
        daily bests, history of an exercise, days-since-PR ranking),
    together with the parts of the Python runtime these functions lean on
    ([str] methods, [datetime.strptime]/[strftime], [float], [int], the
    [csv.DictWriter]/[csv.DictReader] round trip).

    Modelling conventions.
      - A Python [str] is the list of its code points ([PyStr.str]); [PyStr.u]
        turns an ASCII literal into such a list.
      - A Python [float] is an exact rational ([Qc]): rounding, overflow,
        infinities and NaN are not modelled.
      - An exception is a value of [exn] in the error monad [result].
      - A [dict] keyed by strings is a [gmap]; where the iteration order of a
        dict is observable it is an association list in insertion order. *)

From Stdlib Require Import ZArith QArith Qcanon Lia String Ascii.
From stdpp Require Import base option list gmap sorting pretty.

Local Open Scope Z_scope.

(** ** Exceptions and the error monad *)

Inductive exn :=
  | ValueError (msg : string)
  | OverflowError (msg : string)
  | SystemExit (msg : string).

Inductive result (A : Type) :=
  | Ok (a : A)
  | Raise (e : exn).
Arguments Ok {A} a.
Arguments Raise {A} e.

#[global] Instance exn_eq_dec : EqDecision exn.
Proof. solve_decision. Defined.

#[global] Instance result_eq_dec {A} `{EqDecision A} : EqDecision (result A).
Proof. solve_decision. Defined.

#[global] Instance result_ret : MRet result := fun _ a => Ok a.

#[global] Instance result_bind : MBind result := fun _ _ k m =>
  match m with
  | Ok a => k a
  | Raise e => Raise e
  end.

(** [try: m except ValueError: h] *)
Definition try_except {A} (m : result A) (h : result A) : result A :=
  match m with
  | Ok a => Ok a
  | Raise (ValueError _) => h
  | Raise e => Raise e
  end.

Definition is_ok {A} (m : result A) : bool :=
  match m with Ok _ => true | Raise _ => false end.

Definition to_option {A} (m : result A) : option A :=
  match m with Ok a => Some a | Raise _ => None end.

(** ** Python strings *)

Module PyStr.

(** A string is the list of its code points. *)
Abbreviation str := (list N).

Fixpoint u (s : string) : str :=
  match s with
  | EmptyString => []
  | String a s' => N_of_ascii a :: u s'
  end.

(** Code points for which [str.isspace] holds (Unicode 14, as shipped with
    CPython 3.11); [str.strip] without argument removes exactly these. *)
Definition whitespace : list N :=
  [9; 10; 11; 12; 13; 28; 29; 30; 31; 32; 133; 160; 5760;
   8192; 8193; 8194; 8195; 8196; 8197; 8198; 8199; 8200; 8201; 8202;
   8232; 8233; 8239; 8287; 12288]%N.

Definition isspace (c : N) : bool := bool_decide (c ∈ whitespace).

Fixpoint lstrip (s : str) : str :=
  match s with
  | [] => []
  | c :: s' => if isspace c then lstrip s' else s
  end.

Definition rstrip (s : str) : str := reverse (lstrip (reverse s)).

Definition strip (s : str) : str := rstrip (lstrip s).

(** [s.replace(c, "")] for a one-character [c]. *)
Definition remove_char (c : N) (s : str) : str :=
  filter (fun x => x ≠ c) s.

(** [s.replace(c, d)] for one-character [c] and [d]. *)
Definition replace_char (c d : N) (s : str) : str :=
  map (fun x => if bool_decide (x = c) then d else x) s.

(** First code point of every run of ten decimal digits (category Nd,
    Unicode 14): the code point [z + i] has decimal value [i]. *)
Definition digit_zeros : list N :=
  [48; 1632; 1776; 1984; 2406; 2534; 2662; 2790; 2918; 3046; 3174; 3302;
   3430; 3558; 3664; 3792; 3872; 4160; 4240; 6112; 6160; 6470; 6608; 6784;
   6800; 6992; 7088; 7232; 7248; 42528; 43216; 43264; 43472; 43504; 43600;
   44016; 65296; 66720; 68912; 69734; 69872; 69942; 70096; 70384; 70736;
   70864; 71248; 71360; 71472; 71904; 72016; 72784; 73040; 73120; 92768;
   92864; 93008; 120782; 120792; 120802; 120812; 120822; 123200; 123632;
   125264; 130032]%N.

Fixpoint decimal_in (zs : list N) (c : N) : option N :=
  match zs with
  | [] => None
  | z :: zs' =>
      if ((z <=? c) && (c <? z + 10))%N then Some (c - z)%N
      else decimal_in zs' c
  end.

(** The decimal value of a code point matched by the regular expression
    [\d], which is also what [int] and [float] read a digit as. *)
Definition decimal_value (c : N) : option N := decimal_in digit_zeros c.

Definition isdecimal (c : N) : bool :=
  match decimal_value c with Some _ => true | None => false end.

(** [str.lower], code point by code point.  ASCII capitals, KELVIN SIGN
    (U+212A, whose lower case is ASCII k) and U+0130 (whose lower case is
    i followed by U+0307) are mapped as Python maps them.  Every other
    cased code point outside ASCII lowers to code points outside ASCII; it
    is left as it is.  So [lower] is [str.lower] on ASCII texts, and whether
    [lower s] is, starts with, ends with or holds an ASCII literal is
    decided as Python decides it, for every [s].  Two lowered texts that are
    not both ASCII may differ here and be equal in Python: what is stated
    of [plot_exercise_history], which compares two names, is stated for
    ASCII names. *)
Definition lower_char (c : N) : list N :=
  if ((65 <=? c) && (c <=? 90))%N then [c + 32]%N
  else if (c =? 8490)%N then [107]%N
  else if (c =? 304)%N then [105; 775]%N
  else [c].

Definition lower (s : str) : str := flat_map lower_char s.

(** Comparison of strings as Python compares them: lexicographic on code
    points. *)
Fixpoint str_leb (a b : str) : bool :=
  match a, b with
  | [], _ => true
  | _ :: _, [] => false
  | x :: a', y :: b' =>
      if (x <? y)%N then true
      else if (y <? x)%N then false
      else str_leb a' b'
  end.

Definition str_le (a b : str) : Prop := str_leb a b = true.

Definition str_lt (a b : str) : Prop := str_le a b ∧ a ≠ b.

#[global] Instance str_le_dec (a b : str) : Decision (str_le a b).
Proof. unfold str_le. apply _. Defined.

(** [sorted(l)] for a list of strings. *)
Definition sorted (l : list str) : list str := merge_sort str_le l.

(** Decimal rendering of a natural number, as [str(n)] or ["%d" % n]. *)
Definition of_N (n : N) : str := u (pretty n).

(** The ASCII digit of [k < 10], and a number printed on exactly two or
    four decimal digits (["%02d" % n], ["%04d" % n]). *)
Definition digit (k : N) : N := (48 + k)%N.

Definition dec2 (n : N) : str :=
  [digit (n / 10 mod 10); digit (n mod 10)]%N.

Definition dec4 (n : N) : str :=
  [digit (n / 1000 mod 10); digit (n / 100 mod 10);
   digit (n / 10 mod 10); digit (n mod 10)]%N.

(** Value of a string of decimal digits read in base ten; [None] when the
    string is empty or holds a code point that is not a decimal digit. *)
Fixpoint digits_acc (acc : N) (s : str) : option N :=
  match s with
  | [] => Some acc
  | c :: s' =>
      match decimal_value c with
      | Some d => digits_acc (10 * acc + d)%N s'
      | None => None
      end
  end.

Definition digits_value (s : str) : option N :=
  match s with
  | [] => None
  | _ => digits_acc 0 s
  end.

(** [s.startswith(p)] *)
Definition startswith (s p : str) : bool :=
  bool_decide (take (length p) s = p).

(** [s.endswith(p)] *)
Definition endswith (s p : str) : bool :=
  bool_decide (drop (length s - length p) s = p).

(** [p in s]: [p] stands somewhere in [s]. *)
Fixpoint contains (p s : str) : bool :=
  startswith s p
  || match s with
     | [] => false
     | _ :: s' => contains p s'
     end.

End PyStr.

Import PyStr.

(** ** The proleptic Gregorian calendar of [datetime] *)

Module Calendar.

Record date := mkdate { year : Z; month : Z; day : Z }.

#[global] Instance date_eq_dec : EqDecision date.
Proof. solve_decision. Defined.

Definition MINYEAR : Z := 1.
Definition MAXYEAR : Z := 9999.
Definition _MAXORDINAL : Z := 3652059.

Definition _DAYS_IN_MONTH : list Z :=
  [-1; 31; 28; 31; 30; 31; 30; 31; 31; 30; 31; 30; 31].

Definition _DAYS_BEFORE_MONTH : list Z :=
  [-1; 0; 31; 59; 90; 120; 151; 181; 212; 243; 273; 304; 334].

Definition index (l : list Z) (i : Z) : Z := nth (Z.to_nat i) l 0.

Definition _is_leap (y : Z) : bool :=
  (y mod 4 =? 0) && (negb (y mod 100 =? 0) || (y mod 400 =? 0)).

Definition _days_before_year (y : Z) : Z :=
  let y := y - 1 in
  y * 365 + y / 4 - y / 100 + y / 400.

Definition _days_in_month (y m : Z) : Z :=
  if (m =? 2) && _is_leap y then 29 else index _DAYS_IN_MONTH m.

Definition _days_before_month (y m : Z) : Z :=
  index _DAYS_BEFORE_MONTH m + (if (2 <? m) && _is_leap y then 1 else 0).

Definition _ymd2ord (y m d : Z) : Z :=
  _days_before_year y + _days_before_month y m + d.

Definition _DI400Y : Z := 146097.
Definition _DI100Y : Z := 36524.
Definition _DI4Y : Z := 1461.

Definition _ord2ymd (n : Z) : date :=
  let n := n - 1 in
  let n400 := n / _DI400Y in
  let n := n mod _DI400Y in
  let y := n400 * 400 + 1 in
  let n100 := n / _DI100Y in
  let n := n mod _DI100Y in
  let n4 := n / _DI4Y in
  let n := n mod _DI4Y in
  let n1 := n / 365 in
  let n := n mod 365 in
  let y := y + n100 * 100 + n4 * 4 + n1 in
  if (n1 =? 4) || (n100 =? 4) then mkdate (y - 1) 12 31
  else
    let leapyear := (n1 =? 3) && (negb (n4 =? 24) || (n100 =? 3)) in
    let m := Z.shiftr (n + 50) 5 in
    let preceding :=
      index _DAYS_BEFORE_MONTH m + (if (2 <? m) && leapyear then 1 else 0) in
    if n <? preceding then
      let m := m - 1 in
      let preceding :=
        preceding
        - (index _DAYS_IN_MONTH m + (if (m =? 2) && leapyear then 1 else 0)) in
      mkdate y m (n - preceding + 1)
    else mkdate y m (n - preceding + 1).

(** The range checks of the [date] constructor. *)
Definition valid (d : date) : bool :=
  (MINYEAR <=? year d) && (year d <=? MAXYEAR)
  && (1 <=? month d) && (month d <=? 12)
  && (1 <=? day d) && (day d <=? _days_in_month (year d) (month d)).

Definition make_date (y m d : Z) : result date :=
  if valid (mkdate y m d) then Ok (mkdate y m d)
  else Raise (ValueError "date value out of range").

Definition toordinal (d : date) : Z := _ymd2ord (year d) (month d) (day d).

(** Monday is 0. *)
Definition weekday (d : date) : Z := (toordinal d + 6) mod 7.

(** [d - timedelta(days=k)] *)
Definition minus_days (d : date) (k : Z) : result date :=
  let o := toordinal d - k in
  if (0 <? o) && (o <=? _MAXORDINAL) then Ok (_ord2ymd o)
  else Raise (OverflowError "result out of range").

(** The month and the day of the month of the day number [n] (from 0) of
    a year: the last lines of [_ord2ymd], set apart for the proofs. *)
Definition month_day (n : Z) (leapyear : bool) : Z * Z :=
  let m := Z.shiftr (n + 50) 5 in
  let preceding :=
    index _DAYS_BEFORE_MONTH m + (if (2 <? m) && leapyear then 1 else 0) in
  if n <? preceding then
    let m := m - 1 in
    let preceding :=
      preceding
      - (index _DAYS_IN_MONTH m + (if (m =? 2) && leapyear then 1 else 0)) in
    (m, n - preceding + 1)
  else (m, n - preceding + 1).

Definition month_day_ok (leapyear : bool) (n : Z) : bool :=
  let '(m, d) := month_day n leapyear in
  (1 <=? m) && (m <=? 12) && (1 <=? d)
  && (d <=? (if (m =? 2) && leapyear then 29 else index _DAYS_IN_MONTH m))
  && (index _DAYS_BEFORE_MONTH m + (if (2 <? m) && leapyear then 1 else 0) + d
      =? n + 1).

End Calendar.

Import Calendar.

(** ** [datetime.strptime] and [strftime] for the directives the programs use *)

Module Strptime.

Inductive directive :=
  | DY            (* %Y *)
  | Dm            (* %m *)
  | Dd            (* %d *)
  | Dy            (* %y *)
  | Db            (* %b *)
  | Lit (c : N).

Definition directive_of (c : N) : option directive :=
  if (c =? 89)%N then Some DY
  else if (c =? 109)%N then Some Dm
  else if (c =? 100)%N then Some Dd
  else if (c =? 121)%N then Some Dy
  else if (c =? 98)%N then Some Db
  else None.

(** Reading of a format string: [%] followed by a directive letter, any
    other character stands for itself (the formats used hold no white
    space and no doubled [%]). *)
Fixpoint compile_from (pending : bool) (fmt : str) : option (list directive) :=
  match fmt with
  | [] => if pending then None else Some []
  | c :: rest =>
      if pending then
        d ← directive_of c; ds ← compile_from false rest; Some (d :: ds)
      else if (c =? 37)%N then compile_from true rest
      else ds ← compile_from false rest; Some (Lit c :: ds)
  end.

Definition compile (fmt : str) : option (list directive) :=
  compile_from false fmt.

(** Abbreviated month names of the C locale, lower case, as [_strptime]
    holds them. *)
Definition a_month : list str :=
  map u ["jan"; "feb"; "mar"; "apr"; "may"; "jun";
         "jul"; "aug"; "sep"; "oct"; "nov"; "dec"]%string.

Definition ascii_lower (c : N) : N :=
  if ((65 <=? c) && (c <=? 90))%N then (c + 32)%N else c.

Fixpoint index_of (x : str) (l : list str) (i : N) : option N :=
  match l with
  | [] => None
  | y :: l' => if bool_decide (x = y) then Some i else index_of x l' (i + 1)%N
  end.

Definition in_range (lo hi c : N) : bool := ((lo <=? c) && (c <=? hi))%N.

(** The alternatives of the regular expression of one directive, in the
    order the expression lists them: each is the integer read from the
    matched text and the text left.
      - [%Y] is four [\d], [%y] is two [\d];
      - [%m] is [1[0-2]|0[1-9]|[1-9]];
      - [%d] is [3[0-1]|[1-2]\d|0[1-9]|[1-9]| [1-9]];
      - [%b] is one of the month names, case ignored. *)
Definition alts (d : directive) (s : str) : list (N * str) :=
  match d with
  | DY =>
      match s with
      | a :: b :: c :: e :: r =>
          match digits_value [a; b; c; e] with
          | Some v => [(v, r)]
          | None => []
          end
      | _ => []
      end
  | Dy =>
      match s with
      | a :: b :: r =>
          match digits_value [a; b] with
          | Some v => [(v, r)]
          | None => []
          end
      | _ => []
      end
  | Dm =>
      match s with
      | a :: r =>
          (match r with
           | b :: r' =>
               (if (a =? 49)%N && in_range 48 50 b
                then [((10 + (b - 48))%N, r')] else [])
               ++ (if (a =? 48)%N && in_range 49 57 b
                   then [((b - 48)%N, r')] else [])
           | [] => []
           end)
          ++ (if in_range 49 57 a then [((a - 48)%N, r)] else [])
      | [] => []
      end
  | Dd =>
      match s with
      | a :: r =>
          (match r with
           | b :: r' =>
               (if (a =? 51)%N && in_range 48 49 b
                then [((30 + (b - 48))%N, r')] else [])
               ++ (if in_range 49 50 a then
                     match decimal_value b with
                     | Some v => [((10 * (a - 48) + v)%N, r')]
                     | None => []
                     end
                   else [])
               ++ (if (a =? 48)%N && in_range 49 57 b
                   then [((b - 48)%N, r')] else [])
           | [] => []
           end)
          ++ (if in_range 49 57 a then [((a - 48)%N, r)] else [])
          ++ (match r with
              | b :: r' =>
                  if (a =? 32)%N && in_range 49 57 b
                  then [((b - 48)%N, r')] else []
              | [] => []
              end)
      | [] => []
      end
  | Db =>
      match s with
      | a :: b :: c :: r =>
          match index_of [ascii_lower a; ascii_lower b; ascii_lower c]
                         a_month 1 with
          | Some i => [(i, r)]
          | None => []
          end
      | _ => []
      end
  | Lit c =>
      match s with
      | a :: r => if (a =? c)%N then [(0%N, r)] else []
      | [] => []
      end
  end.

(** The fields collected from the match; month and day default to 1 and the
    year to 1900, as in [_strptime]. *)
Record fields := mkfields { f_year : Z; f_month : Z; f_day : Z }.

Definition no_fields : fields := mkfields 1900 1 1.

Definition store (d : directive) (v : N) (f : fields) : fields :=
  match d with
  | DY => mkfields (Z.of_N v) (f_month f) (f_day f)
  | Dy =>
      mkfields (if (v <=? 68)%N then Z.of_N v + 2000 else Z.of_N v + 1900)
               (f_month f) (f_day f)
  | Dm | Db => mkfields (f_year f) (Z.of_N v) (f_day f)
  | Dd => mkfields (f_year f) (f_month f) (Z.of_N v)
  | Lit _ => f
  end.

Fixpoint first_some {A B} (g : A -> option B) (l : list A) : option B :=
  match l with
  | [] => None
  | x :: l' =>
      match g x with
      | Some b => Some b
      | None => first_some g l'
      end
  end.

(** [re.match]: the first way, in the order of the alternatives and with
    backtracking, in which the whole expression matches a prefix of [s];
    the result holds the text after the match. *)
Fixpoint rmatch (ds : list directive) (s : str) (f : fields)
  : option (fields * str) :=
  match ds with
  | [] => Some (f, s)
  | d :: ds' =>
      first_some (fun c : N * str => rmatch ds' (snd c) (store d (fst c) f))
                 (alts d s)
  end.

Definition strptime (s fmt : str) : result date :=
  match compile fmt with
  | None => Raise (ValueError "bad directive in format")
  | Some ds =>
      match rmatch ds s no_fields with
      | None => Raise (ValueError "time data does not match format")
      | Some (f, []) => make_date (f_year f) (f_month f) (f_day f)
      | Some (f, _ :: _) => Raise (ValueError "unconverted data remains")
      end
  end.

Definition capitalize (s : str) : str :=
  match s with
  | [] => []
  | c :: r => (if in_range 97 122 c then c - 32 else c)%N :: r
  end.

(** One directive printed; [%Y] on four digits. *)
Definition render (d : date) (x : directive) : str :=
  match x with
  | DY => dec4 (Z.to_N (year d))
  | Dy => dec2 (Z.to_N (year d mod 100))
  | Dm => dec2 (Z.to_N (month d))
  | Dd => dec2 (Z.to_N (day d))
  | Db => capitalize (nth (Z.to_nat (month d) - 1) a_month [])
  | Lit c => [c]
  end.

Definition strftime (d : date) (fmt : str) : str :=
  match compile fmt with
  | Some ds => flat_map (render d) ds
  | None => fmt
  end.

End Strptime.

Import Strptime.

(** ** Numbers read from and written to text: [float], [int], [f"{x:.nf}"] *)

Module PyNum.

Definition pow10 (e : Z) : Qc :=
  if 0 <=? e then Q2Qc (inject_Z (10 ^ e))
  else Q2Qc (1 # Z.to_pos (10 ^ (- e))).

Definition Qc_of_Z (z : Z) : Qc := Q2Qc (inject_Z z).

(** The longest prefix of decimal digits, as digit values, and the rest. *)
Fixpoint span_digits (s : str) : list N * str :=
  match s with
  | [] => ([], [])
  | c :: r =>
      match decimal_value c with
      | Some d => let '(ds, r') := span_digits r in (d :: ds, r')
      | None => ([], s)
      end
  end.

Definition nat_of_digits (ds : list N) : N :=
  fold_left (fun acc d => (10 * acc + d)%N) ds 0%N.

(** Underscores are accepted between two digits and dropped; anywhere else
    they make the text invalid. *)
Fixpoint drop_underscores (prev_digit : bool) (s : str) : option str :=
  match s with
  | [] => Some []
  | c :: r =>
      if (c =? 95)%N then
        if prev_digit && match r with d :: _ => isdecimal d | [] => false end
        then drop_underscores false r
        else None
      else r' ← drop_underscores (isdecimal c) r; Some (c :: r')
  end.

Definition parse_sign (s : str) : bool * str :=
  match s with
  | c :: r =>
      if (c =? 45)%N then (true, r)
      else if (c =? 43)%N then (false, r)
      else (false, s)
  | [] => (false, s)
  end.

Definition signed (neg : bool) (z : Z) : Z := if neg then - z else z.

(** The exponent part: empty, or [e]/[E], an optional sign and digits up to
    the end of the text. *)
Definition parse_exponent (s : str) : option Z :=
  match s with
  | [] => Some 0
  | c :: r =>
      if (c =? 101)%N || (c =? 69)%N then
        let '(neg, r1) := parse_sign r in
        let '(ds, r2) := span_digits r1 in
        match ds, r2 with
        | _ :: _, [] => Some (signed neg (Z.of_N (nat_of_digits ds)))
        | _, _ => None
        end
      else None
  end.

(** A decimal numeral: sign, digits with an optional fraction (one of the
    two digit runs may be empty, not both), optional exponent. *)
Definition parse_decimal (s : str) : option Qc :=
  let '(neg, s1) := parse_sign s in
  let '(ip, s2) := span_digits s1 in
  let '(fp, s3) :=
    match s2 with
    | c :: r => if (c =? 46)%N then span_digits r else ([], s2)
    | [] => ([], s2)
    end in
  match ip ++ fp with
  | [] => None
  | ds =>
      e ← parse_exponent s3;
      Some (Qc_of_Z (signed neg (Z.of_N (nat_of_digits ds)))
            * pow10 (e - Z.of_nat (length fp)))%Qc
  end.

(** White space as [float] and [int] strip it once the text is brought to
    ASCII: every [isspace] code point but the four separators U+001C to
    U+001F. *)
Definition num_space (c : N) : bool :=
  isspace c && negb (in_range 28 31 c).

Fixpoint lstrip_num (s : str) : str :=
  match s with
  | [] => []
  | c :: s' => if num_space c then lstrip_num s' else s
  end.

Definition strip_num (s : str) : str :=
  reverse (lstrip_num (reverse (lstrip_num s))).

(** [float(s)]; [None] stands for [ValueError].  The texts [inf],
    [infinity] and [nan], which Python reads as floats that are not
    rationals, are not modelled and are rejected here. *)
Definition float_of_str (s : str) : option Qc :=
  s' ← drop_underscores false s;
  parse_decimal (strip_num s').

(** [int(s)] in base ten; [None] stands for [ValueError]. *)
Definition int_of_str (s : str) : option Z :=
  s' ← drop_underscores false s;
  let '(neg, s1) := parse_sign (strip_num s') in
  let '(ds, s2) := span_digits s1 in
  match ds, s2 with
  | _ :: _, [] => Some (signed neg (Z.of_N (nat_of_digits ds)))
  | _, _ => None
  end.

(** The integer nearest to [a / b] for [0 <= a] and [0 < b], ties to even. *)
Definition round_half_even (a b : Z) : Z :=
  let fl := a / b in
  let r := a mod b in
  if 2 * r <? b then fl
  else if b <? 2 * r then fl + 1
  else if Z.even fl then fl else fl + 1.

Definition pad_digits (w : nat) (n : N) : str :=
  let d := of_N n in
  replicate (w - length d) 48%N ++ d.

(** [f"{x:.pf}"]: fixed notation with [p] digits after the point. *)
Definition format_f (p : nat) (x : Qc) : str :=
  let scale := 10 ^ Z.of_nat p in
  let m := round_half_even (Z.abs (Qnum x) * scale) (Zpos (Qden x)) in
  (if Qnum x <? 0 then [45%N] else [])
  ++ of_N (Z.to_N (m / scale))
  ++ match p with
     | O => []
     | _ => 46%N :: pad_digits p (Z.to_N (m mod scale))
     end.

End PyNum.

Import PyNum.

(** ** Dictionaries that keep insertion order *)

Module ODict.

(** The items of the dictionary, in the order in which their keys were
    first set. *)
Abbreviation odict V := (list (str * V)).

Section odict.
Context {V : Type}.

Fixpoint get (k : str) (d : odict V) : option V :=
  match d with
  | [] => None
  | (k', v) :: d' => if bool_decide (k' = k) then Some v else get k d'
  end.

Definition mem (k : str) (d : odict V) : bool :=
  match get k d with Some _ => true | None => false end.

(** [d[k] = v]: in place when the key is there, at the end otherwise. *)
Fixpoint set (k : str) (v : V) (d : odict V) : odict V :=
  match d with
  | [] => [(k, v)]
  | (k', v') :: d' =>
      if bool_decide (k' = k) then (k', v) :: d' else (k', v') :: set k v d'
  end.

Definition keys (d : odict V) : list str := map fst d.
End odict.

End ODict.

(** ** The [csv] module: files as lists of records, [DictReader], [DictWriter] *)

Module Csv.

(** A file is the list of its records, each a list of cells: the quoting
    that [csv.writer] applies and [csv.reader] undoes is not modelled. *)
Definition file := list (list str).

(** A cell of a row read by [DictReader]: [None] for a cell the line is too
    short to hold. *)
Definition cell := option str.

(** A row as [DictReader] yields it: the cells by header, and under the key
    [None] the cells a line has beyond the header, when it has some. *)
Record row := mkrow { fields : gmap str cell; rest : option (list str) }.

#[global] Instance row_eq_dec : EqDecision row.
Proof. solve_decision. Defined.

(** [r.get(k)] *)
Definition get (r : row) (k : str) : cell :=
  match fields r !! k with
  | Some c => c
  | None => None
  end.

(** [c or ""] *)
Definition or_empty (c : cell) : str :=
  match c with
  | Some s => s
  | None => []
  end.

(** [dict(zip(fieldnames, cells))], later columns of the same name winning,
    the headers without a cell mapped to [None]. *)
Fixpoint zip_row (names : list str) (cells : list str) (acc : gmap str cell)
  : gmap str cell :=
  match names with
  | [] => acc
  | h :: names' =>
      match cells with
      | [] => zip_row names' [] (<[h := None]> acc)
      | c :: cells' => zip_row names' cells' (<[h := Some c]> acc)
      end
  end.

Definition read_row (names : list str) (cells : list str) : row :=
  mkrow (zip_row names cells ∅)
        (if decide (length names < length cells)%nat
         then Some (drop (length names) cells) else None).

(** [DictReader]: the first record is the header; empty records are
    skipped.  [None] when the file has no header at all. *)
Definition DictReader (f : file) : option (list str * list row) :=
  match f with
  | [] => None
  | names :: records =>
      Some (names,
            map (read_row names) (filter (fun rec => rec ≠ []) records))
  end.

(** [DictWriter.writerow]: refuses a row with a key that is no field name;
    a missing cell and [None] are written as the empty string. *)
Definition write_row (names : list str) (r : row) : result (list str) :=
  if bool_decide (rest r = None
                  ∧ Forall (fun k => k ∈ names) (map fst (map_to_list (fields r))))
  then Ok (map (fun h => or_empty (get r h)) names)
  else Raise (ValueError "dict contains fields not in fieldnames").

End Csv.

Import Csv.

(** ** [Diet/update_weight_history.py] *)

Module Diet.

Definition OUTPUT_HEADERS : list str :=
  map u ["week_start"; "avg_weight"; "avg_food"; "avg_exercise"; "avg_net"]%string.

Definition DATE_PATTERNS : list str :=
  map u ["%Y-%m-%d"; "%m/%d/%Y"; "%m/%d/%y"; "%d-%b-%y"; "%d-%b-%Y"]%string.

Definition ALIASES : list (str * list str) :=
  [(u "date", map u ["date"; "day"; "entry_date"; "log_date"; "timestamp"]%string);
   (u "food", map u ["food"; "calories"; "cals"; "kcal"; "intake"; "eaten"]%string);
   (u "exercise",
    map u ["exercise"; "exer"; "exer."; "burned"; "calories_burned"; "activity"]%string);
   (u "weight",
    map u ["weight"; "weight_lbs"; "lbs"; "bodyweight"; "scale_weight"]%string)].

Record DailyRow := mkDailyRow {
  date_iso : str;
  weight : option Qc;
  food : option Qc;
  exercise : option Qc
}.

Definition _normalize_header (h : str) : str :=
  replace_char 32 95 (lower (strip h)).

(** The loop over [DATE_PATTERNS]: the first pattern that parses wins. *)
Fixpoint try_patterns (raw : str) (pats : list str) : option date :=
  match pats with
  | [] => None
  | pat :: pats' =>
      match strptime raw pat with
      | Ok d => Some d
      | Raise _ => try_patterns raw pats'
      end
  end.

Definition _parse_date_to_iso (raw : cell) : result str :=
  let raw := strip (or_empty raw) in
  match raw with
  | [] => Raise (ValueError "Missing date")
  | _ =>
      match try_patterns raw DATE_PATTERNS with
      | Some d => Ok (strftime d (u "%Y-%m-%d"))
      | None =>
          let raw2 := replace_char 47 45 raw in
          match try_patterns raw2 [u "%Y-%m-%d"] with
          | Some d => Ok (strftime d (u "%Y-%m-%d"))
          | None => Raise (ValueError "Unrecognized date format")
          end
      end
  end.

Definition _to_float (s : cell) : option Qc :=
  let s := remove_char 34 (remove_char 44 (strip (or_empty s))) in
  match s with
  | [] => None
  | _ => float_of_str s
  end.

Definition _read_csv (f : Csv.file) : result (list row * list str) :=
  match DictReader f with
  | Some (names, rows) =>
      match names with
      | [] => Raise (ValueError "file has no headers.")
      | _ => Ok (rows, names)
      end
  | None => Raise (ValueError "file has no headers.")
  end.

(** [{_normalize_header(h): h for h in headers}] *)
Definition norm_to_original (headers : list str) : gmap str str :=
  fold_left (fun m h => <[_normalize_header h := h]> m) headers ∅.

(** The inner loop of [_build_column_map]: the header of the first alias
    that is one of the normalised headers. *)
Fixpoint first_alias (m : gmap str str) (alias_list : list str) : option str :=
  match alias_list with
  | [] => None
  | a :: rest =>
      match m !! _normalize_header a with
      | Some h => Some h
      | None => first_alias m rest
      end
  end.

Definition _build_column_map (headers : list str) : gmap str str :=
  let m := norm_to_original headers in
  fold_left
    (fun col_map '(canonical, alias_list) =>
       match first_alias m alias_list with
       | Some h => <[canonical := h]> col_map
       | None => col_map
       end)
    ALIASES ∅.

Definition _monday_week_start (date_iso : str) : result str :=
  dt ← strptime date_iso (u "%Y-%m-%d");
  monday ← minus_days dt (weekday dt);
  mret (strftime monday (u "%Y-%m-%d")).

(** [(r.get("week_start") or "").strip()] *)
Definition row_key (r : row) : str :=
  strip (or_empty (Csv.get r (u "week_start"))).

Definition add_existing (out : gmap str row) (r : row) : gmap str row :=
  let ws := row_key r in
  match ws with
  | [] => out
  | _ => <[ws := r]> out
  end.

(** The argument is the content of the file at [path], [None] when there
    is no such file. *)
Definition _load_existing_weekly (path : option Csv.file)
  : result (gmap str row) :=
  match path with
  | None => Ok ∅
  | Some f =>
      '(rows, _) ← _read_csv f;
      mret (fold_left add_existing rows ∅)
  end.

(** [_to_float(r.get(col_map.get(name, ""), "")) if name in col_map else None] *)
Definition column_value (col_map : gmap str str) (name : str) (r : row)
  : option Qc :=
  match col_map !! name with
  | Some h => _to_float (default (Some []) (fields r !! h))
  | None => None
  end.

(** The body of the loop of [_extract_daily_rows]: the record of one row,
    or [None] when the row is passed over. *)
Definition extract_row (col_map : gmap str str) (date_col : str) (r : row)
  : option DailyRow :=
  let raw_date := strip (or_empty (Csv.get r date_col)) in
  match raw_date with
  | [] => None
  | _ =>
      match _parse_date_to_iso (Some raw_date) with
      | Raise _ => None
      | Ok date_iso =>
          Some (mkDailyRow date_iso
                  (column_value col_map (u "weight") r)
                  (column_value col_map (u "food") r)
                  (column_value col_map (u "exercise") r))
      end
  end.

Definition _extract_daily_rows (rows : list row) (headers : list str)
  : result (list DailyRow * gmap str str) :=
  let col_map := _build_column_map headers in
  match col_map !! u "date" with
  | None => Raise (ValueError "input must have a Date column")
  | Some date_col => Ok (omap (extract_row col_map date_col) rows, col_map)
  end.

Definition sum (vals : list Qc) : Qc := fold_left Qcplus vals 0%Qc.

Definition _avg (vals : list Qc) : option Qc :=
  match vals with
  | [] => None
  | _ => Some (sum vals / Qc_of_Z (Z.of_nat (length vals)))%Qc
  end.

(** The lists a bucket collects. *)
Record bucket := mkbucket {
  b_weight : list Qc;
  b_food : list Qc;
  b_exercise : list Qc;
  b_net : list Qc
}.

Record WeeklyAvg := mkWeeklyAvg {
  avg_weight : option Qc;
  avg_food : option Qc;
  avg_exercise : option Qc;
  avg_net : option Qc
}.

Definition append_some (l : list Qc) (x : option Qc) : list Qc :=
  match x with
  | Some v => l ++ [v]
  | None => l
  end.

Definition net (d : DailyRow) : option Qc :=
  match food d, exercise d with
  | Some f, Some e => Some (f - e)%Qc
  | _, _ => None
  end.

Definition add_to_bucket (b : bucket) (d : DailyRow) : bucket :=
  mkbucket (append_some (b_weight b) (weight d))
           (append_some (b_food b) (food d))
           (append_some (b_exercise b) (exercise d))
           (append_some (b_net b) (net d)).

(** [{"weight": [], "food": [], "exercise": [], "net": []}] *)
Definition empty_bucket : bucket := mkbucket [] [] [] [].

(** One turn of the first loop of [_aggregate_weekly]. *)
Definition add_day (buckets : ODict.odict bucket) (d : DailyRow)
  : result (ODict.odict bucket) :=
  ws ← _monday_week_start (date_iso d);
  let buckets :=
    if ODict.mem ws buckets then buckets
    else ODict.set ws empty_bucket buckets in
  let b := default empty_bucket (ODict.get ws buckets) in
  mret (ODict.set ws (add_to_bucket b d) buckets).

(** The days of [daily] whose week starts on [ws]. *)
Definition in_week (ws : str) (daily : list DailyRow) : list DailyRow :=
  filter (fun d => _monday_week_start (date_iso d) = Ok ws) daily.

Fixpoint fill_buckets (buckets : ODict.odict bucket) (daily : list DailyRow)
  : result (ODict.odict bucket) :=
  match daily with
  | [] => Ok buckets
  | d :: daily' => buckets' ← add_day buckets d; fill_buckets buckets' daily'
  end.

Definition bucket_avg (v : bucket) : WeeklyAvg :=
  mkWeeklyAvg (_avg (b_weight v)) (_avg (b_food v))
              (_avg (b_exercise v)) (_avg (b_net v)).

Definition _aggregate_weekly (daily : list DailyRow)
  : result (ODict.odict WeeklyAvg) :=
  buckets ← fill_buckets [] daily;
  mret (map (fun '(ws, v) => (ws, bucket_avg v)) buckets).

Definition _fmt_1 (x : option Qc) : str :=
  match x with
  | None => []
  | Some x => format_f 1 x
  end.

Definition _fmt_0 (x : option Qc) : str :=
  match x with
  | None => []
  | Some x => format_f 0 x
  end.

Definition dict_keys {V} (m : gmap str V) : list str := map fst (map_to_list m).

(** The rows written after the header, up to the first one [DictWriter]
    refuses: the file as it is left, and the exception if there is one. *)
Fixpoint write_rows (rows : list row) (written : Csv.file)
  : Csv.file * result unit :=
  match rows with
  | [] => (written, Ok ())
  | r :: rows' =>
      match write_row OUTPUT_HEADERS r with
      | Ok cells => write_rows rows' (written ++ [cells])
      | Raise e => (written, Raise e)
      end
  end.

(** The file at [path] after the call, and how the call ended. *)
Definition _write_weekly (rows_by_week : gmap str row)
  : Csv.file * result unit :=
  let keys := sorted (dict_keys rows_by_week) in
  write_rows (omap (fun ws => rows_by_week !! ws) keys) [OUTPUT_HEADERS].

Definition new_row (ws : str) (vals : WeeklyAvg) : row :=
  mkrow (list_to_map
           [(u "week_start", Some ws);
            (u "avg_weight", Some (_fmt_1 (avg_weight vals)));
            (u "avg_food", Some (_fmt_0 (avg_food vals)));
            (u "avg_exercise", Some (_fmt_0 (avg_exercise vals)));
            (u "avg_net", Some (_fmt_0 (avg_net vals)))])
        None.

(** The state of the loop of [main]: the table and the two counters. *)
Record merge_state := mkmerge {
  existing : gmap str row;
  added : Z;
  updated : Z
}.

Definition upsert (st : merge_state) (item : str * WeeklyAvg) : merge_state :=
  let '(ws, vals) := item in
  let row := new_row ws vals in
  match existing st !! ws with
  | None => mkmerge (<[ws := row]> (existing st)) (added st + 1) (updated st)
  | Some before =>
      mkmerge (<[ws := row]> (existing st)) (added st)
              (if decide (row ≠ before) then updated st + 1 else updated st)
  end.

Definition merge_weekly (weekly : ODict.odict WeeklyAvg) (ex : gmap str row)
  : merge_state :=
  fold_left upsert weekly (mkmerge ex 0 0).

(** The buckets of a run that the table [ex] does not hold, and those it
    holds with a row other than the newly formatted one: what the counters
    [added] and [updated] are claimed to count. *)
Definition new_buckets (ex : gmap str row) (weekly : ODict.odict WeeklyAvg)
  : list (str * WeeklyAvg) :=
  filter (fun item => ex !! item.1 = None) weekly.

Definition changed_buckets (ex : gmap str row) (weekly : ODict.odict WeeklyAvg)
  : list (str * WeeklyAvg) :=
  filter (fun item => is_Some (ex !! item.1)
                      /\ ex !! item.1 <> Some (new_row item.1 item.2))
         weekly.

(** The cells [DictWriter] writes for a row under the output headers, and
    the row [DictReader] makes of them when the file is read again. *)
Definition row_cells (r : row) : list str :=
  map (fun h => or_empty (Csv.get r h)) OUTPUT_HEADERS.

Definition reread (r : row) : row := read_row OUTPUT_HEADERS (row_cells r).

(** A row that [DictWriter] accepts under the output headers. *)
Definition writable (r : row) : Prop :=
  rest r = None
  /\ Forall (fun k => k ∈ OUTPUT_HEADERS) (map fst (map_to_list (fields r))).

#[global] Instance writable_dec r : Decision (writable r).
Proof. unfold writable. apply _. Defined.

(** Every row of the table stands under its own key, which is not empty:
    what holds of a table that [_load_existing_weekly] built. *)
Definition keyed (t : gmap str row) : Prop :=
  map_Forall (fun k r => row_key r = k /\ k <> []) t.

(** The two files [main] works on, [None] for a file that does not exist. *)
Record files := mkfiles {
  input_file : option Csv.file;
  output_file : option Csv.file
}.

Record report := mkreport {
  rows_read : nat;
  rows_parsed : nat;
  weeks_computed : nat;
  weeks_loaded : nat;
  added_weeks : Z;
  updated_weeks : Z;
  total_weeks : nat
}.

(** [main]: the files after the run and the summary it prints, or the
    exception that ends it.  Only [_write_weekly] changes a file. *)
Definition main (fs : files) : files * result report :=
  match input_file fs with
  | None => (fs, Raise (SystemExit "ERROR: Missing input"))
  | Some input =>
      let before_write :=
        '(input_rows, input_headers) ← _read_csv input;
        '(daily, col_map) ← _extract_daily_rows input_rows input_headers;
        weekly ← _aggregate_weekly daily;
        ex ← _load_existing_weekly (output_file fs);
        mret (length input_rows, length daily, length weekly, size ex,
              merge_weekly weekly ex) in
      match before_write with
      | Raise e => (fs, Raise e)
      | Ok (n_rows, n_daily, n_weekly, n_loaded, st) =>
          let '(out, res) := _write_weekly (existing st) in
          (mkfiles (input_file fs) (Some out),
           _ ← res;
           mret (mkreport n_rows n_daily n_weekly n_loaded
                          (added st) (updated st) (size (existing st))))
      end
  end.

(** A daily log of four rows, one of them without a readable date, and a
    persisted table of two weeks: the files of the examples below. *)
Definition sample_files : files :=
  mkfiles
    (Some (map (map u)
             [["Date"; "Food"; "Exer."; "Weight"];
              ["15-Dec-25"; "1,932"; "300"; "180.5"];
              ["12/16/2025"; "2,000"; "-"; ""];
              ["soon"; "1"; "2"; "3"];
              ["2025/12/22"; "1800"; "100"; "179"]]%string))
    (Some (map (map u)
             [["week_start"; "avg_weight"; "avg_food"; "avg_exercise"; "avg_net"];
              ["2024-01-01"; "182.0"; "2100"; "250"; "1850"];
              ["2025-12-15"; "181.0"; "1900"; "300"; "1600"]]%string)).

(** A daily log of one day, and a persisted table whose file has a sixth
    column. *)
Definition foreign_files : files :=
  mkfiles
    (Some (map (map u) [["Date"; "Food"]; ["2025-12-22"; "1800"]]%string))
    (Some (map (map u)
             [["week_start"; "avg_weight"; "avg_food"; "avg_exercise";
               "avg_net"; "notes"];
              ["2024-01-01"; "182.0"; "2100"; "250"; "1850"; "holiday"]]%string)).

End Diet.

(** ** [03_ projects/Calories_BMR/loseit_week_analyzer.py] *)

Module LoseIt.

(** [re.sub(r"[^\d\-]", "", s)] *)
Definition clean (s : str) : str :=
  filter (fun c => isdecimal c = true ∨ c = 45%N) s.

(** An entry of the data directory: its name, whether it is a regular file
    and its modification time. *)
Record DirEntry := mkDirEntry {
  e_name : str;
  e_isfile : bool;
  e_mtime : Qc
}.

(** The entries [find_latest_csv] considers. *)
Definition is_candidate (e : DirEntry) : bool :=
  endswith (lower (e_name e)) (u ".csv")
  && negb (startswith (lower (e_name e)) (u "daily_log"))
  && e_isfile e.

Definition newer_first (a b : DirEntry) : Prop := (e_mtime b <= e_mtime a)%Qc.

#[global] Instance newer_first_dec a b : Decision (newer_first a b).
Proof. unfold newer_first. apply _. Defined.

(** [find_latest_csv] on the listing of the directory: the name of the
    file, to be joined to the directory. *)
Definition find_latest_csv (listing : list DirEntry) : option str :=
  let candidates := filter (fun e => is_candidate e = true) listing in
  match candidates with
  | [] => None
  | _ => e_name <$> head (merge_sort newer_first candidates)
  end.

(** What [clean] keeps: the decimal digits and the minus sign. *)
Definition kept (c : N) : Prop := isdecimal c = true ∨ c = 45%N.

Definition parse_int_like (x : option str) : result Z :=
  match x with
  | None => Ok 0
  | Some x =>
      let s := strip x in
      if bool_decide (s ∈ [[]; [45%N]; [8211%N]]) then Ok 0
      else
        let cleaned := clean s in
        if bool_decide (cleaned ∈ [[]; [45%N]]) then Ok 0
        else
          match int_of_str cleaned with
          | Some n => Ok n
          | None => Raise (ValueError "invalid literal for int() with base 10")
          end
  end.


(** A record of the Daily Summary table. *)
Record DayRecord := mkDayRecord {
  r_date : date;
  r_budget : Z;
  r_calories_in : Z;
  r_exercise : Z;
  r_net : Z;
  r_plus_minus : Z
}.

(** The header row of the Daily Summary table. *)
Definition is_summary_header (row : list str) : bool :=
  (3 <=? length row)%nat
  && bool_decide (strip (nth 0 row []) = [])
  && bool_decide (strip (nth 1 row []) = u "Budget")
  && startswith (strip (nth 2 row [])) (u "Food").

(** The rows at which the reading of the table stops, whatever follows. *)
Definition ends_summary (first : str) : bool :=
  bool_decide (first = [])
  || startswith (lower first) (u "totals")
  || contains (u "calories") (lower first)
  || bool_decide (first = u "Nutrients").

(** [row[i] if len(row) > i else ""] *)
Definition cell_or_empty (row : list str) (i : nat) : str := nth i row [].

(** The record made of a row whose first cell is read as the date [dt]. *)
Definition day_record (dt : date) (row : list str) : result DayRecord :=
  budget ← parse_int_like (Some (cell_or_empty row 1));
  food ← parse_int_like (Some (cell_or_empty row 2));
  exer ← parse_int_like (Some (cell_or_empty row 3));
  net ← parse_int_like (Some (cell_or_empty row 4));
  plus_minus ← parse_int_like (Some (cell_or_empty row 5));
  mret (mkDayRecord dt budget food exer net plus_minus).

(** The loop of [read_daily_summary] over the rows [csv.reader] yields. *)
Fixpoint scan_summary (in_daily : bool) (rows : list (list str))
    (records : list DayRecord) : result (list DayRecord) :=
  match rows with
  | [] => Ok records
  | row :: rest =>
      match row with
      | [] => scan_summary in_daily rest records
      | _ =>
          if negb in_daily then
            scan_summary (is_summary_header row) rest records
          else
            let first := strip (nth 0 row []) in
            if ends_summary first then Ok records
            else
              match strptime first (u "%d-%b-%y") with
              | Raise _ => Ok records
              | Ok dt =>
                  r ← day_record dt row;
                  scan_summary true rest (records ++ [r])
              end
      end
  end.

Definition read_daily_summary (rows : list (list str))
  : result (list DayRecord) :=
  scan_summary false rows [].

(** A row of the table: its first cell reads as a date and its other cells
    as numbers, which make the record [r]. *)
Definition date_row (row : list str) (r : DayRecord) : Prop :=
  row <> []
  /\ ends_summary (strip (nth 0 row [])) = false
  /\ exists dt,
       strptime (strip (nth 0 row [])) (u "%d-%b-%y") = Ok dt
       /\ day_record dt row = Ok r.

(** A row at which the reading of the table stops. *)
Definition stop_row (row : list str) : Prop :=
  row <> []
  /\ (ends_summary (strip (nth 0 row [])) = true
      \/ is_ok (strptime (strip (nth 0 row [])) (u "%d-%b-%y")) = false).




End LoseIt.

(** ** [Workout/workout_history.py] *)

Module Workout.

Definition MIN_REPS : Z := 1.
Definition MAX_REPS : Z := 20.

Record OneRMConfig := mkOneRMConfig { formula : str }.

Definition estimate_1rm (weight : Qc) (reps : Z) (cfg : OneRMConfig)
  : result Qc :=
  if reps <=? 1 then Ok weight
  else
    let f := lower (formula cfg) in
    if bool_decide (f = u "epley") then
      Ok (weight * (1 + Qc_of_Z reps / Qc_of_Z 30))%Qc
    else if bool_decide (f = u "brzycki") then
      let reps := Z.min reps 36 in
      Ok (weight * (Qc_of_Z 36 / (Qc_of_Z 37 - Qc_of_Z reps)))%Qc
    else Raise (ValueError "Unknown formula").

(** A row of the frame [best_1rm_per_day] returns: the best estimate of one
    exercise on one day.  The date is a pandas timestamp, counted in
    nanoseconds. *)
Record DailyBest := mkDailyBest {
  d_date : Z;
  d_exercise : str;
  d_est : Qc
}.

Definition NS_PER_DAY : Z := 86400000000000.

(** [Timedelta.days] *)
Definition days (delta : Z) : Z := delta / NS_PER_DAY.

Definition Qc_leb (x y : Qc) : bool := Qle_bool x y.

Definition Qc_ltb (x y : Qc) : bool := negb (Qle_bool y x).

Definition Qc_max (x y : Qc) : Qc := if Qc_ltb x y then y else x.

(** [Series.max()]; [None] for the empty series. *)
Definition series_max (l : list Qc) : option Qc :=
  match l with
  | [] => None
  | x :: r => Some (fold_left Qc_max r x)
  end.

Definition dates_max (l : list Z) : option Z :=
  match l with
  | [] => None
  | x :: r => Some (fold_left Z.max r x)
  end.

Fixpoint argmax_from (best_i : nat) (best : Qc) (i : nat) (l : list Qc) : nat :=
  match l with
  | [] => best_i
  | x :: r =>
      if Qc_ltb best x then argmax_from i x (S i) r
      else argmax_from best_i best (S i) r
  end.

(** [Series.idxmax()]: the position of the first occurrence of the
    maximum. *)
Definition idxmax (l : list Qc) : option nat :=
  match l with
  | [] => None
  | x :: r => Some (argmax_from 0 x 1 r)
  end.

(** [Series.cummax()] *)
Fixpoint cummax_from (m : Qc) (l : list Qc) : list Qc :=
  match l with
  | [] => []
  | x :: r => let m' := Qc_max m x in m' :: cummax_from m' r
  end.

Definition cummax (l : list Qc) : list Qc :=
  match l with
  | [] => []
  | x :: r => x :: cummax_from x r
  end.

Definition date_le (a b : DailyBest) : Prop := d_date a <= d_date b.

#[global] Instance date_le_dec a b : Decision (date_le a b).
Proof. unfold date_le. apply _. Defined.

(** [g.sort_values(DATE_COL)] *)
Definition sort_by_date (g : list DailyBest) : list DailyBest :=
  merge_sort date_le g.

(** [daily.groupby(EXERCISE_COL)]: the groups in the order of their keys,
    the rows of a group in the order of the frame. *)
Definition groupby_exercise (daily : list DailyBest)
  : list (str * list DailyBest) :=
  map (fun ex => (ex, filter (fun r => d_exercise r = ex) daily))
      (sorted (remove_dups (map d_exercise daily))).

Record PrStat := mkPrStat {
  exercise : str;
  sessions : nat;
  pr_1rm : Qc;
  pr_date : Z;
  last_date : Z;
  days_since_pr : Z
}.

(** The body of the loop of [plot_days_since_pr] for one group; [None]
    when the group is passed over. *)
Definition group_stat (min_sessions : Z) (ex : str) (g : list DailyBest)
  : option PrStat :=
  let g := sort_by_date g in
  let sessions := length g in
  if Z.of_nat sessions <? min_sessions then None
  else
    pr_value ← series_max (map d_est g);
    i ← idxmax (map d_est g);
    pr_row ← g !! i;
    last ← dates_max (map d_date g);
    Some (mkPrStat ex sessions pr_value (d_date pr_row) last
                   (days (last - d_date pr_row))).

Definition gap_ge (a b : PrStat) : Prop := days_since_pr b <= days_since_pr a.

#[global] Instance gap_ge_dec a b : Decision (gap_ge a b).
Proof. unfold gap_ge. apply _. Defined.

(** [DataFrame.head(n)] *)
Definition head {A} (n : Z) (l : list A) : list A :=
  if 0 <=? n then take (Z.to_nat n) l
  else take (length l - Z.to_nat (- n)) l.

Definition pr_stats (daily : list DailyBest) (min_sessions : Z)
  : list PrStat :=
  omap (fun '(ex, g) => group_stat min_sessions ex g) (groupby_exercise daily).

(** [plot_days_since_pr]: the frame [stats_df] that is drawn and printed. *)
Definition plot_days_since_pr (daily : list DailyBest) (top_n min_sessions : Z)
  : result (list PrStat) :=
  match pr_stats daily min_sessions with
  | [] => Raise (ValueError "Not enough data to compute PR gaps.")
  | stats => Ok (head top_n (merge_sort gap_ge stats))
  end.




Definition CONVERT_KG_TO_LBS : bool := false.

Definition KG_TO_LBS : Qc := Q2Qc (22046226218 # 10000000000).

(** A row of the export once its date is a timestamp and its weight and
    repetitions are numbers (the repetitions after [astype(int)]). *)
Record SetRow := mkSetRow {
  s_date : Z;
  s_exercise : str;
  s_weight : Qc;
  s_reps : Z
}.

(** A row of the frame [load_and_prepare] returns. *)
Record PreparedSet := mkPreparedSet {
  p_date : Z;
  p_exercise : str;
  p_weight : Qc;
  p_reps : Z;
  p_est : Qc
}.

Definition in_rep_range (r : SetRow) : Prop :=
  MIN_REPS <= s_reps r /\ s_reps r <= MAX_REPS.

#[global] Instance in_rep_range_dec r : Decision (in_rep_range r).
Proof. unfold in_rep_range. apply _. Defined.

Definition prepared_set (cfg : OneRMConfig) (r : SetRow) : result PreparedSet :=
  est ← estimate_1rm (s_weight r) (s_reps r) cfg;
  mret (mkPreparedSet (s_date r) (strip (s_exercise r)) (s_weight r)
                      (s_reps r) est).

(** [load_and_prepare] from the unit conversion on: the range filter, the
    names stripped, the estimate of every set. *)
Definition prepare_sets (cfg : OneRMConfig) (rows : list SetRow)
  : result (list PreparedSet) :=
  let rows :=
    if CONVERT_KG_TO_LBS then
      map (fun r => mkSetRow (s_date r) (s_exercise r)
                             (s_weight r * KG_TO_LBS)%Qc (s_reps r)) rows
    else rows in
  let rows := filter in_rep_range rows in
  mapM (prepared_set cfg) rows.

(** The order of [sort_values([EXERCISE_COL, DATE_COL])] on the keys of the
    groups. *)
Definition key_le (a b : str * Z) : Prop :=
  str_lt a.1 b.1 \/ (a.1 = b.1 /\ a.2 <= b.2).

#[global] Instance key_le_dec a b : Decision (key_le a b).
Proof. unfold key_le, str_lt. apply _. Defined.

Definition set_key (r : PreparedSet) : str * Z := (p_exercise r, p_date r).

(** [best_1rm_per_day]: one row for each pair of a day and an exercise, with
    the largest estimate of the pair, the rows by exercise and then by
    date. *)
Definition best_1rm_per_day (df : list PreparedSet) : list DailyBest :=
  omap (fun k =>
          m ← series_max (map p_est (filter (fun r => set_key r = k) df));
          Some (mkDailyBest k.2 k.1 m))
       (merge_sort key_le (remove_dups (map set_key df))).

(** The exercise and the day a row of the daily frame stands for. *)
Definition daily_key (d : DailyBest) : str * Z := (d_exercise d, d_date d).

(** The factor by which the formula named [f] in lower case multiplies the
    weight at [reps]; it serves to state how the estimate grows. *)
Definition factor (f : str) (reps : Z) : Qc :=
  if reps <=? 1 then 1%Qc
  else if bool_decide (f = u "epley") then
    (1 + Qc_of_Z reps / Qc_of_Z 30)%Qc
  else (Qc_of_Z 36 / (Qc_of_Z 37 - Qc_of_Z (Z.min reps 36)))%Qc.

End Workout.


(** * Properties *)

(** Equality of two closed rationals. *)
Ltac qc_eq := apply Qc_is_canon; vm_compute; reflexivity.

(** Linear arithmetic with division and remainder by constants. *)
Ltac div_lia := Z.to_euclidean_division_equations; lia.

(** Equality of two closed terms that differ at most in how their
    rationals were reduced. *)
Ltac qc_struct_eq :=
  vm_compute;
  repeat match goal with
         | |- @eq Qc _ _ => apply Qc_is_canon; reflexivity
         | |- _ => reflexivity
         | |- _ => f_equal
         end.

(** ** Strings *)

Section StringFacts.

Lemma lstrip_spaces pre s :
  Forall (fun c => isspace c = true) pre -> lstrip (pre ++ s) = lstrip s.
Proof. induction 1 as [| c pre Hc _ IH]; simpl; [done |]. by rewrite Hc. Qed.

Lemma lstrip_keeps c s : isspace c = false -> lstrip (c :: s) = c :: s.
Proof. intros H. simpl. by rewrite H. Qed.

Lemma lstrip_suffix s : exists pre, s = pre ++ lstrip s
                               /\ Forall (fun c => isspace c = true) pre.
Proof.
  induction s as [| c s [pre [IH1 IH2]]]; simpl.
  - by exists [].
  - destruct (isspace c) eqn:Hc.
    + exists (c :: pre). split; [simpl; congruence | by constructor].
    + by exists [].
Qed.

(** Stripping removes white space only, and only at the two ends. *)
Lemma strip_decompose s :
  exists pre post, s = pre ++ strip s ++ post
    /\ Forall (fun c => isspace c = true) pre
    /\ Forall (fun c => isspace c = true) post.
Proof.
  destruct (lstrip_suffix s) as [pre [H1 H2]].
  destruct (lstrip_suffix (reverse (lstrip s))) as [post [H3 H4]].
  exists pre, (reverse post). split; [| split; [done | by apply Forall_reverse]].
  unfold strip, rstrip. rewrite <- reverse_app, <- H3, reverse_involutive.
  exact H1.
Qed.

Lemma strip_body pre body post :
  Forall (fun c => isspace c = true) pre ->
  Forall (fun c => isspace c = true) post ->
  Forall (fun c => isspace c = false) body ->
  strip (pre ++ body ++ post) = body.
Proof.
  intros Hpre Hpost Hbody. unfold strip, rstrip.
  rewrite lstrip_spaces by done.
  destruct body as [| c body].
  - simpl. clear Hpre Hbody.
    assert (Hall : forall l, Forall (fun c => isspace c = true) l -> lstrip l = []).
    { induction 1 as [| x l Hx _ IH]; simpl; [done | by rewrite Hx]. }
    rewrite (Hall post) by done. done.
  - inversion Hbody as [| ? ? Hc Hrest]; subst.
    rewrite <- app_comm_cons, lstrip_keeps by done.
    rewrite app_comm_cons, reverse_app.
    rewrite lstrip_spaces by (by apply Forall_reverse).
    destruct (reverse (c :: body)) as [| x r] eqn:Hr.
    { apply (f_equal (@length _)) in Hr. rewrite length_reverse in Hr. done. }
    assert (Hx : isspace x = false).
    { assert (Hin : x ∈ c :: body).
      { apply elem_of_reverse. rewrite Hr. left. }
      by apply (proj1 (Forall_forall _ _) Hbody). }
    rewrite lstrip_keeps by done. rewrite <- Hr. apply reverse_involutive.
Qed.

Lemma strip_forall (P : N -> Prop) s : Forall P s -> Forall P (strip s).
Proof.
  intros H. destruct (strip_decompose s) as [pre [post [Hs _]]].
  rewrite Hs in H. apply Forall_app in H as [_ H].
  by apply Forall_app in H as [H _].
Qed.

(** A filter that rejects white space does not see the stripping. *)
Lemma filter_strip (P : N -> Prop) `{forall c, Decision (P c)} s :
  (forall c, isspace c = true -> ~ P c) ->
  filter P (strip s) = filter P s.
Proof.
  intros HP.
  assert (Hnil : forall l, Forall (fun c => isspace c = true) l -> filter P l = []).
  { induction 1 as [| x l Hx _ IH]; [done |].
    rewrite filter_cons_False by (by apply HP). done. }
  destruct (strip_decompose s) as [pre [post [Hs [Hpre Hpost]]]].
  remember (strip s) as t eqn:Ht. clear Ht. subst s.
  rewrite filter_app, filter_app.
  rewrite (Hnil pre) by done. rewrite (Hnil post) by done.
  by rewrite app_nil_r.
Qed.

Lemma decimal_value_digit d : (d < 10)%N -> decimal_value (digit d) = Some d.
Proof.
  intros H. destruct d as [| p]; [done |].
  do 4 (destruct p as [p | p |]; try lia; try reflexivity).
Qed.

Lemma digit_not_space d : (d < 10)%N -> isspace (digit d) = false.
Proof.
  intros H. destruct d as [| p]; [done |].
  do 4 (destruct p as [p | p |]; try lia; try reflexivity).
Qed.

Lemma digit_bounds d : (d < 10)%N -> (48 <= digit d <= 57)%N.
Proof. unfold digit. lia. Qed.

Lemma span_digits_all ds :
  Forall (fun d => (d < 10)%N) ds -> span_digits (map digit ds) = (ds, []).
Proof.
  induction 1 as [| d ds Hd _ IH]; simpl; [done |].
  rewrite decimal_value_digit by done. by rewrite IH.
Qed.

Lemma drop_underscores_digits b ds :
  Forall (fun d => (d < 10)%N) ds ->
  drop_underscores b (map digit ds) = Some (map digit ds).
Proof.
  intros H. revert b. induction H as [| d ds Hd _ IH]; intros b; simpl; [done |].
  pose proof (digit_bounds d Hd).
  destruct (N.eqb_spec (digit d) 95); [lia |].
  by rewrite IH.
Qed.

Lemma strip_num_digits ds :
  Forall (fun d => (d < 10)%N) ds -> strip_num (map digit ds) = map digit ds.
Proof.
  intros H. unfold strip_num.
  assert (Hl : forall l, Forall (fun c => (48 <= c <= 57)%N) l -> lstrip_num l = l).
  { intros [| c l] Hc; [done |]. inversion Hc as [| ? ? Hb _]; subst. simpl.
    assert (isspace c = false) as Hs.
    { replace c with (digit (c - 48)) by (unfold digit; lia).
      apply digit_not_space. lia. }
    unfold num_space. by rewrite Hs. }
  assert (Hb : Forall (fun c => (48 <= c <= 57)%N) (map digit ds)).
  { apply Forall_map. eapply Forall_impl; [exact H |]. apply digit_bounds. }
  rewrite (Hl _ Hb). rewrite Hl by (by apply Forall_reverse).
  apply reverse_involutive.
Qed.

Lemma parse_sign_digits d ds :
  (d < 10)%N -> parse_sign (map digit (d :: ds)) = (false, map digit (d :: ds)).
Proof.
  intros H. pose proof (digit_bounds d H). simpl.
  destruct (N.eqb_spec (digit d) 45); [lia |].
  destruct (N.eqb_spec (digit d) 43); [lia | done].
Qed.

(** [int] reads a run of ASCII digits as the number it writes. *)
Lemma int_of_digits ds :
  ds <> [] -> Forall (fun d => (d < 10)%N) ds ->
  int_of_str (map digit ds) = Some (Z.of_N (nat_of_digits ds)).
Proof.
  intros Hne H. unfold int_of_str.
  rewrite drop_underscores_digits by done. simpl.
  rewrite strip_num_digits by done.
  destruct ds as [| d ds]; [done |]. inversion H; subst.
  rewrite parse_sign_digits by done.
  by rewrite span_digits_all.
Qed.

(** So does [float]. *)
Lemma float_of_digits ds :
  ds <> [] -> Forall (fun d => (d < 10)%N) ds ->
  float_of_str (map digit ds) = Some (Qc_of_Z (Z.of_N (nat_of_digits ds))).
Proof.
  intros Hne H. unfold float_of_str.
  rewrite drop_underscores_digits by done. simpl.
  rewrite strip_num_digits by done. unfold parse_decimal.
  destruct ds as [| d ds]; [done |]. inversion H; subst.
  rewrite parse_sign_digits by done.
  rewrite span_digits_all by done. simpl. rewrite app_nil_r.
  f_equal. replace (pow10 (0 - 0)) with 1%Qc by (by apply Qc_is_canon).
  apply Qcmult_1_r.
Qed.

End StringFacts.

(** ** The order of strings and [sorted] *)

Section StringOrder.

Lemma str_leb_total a : forall b, str_leb a b = true \/ str_leb b a = true.
Proof.
  induction a as [| x a IH]; intros [| y b]; simpl; auto.
  destruct (N.ltb_spec x y); [auto |].
  destruct (N.ltb_spec y x); [auto |]. apply IH.
Qed.

Lemma str_leb_trans a : forall b c,
  str_leb a b = true -> str_leb b c = true -> str_leb a c = true.
Proof.
  induction a as [| x a IH]; intros [| y b] [| z c]; simpl; try done.
  destruct (N.ltb_spec x y), (N.ltb_spec y x), (N.ltb_spec y z),
    (N.ltb_spec z y), (N.ltb_spec x z), (N.ltb_spec z x);
    try done; try lia.
  apply IH.
Qed.

Lemma str_leb_antisym a : forall b,
  str_leb a b = true -> str_leb b a = true -> a = b.
Proof.
  induction a as [| x a IH]; intros [| y b]; simpl; try done.
  destruct (N.ltb_spec x y), (N.ltb_spec y x); try done; try lia.
  intros Hab Hba. f_equal; [lia | by apply IH].
Qed.

#[global] Instance str_le_total : Total str_le.
Proof. intros a b. apply str_leb_total. Qed.

#[global] Instance str_le_trans : Transitive str_le.
Proof. intros a b c. apply str_leb_trans. Qed.

#[global] Instance str_le_antisym : AntiSymm (=) str_le.
Proof. intros a b. apply str_leb_antisym. Qed.

Lemma str_le_refl a : str_le a a.
Proof. destruct (str_leb_total a a); done. Qed.

Lemma sorted_sorted l : StronglySorted str_le (sorted l).
Proof. apply StronglySorted_merge_sort; apply _. Qed.

Lemma sorted_perm l : sorted l ≡ₚ l.
Proof. apply merge_sort_Permutation. Qed.

Lemma strongly_sorted_strict (l : list str) :
  StronglySorted str_le l -> NoDup l -> StronglySorted str_lt l.
Proof.
  induction 1 as [| x l Hl IH Hx]; intros Hnd; constructor.
  - apply IH. by apply NoDup_cons in Hnd as [_ ?].
  - apply NoDup_cons in Hnd as [Hnotin _].
    rewrite Forall_forall in Hx. apply Forall_forall. intros y Hy.
    split; [by apply Hx |]. intros ->. done.
Qed.

(** Sorting a list without repetition gives a strictly ascending list of
    the same elements. *)
Lemma sorted_strict l :
  NoDup l -> StronglySorted str_lt (sorted l) /\ sorted l ≡ₚ l.
Proof.
  intros Hnd. split; [| apply sorted_perm].
  apply strongly_sorted_strict; [apply sorted_sorted |].
  by rewrite sorted_perm.
Qed.

(** Two sorted lists of the same elements are one list. *)
Lemma sorted_unique l1 l2 :
  l1 ≡ₚ l2 -> sorted l1 = sorted l2.
Proof.
  intros Hp. apply (Sorted_unique str_le).
  - apply StronglySorted_Sorted, sorted_sorted.
  - apply StronglySorted_Sorted, sorted_sorted.
  - by rewrite !sorted_perm.
Qed.

End StringOrder.

(** ** The calendar *)

Section CalendarFacts.

Lemma days_before_year_split a b c e :
  0 <= b <= 3 -> 0 <= c <= 24 -> 0 <= e <= 3 ->
  _days_before_year (400 * a + 100 * b + 4 * c + e + 1)
  = _DI400Y * a + _DI100Y * b + _DI4Y * c + 365 * e.
Proof.
  intros Hb Hc He. unfold _days_before_year, _DI400Y, _DI100Y, _DI4Y.
  cbv zeta.
  replace (400 * a + 100 * b + 4 * c + e + 1 - 1)
    with (400 * a + 100 * b + 4 * c + e) by lia.
  assert ((400 * a + 100 * b + 4 * c + e) / 4 = 100 * a + 25 * b + c)
    as -> by div_lia.
  assert ((400 * a + 100 * b + 4 * c + e) / 100 = 4 * a + b) as -> by div_lia.
  assert ((400 * a + 100 * b + 4 * c + e) / 400 = a) as -> by div_lia.
  lia.
Qed.

Lemma is_leap_split a b c e :
  0 <= b <= 3 -> 0 <= c <= 24 -> 0 <= e <= 3 ->
  _is_leap (400 * a + 100 * b + 4 * c + e + 1)
  = (e =? 3) && (negb (c =? 24) || (b =? 3)).
Proof.
  intros Hb Hc He. unfold _is_leap.
  set (y := 400 * a + 100 * b + 4 * c + e + 1).
  assert (H4 : y mod 4 = 0 <-> e = 3) by (subst y; div_lia).
  assert (H100 : y mod 100 = 0 <-> (e = 3 /\ c = 24)) by (subst y; div_lia).
  assert (H400 : y mod 400 = 0 <-> (e = 3 /\ c = 24 /\ b = 3))
    by (subst y; div_lia).
  destruct (Z.eqb_spec (y mod 4) 0), (Z.eqb_spec (y mod 100) 0),
    (Z.eqb_spec (y mod 400) 0), (Z.eqb_spec e 3), (Z.eqb_spec c 24),
    (Z.eqb_spec b 3); simpl; try reflexivity; lia.
Qed.

Lemma month_day_checked (leapyear : bool) (n : Z) :
  0 <= n < (if leapyear then 366 else 365) ->
  month_day_ok leapyear n = true.
Proof.
  intros Hn.
  assert (Hall : Forall (fun k => month_day_ok leapyear k = true)
                   (seqZ 0 (if leapyear then 366 else 365))).
  { destruct leapyear; apply (bool_decide_unpack _); vm_compute; exact I. }
  rewrite Forall_forall in Hall. apply Hall, elem_of_seqZ. lia.
Qed.

Lemma month_day_spec (leapyear : bool) (n : Z) :
  0 <= n < (if leapyear then 366 else 365) ->
  let md := month_day n leapyear in
  1 <= fst md <= 12
  /\ 1 <= snd md
       <= (if (fst md =? 2) && leapyear then 29
           else index _DAYS_IN_MONTH (fst md))
  /\ index _DAYS_BEFORE_MONTH (fst md)
     + (if (2 <? fst md) && leapyear then 1 else 0) + snd md = n + 1.
Proof.
  intros Hn. pose proof (month_day_checked leapyear n Hn) as H.
  unfold month_day_ok in H. cbv zeta.
  destruct (month_day n leapyear) as [m d]. simpl.
  repeat (apply andb_prop in H as [H ?]). lia.
Qed.

(** The four divisions of [_ord2ymd], then the month and the day. *)
Lemma ord2ymd_unfold n :
  _ord2ymd n =
  let m := n - 1 in
  let n400 := m / _DI400Y in
  let r1 := m mod _DI400Y in
  let n100 := r1 / _DI100Y in
  let r2 := r1 mod _DI100Y in
  let n4 := r2 / _DI4Y in
  let r3 := r2 mod _DI4Y in
  let n1 := r3 / 365 in
  let r4 := r3 mod 365 in
  let y := n400 * 400 + 1 + n100 * 100 + n4 * 4 + n1 in
  if (n1 =? 4) || (n100 =? 4) then mkdate (y - 1) 12 31
  else
    let md :=
      month_day r4 ((n1 =? 3) && (negb (n4 =? 24) || (n100 =? 3))) in
    mkdate y (fst md) (snd md).
Proof.
  unfold _ord2ymd, month_day. cbv zeta.
  destruct (_ || _); [reflexivity |].
  destruct (_ <? _); reflexivity.
Qed.

(** [_ord2ymd] yields a date of the calendar whose ordinal is the one
    it was given. *)
Lemma ord2ymd_spec n :
  1 <= n ->
  let d := _ord2ymd n in
  1 <= year d
  /\ 1 <= month d <= 12
  /\ 1 <= day d <= _days_in_month (year d) (month d)
  /\ toordinal d = n.
Proof.
  intros Hn. rewrite ord2ymd_unfold. cbv zeta.
  remember (n - 1) as m eqn:Hm.
  remember (m / _DI400Y) as n400 eqn:H400.
  remember (m mod _DI400Y) as r1 eqn:Hr1.
  remember (r1 / _DI100Y) as n100 eqn:H100.
  remember (r1 mod _DI100Y) as r2 eqn:Hr2.
  remember (r2 / _DI4Y) as n4 eqn:H4.
  remember (r2 mod _DI4Y) as r3 eqn:Hr3.
  remember (r3 / 365) as n1 eqn:H1.
  remember (r3 mod 365) as r4 eqn:Hr4.
  unfold _DI400Y, _DI100Y, _DI4Y in *.
  assert (Hfacts :
    m = 146097 * n400 + r1 /\ 0 <= r1 < 146097 /\ 0 <= n400
    /\ r1 = 36524 * n100 + r2 /\ 0 <= r2 < 36524 /\ 0 <= n100 <= 4
    /\ r2 = 1461 * n4 + r3 /\ 0 <= r3 < 1461 /\ 0 <= n4 <= 24
    /\ r3 = 365 * n1 + r4 /\ 0 <= r4 < 365 /\ 0 <= n1 <= 4).
  { subst n400 r1 n100 r2 n4 r3 n1 r4. div_lia. }
  clear H400 Hr1 H100 Hr2 H4 Hr3 H1 Hr4.
  destruct Hfacts as (Em & Br1 & B400 & Er1 & Br2 & B100 & Er2 & Br3 & B4
                      & Er3 & Br4 & B1).
  unfold toordinal, _ymd2ord, _days_in_month, _days_before_month.
  destruct ((n1 =? 4) || (n100 =? 4)) eqn:Hlast.
  - (* the last day of a leap year *)
    simpl year; simpl month; simpl day.
    change (index _DAYS_IN_MONTH 12) with 31.
    change (index _DAYS_BEFORE_MONTH 12) with 334.
    change (12 =? 2) with false. change (2 <? 12) with true.
    cbn [andb].
    assert (Hcase : (n100 = 4 /\ n4 = 0 /\ n1 = 0 /\ r4 = 0)
                    \/ (n100 <= 3 /\ n4 <= 23 /\ n1 = 4 /\ r4 = 0)).
    { apply orb_prop in Hlast as [H | H]; apply Z.eqb_eq in H; lia. }
    destruct Hcase as [(-> & -> & -> & ->) | (L100 & L4 & -> & ->)].
    + replace (n400 * 400 + 1 + 4 * 100 + 0 * 4 + 0 - 1)
        with (400 * n400 + 100 * 3 + 4 * 24 + 3 + 1) by lia.
      rewrite is_leap_split, days_before_year_split by lia.
      unfold _DI400Y, _DI100Y, _DI4Y. simpl. lia.
    + replace (n400 * 400 + 1 + n100 * 100 + n4 * 4 + 4 - 1)
        with (400 * n400 + 100 * n100 + 4 * n4 + 3 + 1) by lia.
      rewrite is_leap_split, days_before_year_split by lia.
      unfold _DI400Y, _DI100Y, _DI4Y.
      destruct (Z.eqb_spec n4 24); [lia |]. simpl. lia.
  - apply orb_false_elim in Hlast as [Hn1 Hn100].
    apply Z.eqb_neq in Hn1, Hn100.
    replace (n400 * 400 + 1 + n100 * 100 + n4 * 4 + n1)
      with (400 * n400 + 100 * n100 + 4 * n4 + n1 + 1) by lia.
    set (leap := (n1 =? 3) && (negb (n4 =? 24) || (n100 =? 3))).
    assert (Hleap : _is_leap (400 * n400 + 100 * n100 + 4 * n4 + n1 + 1) = leap)
      by (apply is_leap_split; lia).
    assert (Hr : 0 <= r4 < (if leap then 366 else 365))
      by (destruct leap; lia).
    pose proof (month_day_spec leap r4 Hr) as Hmd. cbv zeta in Hmd.
    destruct (month_day r4 leap) as [mo dd]. simpl in Hmd.
    simpl year; simpl month; simpl day.
    rewrite Hleap, days_before_year_split by lia.
    unfold _DI400Y, _DI100Y, _DI4Y. lia.
Qed.

Lemma valid_bounds d :
  valid d = true ->
  1 <= year d <= 9999 /\ 1 <= month d <= 12
  /\ 1 <= day d <= _days_in_month (year d) (month d).
Proof.
  unfold valid, MINYEAR, MAXYEAR. intros H.
  repeat (apply andb_prop in H as [H ?]). lia.
Qed.

Lemma valid_intro d :
  1 <= year d <= 9999 -> 1 <= month d <= 12 ->
  1 <= day d <= _days_in_month (year d) (month d) ->
  valid d = true.
Proof.
  unfold valid, MINYEAR, MAXYEAR. intros Hy Hm Hd.
  repeat (apply andb_true_intro; split); lia.
Qed.

Lemma month_cases m :
  1 <= m <= 12 ->
  m = 1 \/ m = 2 \/ m = 3 \/ m = 4 \/ m = 5 \/ m = 6
  \/ m = 7 \/ m = 8 \/ m = 9 \/ m = 10 \/ m = 11 \/ m = 12.
Proof. lia. Qed.

(** A month starts and ends within its year. *)
Lemma days_before_month_bounds y m :
  1 <= m <= 12 ->
  0 <= _days_before_month y m
  /\ _days_before_month y m + _days_in_month y m
     <= 365 + (if _is_leap y then 1 else 0).
Proof.
  intros Hm. unfold _days_before_month, _days_in_month.
  destruct (_is_leap y);
    destruct (month_cases m Hm) as
      [-> | [-> | [-> | [-> | [-> | [-> | [-> | [-> | [-> | [-> | [-> | ->]]]]]]]]]]];
    vm_compute; split; discriminate.
Qed.

Lemma toordinal_bounds d :
  valid d = true -> 1 <= toordinal d <= _MAXORDINAL.
Proof.
  intros H. apply valid_bounds in H as (Hy & Hm & Hd).
  pose proof (days_before_month_bounds (year d) (month d) Hm) as [Hb0 Hb1].
  unfold toordinal, _ymd2ord, _MAXORDINAL.
  assert (Hby : 0 <= _days_before_year (year d))
    by (unfold _days_before_year; cbv zeta; div_lia).
  split; [lia |].
  destruct (decide (year d = 9999)) as [E | N].
  - rewrite E in *. change (_is_leap 9999) with false in Hb1.
    cbn iota in Hb1.
    change (_days_before_year 9999) with 3651694. lia.
  - assert (_days_before_year (year d) <= 3651329)
      by (unfold _days_before_year; cbv zeta; div_lia).
    destruct (_is_leap (year d)); lia.
Qed.

Lemma ord2ymd_valid n :
  1 <= n <= _MAXORDINAL ->
  valid (_ord2ymd n) = true /\ toordinal (_ord2ymd n) = n.
Proof.
  intros [Hlo Hhi]. pose proof (ord2ymd_spec n Hlo) as H. cbv zeta in H.
  destruct H as (Hy & Hm & Hd & Ho). split; [| exact Ho].
  apply valid_intro; [| done | done]. split; [done |].
  destruct (Z_le_gt_dec (year (_ord2ymd n)) 9999) as [| Hbig]; [done |].
  exfalso.
  pose proof (days_before_month_bounds (year (_ord2ymd n)) _ Hm) as [Hb0 _].
  unfold toordinal, _ymd2ord, _MAXORDINAL in *.
  assert (3652059 <= _days_before_year (year (_ord2ymd n)))
    by (unfold _days_before_year; cbv zeta; div_lia).
  lia.
Qed.

Lemma weekday_range d : 0 <= weekday d <= 6.
Proof. unfold weekday. div_lia. Qed.

(** Going back to Monday stays within the calendar: day 1 is a Monday. *)
Lemma monday_of d :
  valid d = true ->
  exists monday,
    minus_days d (weekday d) = Ok monday
    /\ valid monday = true
    /\ toordinal monday = toordinal d - weekday d
    /\ weekday monday = 0.
Proof.
  intros Hv. pose proof (toordinal_bounds d Hv) as Hb.
  unfold minus_days. cbv zeta.
  assert (Ho : 1 <= toordinal d - weekday d <= _MAXORDINAL).
  { unfold weekday, _MAXORDINAL in *. div_lia. }
  destruct (Z.ltb_spec 0 (toordinal d - weekday d)); [| lia].
  destruct (Z.leb_spec (toordinal d - weekday d) _MAXORDINAL); [| lia].
  simpl. eexists. split; [reflexivity |].
  destruct (ord2ymd_valid _ Ho) as [Hv' Ho']. split; [done |].
  split; [done |].
  unfold weekday at 1. rewrite Ho'. unfold weekday. div_lia.
Qed.

End CalendarFacts.

(** ** Parsing and printing dates *)

Section StrptimeFacts.

Lemma make_date_valid y m d x : make_date y m d = Ok x -> valid x = true.
Proof.
  unfold make_date. destruct (valid (mkdate y m d)) eqn:Hv; [| done].
  by intros [= <-].
Qed.

(** A date that [strptime] returns passed the checks of the constructor. *)
Lemma strptime_valid s fmt d : strptime s fmt = Ok d -> valid d = true.
Proof.
  unfold strptime. destruct (compile fmt) as [ds |]; [| done].
  destruct (rmatch ds s no_fields) as [[f [| c r]] |]; try done.
  apply make_date_valid.
Qed.

(** [strptime] raises nothing but [ValueError]. *)
Lemma strptime_raises s fmt e :
  strptime s fmt = Raise e -> exists msg, e = ValueError msg.
Proof.
  unfold strptime, make_date. destruct (compile fmt) as [ds |].
  - destruct (rmatch ds s no_fields) as [[f [| c r]] |].
    + destruct (valid _); [done |]. intros [= <-]. by eexists.
    + intros [= <-]. by eexists.
    + intros [= <-]. by eexists.
  - intros [= <-]. by eexists.
Qed.

Lemma first_some_head {A B} (g : A -> option B) x tl b :
  g x = Some b -> first_some g (x :: tl) = Some b.
Proof. intros H. simpl. by rewrite H. Qed.

Lemma digits_value_dec4 y :
  (y < 10000)%N -> digits_value (dec4 y) = Some y.
Proof.
  intros Hy. unfold dec4, digits_value, digits_acc.
  rewrite !decimal_value_digit
    by (apply N.mod_upper_bound; discriminate).
  f_equal. zify. Z.to_euclidean_division_equations. lia.
Qed.

Lemma alts_year y r :
  (y < 10000)%N -> alts DY (dec4 y ++ r) = [(y, r)].
Proof.
  intros Hy. pose proof (digits_value_dec4 y Hy) as H.
  unfold dec4 in *. simpl. simpl in H. by rewrite H.
Qed.

Lemma alts_lit c r : alts (Lit c) (c :: r) = [(0%N, r)].
Proof. simpl. by rewrite N.eqb_refl. Qed.

Lemma alts_month m r :
  1 <= m <= 12 ->
  exists tl, alts Dm (dec2 (Z.to_N m) ++ r) = (Z.to_N m, r) :: tl.
Proof.
  intros Hm.
  destruct (month_cases m Hm) as
    [-> | [-> | [-> | [-> | [-> | [-> | [-> | [-> | [-> | [-> | [-> | ->]]]]]]]]]]];
    eexists; reflexivity.
Qed.

Lemma alts_day d r :
  1 <= d <= 31 ->
  exists tl, alts Dd (dec2 (Z.to_N d) ++ r) = (Z.to_N d, r) :: tl.
Proof.
  intros Hd.
  assert (H : d ∈ seqZ 1 31) by (apply elem_of_seqZ; lia).
  vm_compute in H.
  repeat (apply elem_of_cons in H as [-> | H]; [eexists; reflexivity |]).
  by apply elem_of_nil in H.
Qed.

Lemma days_in_month_le y m : 1 <= m <= 12 -> _days_in_month y m <= 31.
Proof.
  intros Hm. unfold _days_in_month.
  destruct (_is_leap y);
    destruct (month_cases m Hm) as
      [-> | [-> | [-> | [-> | [-> | [-> | [-> | [-> | [-> | [-> | [-> | ->]]]]]]]]]]];
    vm_compute; discriminate.
Qed.

(** The ISO text of a date is read back as that date. *)
Lemma strptime_strftime_iso d :
  valid d = true ->
  strptime (strftime d (u "%Y-%m-%d")) (u "%Y-%m-%d") = Ok d.
Proof.
  intros Hv. pose proof (valid_bounds d Hv) as (Hy & Hm & Hd).
  pose proof (days_in_month_le (year d) (month d) Hm) as Hd31.
  unfold strptime, strftime.
  change (compile (u "%Y-%m-%d")) with (Some [DY; Lit 45%N; Dm; Lit 45%N; Dd]).
  cbn [flat_map render app].
  destruct (alts_month (month d) (45%N :: dec2 (Z.to_N (day d)) ++ []) Hm)
    as [tlm Hmo].
  destruct (alts_day (day d) [] ltac:(lia)) as [tld Hda].
  assert (Hmatch :
    rmatch [DY; Lit 45%N; Dm; Lit 45%N; Dd]
      (dec4 (Z.to_N (year d)) ++ 45%N :: dec2 (Z.to_N (month d))
         ++ 45%N :: dec2 (Z.to_N (day d)) ++ [])
      no_fields
    = Some (mkfields (year d) (month d) (day d), [])).
  { cbn [rmatch]. rewrite alts_year by lia.
    apply first_some_head. cbn [fst snd].
    rewrite alts_lit. apply first_some_head. cbn [fst snd].
    rewrite Hmo. apply first_some_head. cbn [fst snd].
    rewrite alts_lit. apply first_some_head. cbn [fst snd].
    rewrite Hda. apply first_some_head. cbn [fst snd store f_year f_month f_day].
    by rewrite !Z2N.id by lia. }
  rewrite Hmatch. cbn [f_year f_month f_day]. unfold make_date.
  destruct d as [y m dd]. simpl in *. by rewrite Hv.
Qed.

End StrptimeFacts.

(** ** Numeric cells: [_to_float] and [parse_int_like] *)

Section NumericCells.
Import Diet LoseIt.

Lemma space_not_kept c : isspace c = true -> ~ (isdecimal c = true ∨ c = 45%N).
Proof.
  unfold isspace. intros H. apply bool_decide_eq_true_1 in H.
  unfold whitespace in H.
  repeat (apply elem_of_cons in H as [-> | H];
          [intros [Hd | He]; [vm_compute in Hd; discriminate | discriminate] |]).
  by apply elem_of_nil in H.
Qed.

Lemma clean_strip s : clean (strip s) = clean s.
Proof. apply filter_strip, space_not_kept. Qed.

(** The cleaning step keeps every minus sign. *)
Lemma clean_keeps_minus s :
  filter (fun c => c = 45%N) (clean s) = filter (fun c => c = 45%N) s.
Proof.
  unfold clean. induction s as [| c s IH]; [done |].
  destruct (decide (c = 45%N)) as [-> | Hc].
  - rewrite (filter_cons_True _ 45%N) by (by right).
    rewrite !(filter_cons_True (fun c => c = 45%N)) by done. by rewrite IH.
  - rewrite (filter_cons_False (fun c => c = 45%N) c s) by done.
    destruct (decide (isdecimal c = true ∨ c = 45%N)).
    + rewrite filter_cons_True by done.
      by rewrite filter_cons_False.
    + by rewrite filter_cons_False.
Qed.

Lemma clean_digit_free s :
  Forall (fun c => isdecimal c = false) s ->
  clean s = filter (fun c => c = 45%N) s.
Proof.
  unfold clean. induction 1 as [| c s Hc _ IH]; [done |].
  destruct (decide (c = 45%N)) as [-> | Hne].
  - rewrite !filter_cons_True by (done || by right). by rewrite IH.
  - rewrite !filter_cons_False; [done | done |].
    intros [? | ?]; congruence.
Qed.

Lemma clean_digits ds :
  Forall (fun d => (d < 10)%N) ds -> clean (map digit ds) = map digit ds.
Proof.
  unfold clean. induction 1 as [| d ds Hd _ IH]; [done |]. simpl.
  rewrite filter_cons_True.
  - by rewrite IH.
  - left. unfold isdecimal. by rewrite decimal_value_digit.
Qed.

(** A text without a digit and with at most one minus sign is read as 0. *)
Lemma parse_int_like_digit_free s :
  Forall (fun c => isdecimal c = false) s ->
  (length (filter (fun c => c = 45%N) s) <= 1)%nat ->
  parse_int_like (Some s) = Ok 0.
Proof.
  intros Hfree Hlen. unfold parse_int_like.
  case_bool_decide; [done |].
  rewrite clean_strip, clean_digit_free by done.
  destruct (filter (fun c => c = 45%N) s) as [| c [| c' l]] eqn:Hf.
  - done.
  - assert (Hc : c ∈ filter (fun c => c = 45%N) s) by (rewrite Hf; left).
    apply list_elem_of_filter in Hc as [-> _]. done.
  - simpl in Hlen. lia.
Qed.

(** Whatever stands around and between the digits, [parse_int_like]
    reads the digits that the cleaning leaves. *)
Lemma parse_int_like_digits s ds :
  ds <> [] -> Forall (fun d => (d < 10)%N) ds ->
  clean s = map digit ds ->
  parse_int_like (Some s) = Ok (Z.of_N (nat_of_digits ds)).
Proof.
  intros Hne Hds Hclean. unfold parse_int_like.
  rewrite clean_strip, Hclean.
  destruct ds as [| d ds]; [done |].
  inversion Hds as [| ? ? Hd Hds']; subst.
  pose proof (digit_bounds d Hd) as Hb.
  rewrite bool_decide_eq_false_2.
  - rewrite bool_decide_eq_false_2.
    + by rewrite int_of_digits.
    + rewrite !elem_of_cons, elem_of_nil. simpl.
      intros [? | [? | []]]; [done |]. simplify_eq. lia.
  - intros Hin. rewrite <- clean_strip in Hclean.
    rewrite !elem_of_cons, elem_of_nil in Hin.
    remember (map digit (d :: ds)) as rhs eqn:Hrhs.
    destruct Hin as [Hs | [Hs | [Hs | []]]]; rewrite Hs in Hclean;
      vm_compute in Hclean; subst rhs; simpl in Hclean;
      simplify_eq; lia.
Qed.

(** [_to_float] drops commas and double quotes wherever they stand and
    white space, the no-break space included, at the two ends. *)
Lemma to_float_digits pre body post ds :
  ds <> [] -> Forall (fun d => (d < 10)%N) ds ->
  Forall (fun c => isspace c = true) pre ->
  Forall (fun c => isspace c = true) post ->
  Forall (fun c => isspace c = false) body ->
  remove_char 34 (remove_char 44 body) = map digit ds ->
  _to_float (Some (pre ++ body ++ post))
  = Some (Qc_of_Z (Z.of_N (nat_of_digits ds))).
Proof.
  intros Hne Hds Hpre Hpost Hbody Hrm. unfold _to_float. simpl.
  rewrite strip_body by done. rewrite Hrm.
  destruct ds as [| d ds]; [done |].
  change (digit d :: map digit ds) with (map digit (d :: ds)).
  by rewrite float_of_digits.
Qed.

Lemma decorated_clean body ds :
  Forall (fun d => (d < 10)%N) ds ->
  remove_char 34 (remove_char 44 body) = map digit ds ->
  clean body = map digit ds.
Proof.
  intros Hds. unfold remove_char, clean. revert ds Hds.
  induction body as [| c body IH]; intros ds Hds Hrm; [done |].
  destruct (decide (c = 44%N)) as [-> | H44].
  { rewrite (filter_cons_False (fun x => x ≠ 44%N)) in Hrm by (intros ?; done).
    rewrite filter_cons_False by (by intros [? | ?]). by apply IH. }
  rewrite (filter_cons_True (fun x => x ≠ 44%N)) in Hrm by done.
  destruct (decide (c = 34%N)) as [-> | H34].
  { rewrite (filter_cons_False (fun x => x ≠ 34%N)) in Hrm by (intros ?; done).
    rewrite filter_cons_False by (by intros [? | ?]). by apply IH. }
  rewrite (filter_cons_True (fun x => x ≠ 34%N)) in Hrm by done.
  destruct ds as [| d ds]; [done |]. simpl in Hrm.
  inversion Hds as [| ? ? Hd Hds']; subst. injection Hrm as -> Hrm.
  rewrite filter_cons_True.
  - simpl. f_equal. by apply IH.
  - left. unfold isdecimal. by rewrite decimal_value_digit.
Qed.

(** What [float] can never read: a text that holds, once its ends are
    stripped, a code point that is no digit, sign, point, exponent mark or
    underscore. *)

Lemma strip_ends c m d :
  isspace c = false -> isspace d = false ->
  strip (c :: m ++ [d]) = c :: m ++ [d].
Proof.
  intros Hc Hd. unfold strip, rstrip. rewrite lstrip_keeps by done.
  rewrite app_comm_cons, reverse_app. cbn [reverse app].
  change (reverse [d]) with [d]. cbn [app].
  rewrite lstrip_keeps by done.
  change (d :: reverse (c :: m)) with ([d] ++ reverse (c :: m)).
  by rewrite reverse_app, reverse_involutive.
Qed.

Lemma strip_num_ends c m d :
  num_space c = false -> num_space d = false ->
  strip_num (c :: m ++ [d]) = c :: m ++ [d].
Proof.
  intros Hc Hd. unfold strip_num. cbn [lstrip_num]. rewrite Hc.
  rewrite app_comm_cons, reverse_app. change (reverse [d]) with [d].
  cbn [app lstrip_num]. rewrite Hd.
  change (d :: reverse (c :: m)) with ([d] ++ reverse (c :: m)).
  by rewrite reverse_app, reverse_involutive.
Qed.

Lemma strip_keeps_elem c s : isspace c = false -> c ∈ s -> c ∈ strip s.
Proof.
  intros Hc Hin. destruct (strip_decompose s) as (pre & post & Hs & Hpre & Hpost).
  rewrite Hs in Hin. rewrite !elem_of_app in Hin.
  destruct Hin as [Hin | [Hin | Hin]]; [| done |].
  - apply (proj1 (Forall_forall _ _) Hpre) in Hin. congruence.
  - apply (proj1 (Forall_forall _ _) Hpost) in Hin. congruence.
Qed.

Lemma lstrip_num_keeps_elem c s :
  num_space c = false -> c ∈ s -> c ∈ lstrip_num s.
Proof.
  intros Hc. induction s as [| x s IH]; [done |]. intros Hin.
  cbn [lstrip_num]. destruct (num_space x) eqn:Hx; [| done].
  apply elem_of_cons in Hin as [-> | Hin]; [congruence | by apply IH].
Qed.

Lemma strip_num_keeps_elem c s :
  num_space c = false -> c ∈ s -> c ∈ strip_num s.
Proof.
  intros Hc Hin. unfold strip_num.
  apply elem_of_reverse, lstrip_num_keeps_elem; [done |].
  by apply elem_of_reverse, lstrip_num_keeps_elem.
Qed.

Lemma drop_underscores_keeps_elem c s : forall b s',
  c <> 95%N -> drop_underscores b s = Some s' -> c ∈ s -> c ∈ s'.
Proof.
  induction s as [| x s IH]; intros b s' Hc Hs Hin;
    [by apply elem_of_nil in Hin |].
  cbn [drop_underscores] in Hs.
  destruct (N.eqb_spec x 95) as [-> | Hx].
  - apply elem_of_cons in Hin as [-> | Hin]; [done |].
    destruct (b && _); [| done]. by apply (IH false).
  - destruct (drop_underscores (isdecimal x) s) as [r |] eqn:Hr; [| done].
    cbn in Hs. injection Hs as <-.
    apply elem_of_cons in Hin as [-> | Hin]; [left | right].
    by apply (IH (isdecimal x)).
Qed.

Lemma drop_underscores_plain s : forall b,
  95%N ∉ s -> drop_underscores b s = Some s.
Proof.
  induction s as [| x s IH]; intros b Hno; [done |].
  cbn [drop_underscores].
  destruct (N.eqb_spec x 95) as [-> | Hx]; [destruct Hno; left |].
  rewrite IH; [done |]. intros Hin. apply Hno. by right.
Qed.

Lemma parse_sign_keeps_elem c s :
  c <> 45%N -> c <> 43%N -> c ∈ s -> c ∈ (parse_sign s).2.
Proof.
  intros H45 H43 Hin. destruct s as [| x s]; [done |]. cbn [parse_sign].
  destruct (N.eqb_spec x 45) as [-> | Hx];
    [by apply elem_of_cons in Hin as [-> | Hin] |].
  destruct (N.eqb_spec x 43) as [-> | Hx'];
    [by apply elem_of_cons in Hin as [-> | Hin] | done].
Qed.

Lemma span_digits_keeps_elem c s :
  decimal_value c = None -> c ∈ s -> c ∈ (span_digits s).2.
Proof.
  intros Hc. induction s as [| x s IH]; [done |]. intros Hin.
  cbn [span_digits]. destruct (decimal_value x) as [d |] eqn:Hx; [| done].
  apply elem_of_cons in Hin as [-> | Hin]; [congruence |].
  specialize (IH Hin). by destruct (span_digits s).
Qed.

Lemma parse_exponent_junk c s :
  decimal_value c = None -> c <> 45%N -> c <> 43%N ->
  c <> 101%N -> c <> 69%N ->
  c ∈ s -> parse_exponent s = None.
Proof.
  intros Hd H45 H43 H101 H69 Hin.
  destruct s as [| x s]; [by apply elem_of_nil in Hin |].
  cbn [parse_exponent].
  destruct ((x =? 101)%N || (x =? 69)%N) eqn:Hx; [| done].
  assert (Hs : c ∈ s).
  { apply elem_of_cons in Hin as [-> | Hin]; [| done].
    apply orb_true_iff in Hx as [Hx | Hx]; apply N.eqb_eq in Hx;
      congruence. }
  pose proof (parse_sign_keeps_elem c s H45 H43 Hs) as H1.
  destruct (parse_sign s) as [neg r1]. cbn [snd] in H1.
  pose proof (span_digits_keeps_elem c r1 Hd H1) as H2.
  destruct (span_digits r1) as [ds r2]. cbn [snd] in H2.
  destruct r2; [by apply elem_of_nil in H2 | by destruct ds].
Qed.

Lemma parse_decimal_junk c s :
  decimal_value c = None -> c <> 45%N -> c <> 43%N -> c <> 46%N ->
  c <> 101%N -> c <> 69%N ->
  c ∈ s -> parse_decimal s = None.
Proof.
  intros Hd H45 H43 H46 H101 H69 Hin. unfold parse_decimal.
  pose proof (parse_sign_keeps_elem c s H45 H43 Hin) as H1.
  destruct (parse_sign s) as [neg s1]. cbn [snd] in H1.
  pose proof (span_digits_keeps_elem c s1 Hd H1) as H2.
  destruct (span_digits s1) as [ip s2]. cbn [snd] in H2.
  assert (H3 : c ∈ (match s2 with
                    | x :: r => if (x =? 46)%N then span_digits r else ([], s2)
                    | [] => ([], s2)
                    end).2).
  { destruct s2 as [| x r]; [done |].
    destruct (N.eqb_spec x 46) as [-> | Hx]; [| done].
    apply span_digits_keeps_elem; [done |].
    by apply elem_of_cons in H2 as [-> | H2]. }
  destruct (match s2 with
            | x :: r => if (x =? 46)%N then span_digits r else ([], s2)
            | [] => ([], s2)
            end) as [fp s3]. cbn [snd] in H3.
  destruct (ip ++ fp); [done |].
  by rewrite (parse_exponent_junk c s3).
Qed.

(** A single quote anywhere makes [_to_float] give up. *)
Lemma to_float_quote t : 39%N ∈ t -> _to_float (Some t) = None.
Proof.
  intros Hin. unfold _to_float. cbn [or_empty].
  assert (Hs : 39%N ∈ remove_char 34 (remove_char 44 (strip t))).
  { unfold remove_char. apply list_elem_of_filter. split; [done |].
    apply list_elem_of_filter. split; [done |].
    by apply strip_keeps_elem. }
  destruct (remove_char 34 (remove_char 44 (strip t))) as [| x s] eqn:Hrm;
    [done |].
  unfold float_of_str.
  destruct (drop_underscores false (x :: s)) as [s' |] eqn:Hdrop; [| done].
  cbn [mbind option_bind].
  apply (parse_decimal_junk 39); try done.
  apply strip_num_keeps_elem; [done |].
  by apply (drop_underscores_keeps_elem 39 (x :: s) false).
Qed.

Lemma digits_plain (P : N -> Prop) ds :
  (forall d, (d < 10)%N -> P (digit d)) ->
  Forall (fun d => (d < 10)%N) ds -> Forall P (map digit ds).
Proof.
  intros HP Hds. apply Forall_fmap. eapply Forall_impl; [exact Hds |].
  intros d Hd. by apply HP.
Qed.

Lemma filter_all {A} (P : A -> Prop) `{forall x, Decision (P x)} (l : list A) :
  Forall P l -> filter P l = l.
Proof.
  induction 1 as [| x l Hx _ IH]; [done |].
  rewrite filter_cons_True by done. by rewrite IH.
Qed.

(** A no-break space between two runs of digits is kept by [_to_float],
    which then gives up, and dropped by [parse_int_like]. *)
Lemma to_float_inner_nbsp a b :
  a <> [] -> b <> [] ->
  Forall (fun d => (d < 10)%N) a -> Forall (fun d => (d < 10)%N) b ->
  _to_float (Some (map digit a ++ [160%N] ++ map digit b)) = None.
Proof.
  intros Hane Hbne Ha Hb.
  destruct a as [| a0 a]; [done |].
  destruct b as [| bl b _] using rev_ind; [done |].
  apply Forall_cons in Ha as [Ha0 Ha]. apply Forall_app in Hb as [Hb Hbl].
  apply Forall_cons in Hbl as [Hbl _].
  set (m := map digit a ++ [160%N] ++ map digit b).
  assert (Htext : map digit (a0 :: a) ++ [160%N] ++ map digit (b ++ [bl])
                  = digit a0 :: m ++ [digit bl]).
  { subst m. rewrite map_app. cbn [map app]. by rewrite <- !app_assoc. }
  rewrite Htext. unfold _to_float. cbn [or_empty].
  rewrite strip_ends by (by apply digit_not_space).
  assert (Hall : Forall (fun c => c <> 44%N /\ c <> 34%N /\ c <> 95%N)
                   (digit a0 :: m ++ [digit bl])).
  { assert (Hdig : forall d, (d < 10)%N ->
              digit d <> 44%N /\ digit d <> 34%N /\ digit d <> 95%N).
    { intros d Hd. pose proof (digit_bounds d Hd). lia. }
    constructor; [by apply Hdig |]. subst m.
    rewrite !Forall_app. repeat split.
    - by apply digits_plain.
    - by repeat constructor.
    - by apply digits_plain.
    - constructor; [by apply Hdig | constructor]. }
  unfold remove_char.
  rewrite (filter_all (fun x => x <> 44%N)) by
    (eapply Forall_impl; [exact Hall |]; by intros c (? & _)).
  rewrite (filter_all (fun x => x <> 34%N)) by
    (eapply Forall_impl; [exact Hall |]; by intros c (_ & ? & _)).
  cbv beta iota. unfold float_of_str.
  rewrite drop_underscores_plain.
  2:{ intros Hin. apply (proj1 (Forall_forall _ _) Hall) in Hin.
      by destruct Hin as (_ & _ & H95). }
  cbn [mbind option_bind].
  assert (Hns : forall d, (d < 10)%N -> num_space (digit d) = false).
  { intros d Hd. unfold num_space. by rewrite digit_not_space. }
  rewrite strip_num_ends by (by apply Hns).
  apply (parse_decimal_junk 160); try done.
  subst m. right. rewrite !elem_of_app. left. right. left. left.
Qed.

Lemma clean_inner_nbsp a b :
  Forall (fun d => (d < 10)%N) a -> Forall (fun d => (d < 10)%N) b ->
  clean (map digit a ++ [160%N] ++ map digit b) = map digit (a ++ b).
Proof.
  intros Ha Hb. unfold clean. rewrite !filter_app, map_app.
  fold (clean (map digit a)). fold (clean (map digit b)).
  rewrite !clean_digits by done.
  rewrite filter_cons_False; [done |].
  intros [Hd | He]; [by vm_compute in Hd | done].
Qed.

Lemma clean_quoted a :
  Forall (fun d => (d < 10)%N) a ->
  clean ([39%N] ++ map digit a ++ [39%N]) = map digit a.
Proof.
  intros Ha. unfold clean. rewrite !filter_app.
  fold (clean (map digit a)). rewrite clean_digits by done.
  rewrite !(filter_cons_False _ 39%N)
    by (intros [Hd | He]; [by vm_compute in Hd | done]).
  rewrite filter_nil. cbn [app]. apply app_nil_r.
Qed.

End NumericCells.

(** C8, as the code has it.  A cell that is a run of ASCII digits
    decorated with commas and double quotes anywhere and with white space
    (the no-break space included) at its two ends is read as the number the
    digits write by [_to_float] and by [parse_int_like]; [parse_int_like]
    besides drops every character that is neither a digit nor a minus sign
    wherever it stands, while [_to_float] reads as [None] every cell that
    holds a single quote and every cell with a no-break space between two
    runs of digits.  So ["1,729"] is 1729 and ["2,024\xa0"] is 2024 in
    both; the empty string is [None] for [_to_float]; a lone dash or en dash
    is [None] for [_to_float] and 0 for [parse_int_like]. *)
Theorem numeric_cell_parsing (pre body post : str) (ds : list N) :
  ds <> [] -> Forall (fun d => (d < 10)%N) ds ->
  Forall (fun c => isspace c = true) pre ->
  Forall (fun c => isspace c = true) post ->
  Forall (fun c => isspace c = false) body ->
  remove_char 34 (remove_char 44 body) = map digit ds ->
  Diet._to_float (Some (pre ++ body ++ post))
  = Some (Qc_of_Z (Z.of_N (nat_of_digits ds)))
  ∧ LoseIt.parse_int_like (Some (pre ++ body ++ post))
    = Ok (Z.of_N (nat_of_digits ds))
  ∧ (forall s, LoseIt.clean s = map digit ds ->
       LoseIt.parse_int_like (Some s) = Ok (Z.of_N (nat_of_digits ds)))
  ∧ (forall t, 39%N ∈ t -> Diet._to_float (Some t) = None)
  ∧ (forall a b,
       a <> [] -> b <> [] ->
       Forall (fun d => (d < 10)%N) a -> Forall (fun d => (d < 10)%N) b ->
       Diet._to_float (Some (map digit a ++ [160%N] ++ map digit b)) = None
       ∧ LoseIt.parse_int_like (Some (map digit a ++ [160%N] ++ map digit b))
         = Ok (Z.of_N (nat_of_digits (a ++ b))))
  ∧ (forall a,
       a <> [] -> Forall (fun d => (d < 10)%N) a ->
       Diet._to_float (Some ([39%N] ++ map digit a ++ [39%N])) = None
       ∧ LoseIt.parse_int_like (Some ([39%N] ++ map digit a ++ [39%N]))
         = Ok (Z.of_N (nat_of_digits a)))
  ∧ isspace 160 = true
  ∧ Diet._to_float (Some (u "1,729")) = Some (Qc_of_Z 1729)
  ∧ LoseIt.parse_int_like (Some (u "1,729")) = Ok 1729
  ∧ Diet._to_float (Some (u "2,024" ++ [160%N])) = Some (Qc_of_Z 2024)
  ∧ LoseIt.parse_int_like (Some (u "2,024" ++ [160%N])) = Ok 2024
  ∧ Diet._to_float (Some []) = None
  ∧ Diet._to_float (Some (u "-")) = None
  ∧ Diet._to_float (Some [8211%N]) = None
  ∧ LoseIt.parse_int_like (Some (u "-")) = Ok 0
  ∧ LoseIt.parse_int_like (Some [8211%N]) = Ok 0.
Proof.
  intros Hne Hds Hpre Hpost Hbody Hrm.
  assert (Hgen : forall s, LoseIt.clean s = map digit ds ->
            LoseIt.parse_int_like (Some s) = Ok (Z.of_N (nat_of_digits ds))).
  { intros s Hs. by apply parse_int_like_digits. }
  split; [by apply to_float_digits |]. split.
  { apply Hgen. rewrite <- (clean_strip (pre ++ body ++ post)).
    rewrite strip_body by done. by apply decorated_clean. }
  split; [exact Hgen |].
  split; [exact to_float_quote |].
  split.
  { intros a b Hane Hbne Ha Hb. split; [by apply to_float_inner_nbsp |].
    apply parse_int_like_digits.
    - by destruct a.
    - by apply Forall_app.
    - by apply clean_inner_nbsp. }
  split.
  { intros a Hane Ha. split.
    - apply to_float_quote. left.
    - apply parse_int_like_digits; [done | done | by apply clean_quoted]. }
  split; [reflexivity |].
  repeat split; try reflexivity; (apply (f_equal Some); qc_eq).
Qed.

Lemma numeric_cell_parsing_witness :
  Diet._to_float (Some ([160%N] ++ ([34%N] ++ u "1,729" ++ [34%N]) ++ [160%N; 32%N]))
  = Some (Qc_of_Z (Z.of_N (nat_of_digits [1; 7; 2; 9]%N))).
Proof.
  apply (numeric_cell_parsing [160%N] (([34%N] ++ u "1,729" ++ [34%N])) [160%N; 32%N]
           [1; 7; 2; 9]%N).
  - done.
  - repeat constructor.
  - repeat constructor.
  - repeat constructor.
  - repeat constructor.
  - reflexivity.
Defined.

(** C8 as stated fails for [_to_float]: a no-break space between the
    digits, or a single quote, is not stripped, and the cell is read as
    [None], where [parse_int_like] reads 1729. *)
Lemma to_float_keeps_inner_nbsp :
  Diet._to_float (Some (u "1" ++ [160%N] ++ u "729")) = None
  ∧ LoseIt.parse_int_like (Some (u "1" ++ [160%N] ++ u "729")) = Ok 1729
  ∧ Diet._to_float (Some (u "'1729'")) = None
  ∧ LoseIt.parse_int_like (Some (u "'1729'")) = Ok 1729.
Proof. repeat split; reflexivity. Qed.

(** C10, as the code has it.  [parse_int_like] is not total: on ["3-4"] the
    cleaning keeps the minus sign (it keeps every one), [int] refuses the
    text and the [ValueError] reaches the caller; and this although [None],
    the empty string, a lone dash, a lone en dash and every text without a
    digit and with at most one minus sign are read as 0. *)
Theorem parse_int_like_not_total (s : str) :
  Forall (fun c => isdecimal c = false) s ->
  (length (filter (fun c => c = 45%N) s) <= 1)%nat ->
  LoseIt.parse_int_like (Some s) = Ok 0
  ∧ LoseIt.clean (u "3-4") = u "3-4"
  ∧ LoseIt.parse_int_like (Some (u "3-4"))
    = Raise (ValueError "invalid literal for int() with base 10")
  ∧ (forall t, filter (fun c => c = 45%N) (LoseIt.clean t)
               = filter (fun c => c = 45%N) t)
  ∧ LoseIt.parse_int_like None = Ok 0
  ∧ LoseIt.parse_int_like (Some []) = Ok 0
  ∧ LoseIt.parse_int_like (Some (u "-")) = Ok 0
  ∧ LoseIt.parse_int_like (Some [8211%N]) = Ok 0.
Proof.
  intros Hfree Hlen.
  split; [by apply parse_int_like_digit_free |].
  split; [reflexivity |]. split; [reflexivity |].
  split; [apply clean_keeps_minus |].
  repeat split; reflexivity.
Qed.

Lemma parse_int_like_not_total_witness :
  LoseIt.parse_int_like (Some (u " n/a - ")) = Ok 0.
Proof.
  apply (parse_int_like_not_total (u " n/a - ")).
  - repeat constructor.
  - vm_compute. lia.
Defined.

(** C10 as stated fails in its last clause: a text without any digit can
    raise as well. *)
Lemma parse_int_like_two_dashes :
  Forall (fun c => isdecimal c = false) (u "--")
  ∧ LoseIt.parse_int_like (Some (u "--"))
    = Raise (ValueError "invalid literal for int() with base 10").
Proof. split; [repeat constructor | reflexivity]. Qed.

(** ** One-rep-max estimate *)

Section OneRepMax.
Import Workout.

Variables (w : Qc) (reps : Z) (cfg : OneRMConfig).

Lemma estimate_low_reps :
  reps <= 1 -> estimate_1rm w reps cfg = Ok w.
Proof.
  intros H. unfold estimate_1rm.
  destruct (Z.leb_spec reps 1); [done | lia].
Qed.

Lemma estimate_epley :
  1 < reps -> lower (formula cfg) = u "epley" ->
  estimate_1rm w reps cfg = Ok (w * (1 + Qc_of_Z reps / Qc_of_Z 30))%Qc.
Proof.
  intros H Hf. unfold estimate_1rm.
  destruct (Z.leb_spec reps 1); [lia |].
  rewrite Hf. by rewrite bool_decide_eq_true_2.
Qed.

Lemma estimate_brzycki :
  1 < reps -> lower (formula cfg) = u "brzycki" ->
  estimate_1rm w reps cfg
  = Ok (w * Qc_of_Z 36 / (Qc_of_Z 37 - Qc_of_Z (Z.min reps 36)))%Qc.
Proof.
  intros H Hf. unfold estimate_1rm.
  destruct (Z.leb_spec reps 1); [lia |].
  rewrite Hf. rewrite bool_decide_eq_false_2 by (by vm_compute).
  rewrite bool_decide_eq_true_2 by done.
  f_equal. unfold Qcdiv. ring.
Qed.

Lemma estimate_unknown :
  1 < reps ->
  lower (formula cfg) ≠ u "epley" -> lower (formula cfg) ≠ u "brzycki" ->
  estimate_1rm w reps cfg = Raise (ValueError "Unknown formula").
Proof.
  intros H He Hb. unfold estimate_1rm.
  destruct (Z.leb_spec reps 1); [lia |].
  by rewrite !bool_decide_eq_false_2.
Qed.
End OneRepMax.

(** C4.  With the selector [epley] or [brzycki], in any letter case: at
    [reps <= 1] the estimate is the weight itself; above, Epley gives
    [weight * (1 + reps / 30)] and Brzycki [weight * 36 / (37 - reps)] with
    [reps] capped at 36.  Epley at weight 100 and 10 reps gives 400/3, which
    prints as 133.33 on two decimals; Brzycki at 40 reps gives what it gives
    at 36 reps. *)
Theorem estimate_1rm_formulas (w : Qc) (reps : Z) (cfg : Workout.OneRMConfig) :
  lower (Workout.formula cfg) = u "epley"
  ∨ lower (Workout.formula cfg) = u "brzycki" ->
  Workout.estimate_1rm w reps cfg
  = Ok (if reps <=? 1 then w
        else if bool_decide (lower (Workout.formula cfg) = u "epley")
        then w * (1 + Qc_of_Z reps / Qc_of_Z 30)
        else w * Qc_of_Z 36 / (Qc_of_Z 37 - Qc_of_Z (Z.min reps 36)))%Qc
  ∧ Workout.estimate_1rm (Qc_of_Z 100) 10 (Workout.mkOneRMConfig (u "epley"))
    = Ok (Q2Qc (400 # 3))
  ∧ format_f 2 (Q2Qc (400 # 3)) = u "133.33"
  ∧ Workout.estimate_1rm w 40 (Workout.mkOneRMConfig (u "brzycki"))
    = Workout.estimate_1rm w 36 (Workout.mkOneRMConfig (u "brzycki")).
Proof.
  intros Hf. split; [| split; [| split]].
  - destruct (Z.leb_spec reps 1).
    + by apply estimate_low_reps.
    + case_bool_decide as He.
      * by apply estimate_epley.
      * destruct Hf as [Hf | Hf]; [done |]. by apply estimate_brzycki.
  - rewrite estimate_epley by done. apply (f_equal Ok). qc_eq.
  - by vm_compute.
  - by rewrite !estimate_brzycki.
Qed.

Lemma estimate_1rm_formulas_witness :
  (lower (Workout.formula (Workout.mkOneRMConfig (u "Brzycki"))) = u "epley"
   ∨ lower (Workout.formula (Workout.mkOneRMConfig (u "Brzycki"))) = u "brzycki")
  ∧ Workout.estimate_1rm (Qc_of_Z 100) 5 (Workout.mkOneRMConfig (u "Brzycki"))
    = Ok (Q2Qc (225 # 2)).
Proof.
  assert (H : lower (Workout.formula (Workout.mkOneRMConfig (u "Brzycki"))) = u "epley"
   ∨ lower (Workout.formula (Workout.mkOneRMConfig (u "Brzycki"))) = u "brzycki")
    by (right; reflexivity).
  split; [exact H |].
  rewrite (proj1 (estimate_1rm_formulas (Qc_of_Z 100) 5 _ H)).
  apply (f_equal Ok). qc_eq.
Defined.

(** C5, as the code has it.  With a selector that is neither [epley] nor
    [brzycki] in any letter case, the estimator raises the Unknown formula
    error whenever [reps > 1]; at [reps <= 1] it returns the weight, the
    selector not being looked at. *)
Theorem unknown_formula_raises (w : Qc) (reps : Z) (cfg : Workout.OneRMConfig) :
  lower (Workout.formula cfg) ≠ u "epley" ->
  lower (Workout.formula cfg) ≠ u "brzycki" ->
  (1 < reps ->
   Workout.estimate_1rm w reps cfg = Raise (ValueError "Unknown formula"))
  ∧ (reps <= 1 -> Workout.estimate_1rm w reps cfg = Ok w).
Proof.
  intros He Hb. split; intros H.
  - by apply estimate_unknown.
  - by apply estimate_low_reps.
Qed.

Lemma unknown_formula_raises_witness :
  lower (u "wathan") ≠ u "epley" ∧ lower (u "wathan") ≠ u "brzycki"
  ∧ Workout.estimate_1rm (Qc_of_Z 100) 5 (Workout.mkOneRMConfig (u "wathan"))
    = Raise (ValueError "Unknown formula").
Proof.
  assert (He : lower (u "wathan") ≠ u "epley") by (by vm_compute).
  assert (Hb : lower (u "wathan") ≠ u "brzycki") by (by vm_compute).
  split; [exact He |]. split; [exact Hb |].
  apply (unknown_formula_raises (Qc_of_Z 100) 5
           (Workout.mkOneRMConfig (u "wathan")) He Hb).
  reflexivity.
Defined.

(** C5 as stated fails: at one rep an unknown selector raises nothing. *)
Lemma unknown_formula_one_rep :
  lower (u "wathan") ≠ u "epley" ∧ lower (u "wathan") ≠ u "brzycki"
  ∧ Workout.estimate_1rm (Qc_of_Z 100) 1 (Workout.mkOneRMConfig (u "wathan"))
    = Ok (Qc_of_Z 100).
Proof. split; [by vm_compute |]. split; [by vm_compute |]. reflexivity. Qed.

(** ** The week of a day *)

(** C7.  For a date text that [strptime] accepts as [%Y-%m-%d], the bucket
    key is the ISO text of a date of the calendar which is a Monday
    (weekday 0), is not after the day and is at most six days before it. *)
Theorem monday_week_start_is_monday (date_iso : str) (d : date) :
  strptime date_iso (u "%Y-%m-%d") = Ok d ->
  exists monday,
    Diet._monday_week_start date_iso = Ok (strftime monday (u "%Y-%m-%d"))
    /\ strptime (strftime monday (u "%Y-%m-%d")) (u "%Y-%m-%d") = Ok monday
    /\ weekday monday = 0
    /\ 0 <= toordinal d - toordinal monday <= 6.
Proof.
  intros Hd. pose proof (strptime_valid _ _ _ Hd) as Hv.
  destruct (monday_of d Hv) as (monday & Hminus & Hvm & Hord & Hwd).
  exists monday. unfold Diet._monday_week_start. rewrite Hd. simpl.
  rewrite Hminus. simpl. split; [reflexivity |].
  split; [by apply strptime_strftime_iso |]. split; [exact Hwd |].
  rewrite Hord. pose proof (weekday_range d). lia.
Qed.

Lemma monday_week_start_is_monday_witness :
  strptime (u "2025-12-24") (u "%Y-%m-%d") = Ok (mkdate 2025 12 24)
  /\ exists monday,
       Diet._monday_week_start (u "2025-12-24")
       = Ok (strftime monday (u "%Y-%m-%d"))
       /\ strptime (strftime monday (u "%Y-%m-%d")) (u "%Y-%m-%d") = Ok monday
       /\ weekday monday = 0
       /\ 0 <= toordinal (mkdate 2025 12 24) - toordinal monday <= 6.
Proof.
  split; [reflexivity |].
  apply (monday_week_start_is_monday (u "2025-12-24") (mkdate 2025 12 24)).
  reflexivity.
Defined.

Example monday_week_start_example :
  Diet._monday_week_start (u "2025-12-24") = Ok (u "2025-12-22").
Proof. reflexivity. Qed.

(** ** Reading the date of a row *)

Section DateParsing.
Import Diet.

Lemma omap_pointwise {A B} (f g : A -> option B) (l : list A) :
  (forall x, f x = g x) -> omap f l = omap g l.
Proof.
  intros H. induction l as [| x l IH]; [done |]. csimpl.
  rewrite H. destruct (g x); by rewrite IH.
Qed.

Lemma lstrip_idem s : lstrip (lstrip s) = lstrip s.
Proof.
  induction s as [| c s IH]; [done |]. simpl.
  destruct (isspace c) eqn:Hc; [done |]. simpl. by rewrite Hc.
Qed.

Lemma lstrip_head s :
  lstrip s = [] \/ exists c t, lstrip s = c :: t /\ isspace c = false.
Proof.
  induction s as [| c s IH]; [by left |]. simpl.
  destruct (isspace c) eqn:Hc; [done |]. right. by exists c, s.
Qed.

Lemma lstrip_snoc l c :
  isspace c = false -> exists l', lstrip (l ++ [c]) = l' ++ [c].
Proof.
  intros Hc. induction l as [| x l [l' IH]]; simpl.
  - rewrite Hc. by exists [].
  - destruct (isspace x); [by exists l' |]. by exists (x :: l).
Qed.

Lemma rstrip_head c t :
  isspace c = false -> exists t', rstrip (c :: t) = c :: t'.
Proof.
  intros Hc. unfold rstrip. rewrite reverse_cons.
  destruct (lstrip_snoc (reverse t) c Hc) as [l' ->].
  rewrite reverse_app. simpl. by eexists.
Qed.

Lemma strip_idem s : strip (strip s) = strip s.
Proof.
  unfold strip.
  assert (Hl : lstrip (rstrip (lstrip s)) = rstrip (lstrip s)).
  { destruct (lstrip_head s) as [-> | (c & t & -> & Hc)]; [done |].
    destruct (rstrip_head c t Hc) as [t' ->]. simpl. by rewrite Hc. }
  rewrite Hl. unfold rstrip. by rewrite reverse_involutive, lstrip_idem.
Qed.

Lemma try_patterns_first raw pats i pat d :
  pats !! i = Some pat ->
  strptime raw pat = Ok d ->
  (forall j p, (j < i)%nat -> pats !! j = Some p ->
               is_ok (strptime raw p) = false) ->
  try_patterns raw pats = Some d.
Proof.
  revert i. induction pats as [| p0 pats IH]; intros i Hi Hd Hbefore; [done |].
  destruct i as [| i]; simpl in *.
  - injection Hi as ->. by rewrite Hd.
  - pose proof (Hbefore 0%nat p0 ltac:(lia) eq_refl) as H0.
    destruct (strptime raw p0); [done |].
    apply (IH i); [done | done |].
    intros j p Hj Hp. apply (Hbefore (S j) p); [lia | done].
Qed.

Lemma try_patterns_none raw pats :
  (forall p, p ∈ pats -> is_ok (strptime raw p) = false) ->
  try_patterns raw pats = None.
Proof.
  induction pats as [| p0 pats IH]; intros H; [done |]. simpl.
  pose proof (H p0 ltac:(left)) as H0.
  destruct (strptime raw p0); [done |].
  apply IH. intros p Hp. apply H. by right.
Qed.

(** The builder keeps a row exactly when the date of the row is read. *)
Lemma extract_row_parse col_map date_col r :
  extract_row col_map date_col r
  = match _parse_date_to_iso (Csv.get r date_col) with
    | Ok iso =>
        Some (mkDailyRow iso (column_value col_map (u "weight") r)
                             (column_value col_map (u "food") r)
                             (column_value col_map (u "exercise") r))
    | Raise _ => None
    end.
Proof.
  unfold extract_row, _parse_date_to_iso. cbv zeta.
  change (or_empty (Some (strip (or_empty (Csv.get r date_col)))))
    with (strip (or_empty (Csv.get r date_col))).
  rewrite strip_idem.
  destruct (strip (or_empty (Csv.get r date_col))); reflexivity.
Qed.

End DateParsing.

(** C6.  The patterns are tried in the order ISO, month/day/4-digit year,
    month/day/2-digit year, day-month name-2-digit year, day-month name-
    4-digit year; the first one that reads the text gives the date, printed
    in ISO form; when none does, the slashes are replaced by dashes and the
    ISO pattern is tried once more; when that fails too the text is
    refused.  The builder, once the date column is resolved, never raises:
    it returns one record for each row whose date cell is read, in the
    order of the rows, and passes over the others. *)
Theorem date_parsing_and_row_dropping
    (raw : cell) (rows : list row) (headers : list str) (date_col : str) :
  Diet._build_column_map headers !! u "date" = Some date_col ->
  Diet.DATE_PATTERNS
  = map u ["%Y-%m-%d"; "%m/%d/%Y"; "%m/%d/%y"; "%d-%b-%y"; "%d-%b-%Y"]%string
  /\ (forall i pat d,
        strip (or_empty raw) <> [] ->
        Diet.DATE_PATTERNS !! i = Some pat ->
        strptime (strip (or_empty raw)) pat = Ok d ->
        (forall j p, (j < i)%nat -> Diet.DATE_PATTERNS !! j = Some p ->
                     is_ok (strptime (strip (or_empty raw)) p) = false) ->
        Diet._parse_date_to_iso raw = Ok (strftime d (u "%Y-%m-%d")))
  /\ (strip (or_empty raw) <> [] ->
      (forall p, p ∈ Diet.DATE_PATTERNS ->
                 is_ok (strptime (strip (or_empty raw)) p) = false) ->
      Diet._parse_date_to_iso raw
      = match strptime (replace_char 47 45 (strip (or_empty raw)))
                       (u "%Y-%m-%d") with
        | Ok d => Ok (strftime d (u "%Y-%m-%d"))
        | Raise _ => Raise (ValueError "Unrecognized date format")
        end)
  /\ exists daily,
       Diet._extract_daily_rows rows headers
       = Ok (daily, Diet._build_column_map headers)
       /\ map Diet.date_iso daily
          = omap (fun r => to_option (Diet._parse_date_to_iso (Csv.get r date_col)))
                 rows
       /\ daily
          = omap (fun r =>
                    match Diet._parse_date_to_iso (Csv.get r date_col) with
                    | Ok iso =>
                        Some (Diet.mkDailyRow iso
                                (Diet.column_value (Diet._build_column_map headers)
                                                   (u "weight") r)
                                (Diet.column_value (Diet._build_column_map headers)
                                                   (u "food") r)
                                (Diet.column_value (Diet._build_column_map headers)
                                                   (u "exercise") r))
                    | Raise _ => None
                    end) rows.
Proof.
  intros Hcol. split; [reflexivity |]. split; [| split].
  - intros i pat d Hne Hi Hd Hbefore. unfold Diet._parse_date_to_iso. cbv zeta.
    destruct (strip (or_empty raw)) as [| c s] eqn:Hraw; [done |].
    by rewrite (try_patterns_first _ _ i pat d Hi Hd Hbefore).
  - intros Hne Hnone. unfold Diet._parse_date_to_iso. cbv zeta.
    destruct (strip (or_empty raw)) as [| c s] eqn:Hraw; [done |].
    rewrite (try_patterns_none _ _ Hnone). simpl.
    destruct (strptime _ _); reflexivity.
  - eexists. unfold Diet._extract_daily_rows. cbv zeta. rewrite Hcol.
    split; [reflexivity |]. split.
    + change (map Diet.date_iso) with (fmap (M:=list) Diet.date_iso).
      rewrite list_fmap_omap. apply omap_pointwise. intros r.
      rewrite extract_row_parse.
      by destruct (Diet._parse_date_to_iso (Csv.get r date_col)).
    + apply omap_pointwise. intros r. apply extract_row_parse.
Qed.

Lemma date_parsing_and_row_dropping_witness :
  let headers := map u ["Date"; "Food"]%string in
  let rows :=
    map (read_row headers)
        (map (map u) [["15-Dec-25"; "1,932"]; ["soon"; "7"]; ["12/22/2025"; ""]]%string) in
  Diet._build_column_map headers !! u "date" = Some (u "Date")
  /\ Diet._parse_date_to_iso (Some (u " 15-Dec-25 ")) = Ok (u "2025-12-15")
  /\ exists daily,
       Diet._extract_daily_rows rows headers
       = Ok (daily, Diet._build_column_map headers)
       /\ map Diet.date_iso daily = [u "2025-12-15"; u "2025-12-22"].
Proof.
  intros headers rows.
  assert (Hcol : Diet._build_column_map headers !! u "date" = Some (u "Date"))
    by (vm_compute; reflexivity).
  destruct (date_parsing_and_row_dropping (Some (u " 15-Dec-25 ")) rows headers
              (u "Date") Hcol) as (_ & Hfirst & _ & daily & Hrun & Hdates & _).
  split; [exact Hcol |]. split.
  - apply (Hfirst 3%nat (u "%d-%b-%y") (mkdate 2025 12 15)).
    + vm_compute. discriminate.
    + reflexivity.
    + reflexivity.
    + intros j p Hj Hp.
      destruct j as [| [| [| j]]]; [| | | lia];
        vm_compute in Hp; injection Hp as <-; reflexivity.
  - exists daily. split; [exact Hrun |]. rewrite Hdates. vm_compute. reflexivity.
Defined.

(** ** Weekly averages *)

Section OrderedDict.
Context {V : Type}.
Implicit Types (d : ODict.odict V) (k : str) (v : V).

Lemma odict_get_set_eq k v d : ODict.get k (ODict.set k v d) = Some v.
Proof.
  induction d as [| [k' v'] d IH]; simpl.
  - by rewrite bool_decide_eq_true_2.
  - case_bool_decide as Hk; simpl.
    + by rewrite bool_decide_eq_true_2.
    + by rewrite bool_decide_eq_false_2.
Qed.

Lemma odict_get_set_ne k k' v d :
  k <> k' -> ODict.get k' (ODict.set k v d) = ODict.get k' d.
Proof.
  intros Hne. induction d as [| [k0 v0] d IH]; simpl.
  - by rewrite bool_decide_eq_false_2.
  - case_bool_decide as Hk; simpl.
    + subst k0. by rewrite !bool_decide_eq_false_2.
    + case_bool_decide; [done | apply IH].
Qed.

Lemma odict_keys_set k v d :
  ODict.keys (ODict.set k v d)
  = if ODict.mem k d then ODict.keys d else ODict.keys d ++ [k].
Proof.
  unfold ODict.mem, ODict.keys. induction d as [| [k0 v0] d IH]; simpl; [done |].
  case_bool_decide as Hk; simpl; [done |].
  rewrite IH. by destruct (ODict.get k d).
Qed.

Lemma odict_get_keys k d : ODict.get k d = None <-> k ∉ ODict.keys d.
Proof.
  unfold ODict.keys. induction d as [| [k0 v0] d IH]; simpl.
  - split; [intros _; apply not_elem_of_nil | done].
  - case_bool_decide as Hk.
    + subst. split; [done |]. intros H. exfalso. apply H. left.
    + rewrite IH. rewrite not_elem_of_cons.
      split; [intros H; split; [congruence | done] | by intros [_ H]].
Qed.

Lemma odict_set_nodup k v d :
  NoDup (ODict.keys d) -> NoDup (ODict.keys (ODict.set k v d)).
Proof.
  intros Hnd. rewrite odict_keys_set. unfold ODict.mem.
  destruct (ODict.get k d) eqn:Hg; [done |].
  apply NoDup_app. split; [done |]. split; [| apply NoDup_singleton].
  intros x Hx Hin. apply list_elem_of_singleton in Hin as ->.
  by apply odict_get_keys in Hg.
Qed.

Lemma odict_get_map {W} (f : V -> W) k d :
  ODict.get k (map (fun '(k, v) => (k, f v)) d) = f <$> ODict.get k d.
Proof.
  induction d as [| [k0 v0] d IH]; simpl; [done |].
  case_bool_decide; [done | apply IH].
Qed.

Lemma odict_keys_map {W} (f : V -> W) d :
  ODict.keys (map (fun '(k, v) => (k, f v)) d) = ODict.keys d.
Proof.
  unfold ODict.keys. induction d as [| [k0 v0] d IH]; simpl; [done |].
  by rewrite IH.
Qed.
End OrderedDict.

Section Aggregation.
Import Diet.

Lemma append_some_omap {A} (f : A -> option Qc) l0 (l : list A) x :
  append_some (l0 ++ omap f l) (f x) = l0 ++ omap f (l ++ [x]).
Proof.
  rewrite omap_app. csimpl. unfold append_some.
  destruct (f x); simpl; [by rewrite app_assoc | by rewrite !app_nil_r].
Qed.

Lemma fold_add_to_bucket l b :
  fold_left add_to_bucket l b
  = mkbucket (b_weight b ++ omap weight l) (b_food b ++ omap food l)
             (b_exercise b ++ omap exercise l) (b_net b ++ omap net l).
Proof.
  revert b. induction l as [| d l IH]; intros b; simpl.
  - destruct b. simpl. by rewrite !app_nil_r.
  - rewrite IH. unfold add_to_bucket. simpl. csimpl.
    f_equal; unfold append_some;
      match goal with |- context [match ?x with _ => _ end] => destruct x end;
      by rewrite <- ?app_assoc.
Qed.

Lemma add_day_get buckets d buckets' ws :
  add_day buckets d = Ok buckets' ->
  _monday_week_start (date_iso d) = Ok ws ->
  ODict.get ws buckets'
  = Some (add_to_bucket (default empty_bucket (ODict.get ws buckets)) d)
  /\ forall ws', ws' <> ws -> ODict.get ws' buckets' = ODict.get ws' buckets.
Proof.
  unfold add_day. intros Hadd Hws. rewrite Hws in Hadd. simpl in Hadd.
  injection Hadd as <-. unfold ODict.mem.
  destruct (ODict.get ws buckets) as [b |] eqn:Hg.
  - rewrite Hg. simpl. split; [apply odict_get_set_eq |].
    intros ws' Hne. by apply odict_get_set_ne.
  - split.
    + rewrite odict_get_set_eq. f_equal. by rewrite odict_get_set_eq.
    + intros ws' Hne. by rewrite !odict_get_set_ne.
Qed.

Lemma add_day_nodup buckets d buckets' :
  add_day buckets d = Ok buckets' ->
  NoDup (ODict.keys buckets) -> NoDup (ODict.keys buckets').
Proof.
  unfold add_day. intros Hadd Hnd.
  destruct (_monday_week_start (date_iso d)) as [ws |]; [| done].
  simpl in Hadd. injection Hadd as <-.
  apply odict_set_nodup. destruct (ODict.mem ws buckets); [done |].
  by apply odict_set_nodup.
Qed.

Lemma add_day_ok buckets d :
  is_ok (_monday_week_start (date_iso d)) = true ->
  exists buckets', add_day buckets d = Ok buckets'.
Proof.
  unfold add_day. destruct (_monday_week_start (date_iso d)); [| done].
  intros _. simpl. by eexists.
Qed.

(** What the first loop leaves in the bucket of a week. *)
Lemma fill_buckets_get daily : forall buckets buckets' ws,
  fill_buckets buckets daily = Ok buckets' ->
  ODict.get ws buckets'
  = match in_week ws daily with
    | [] => ODict.get ws buckets
    | l => Some (fold_left add_to_bucket l
                   (default empty_bucket (ODict.get ws buckets)))
    end.
Proof.
  unfold in_week.
  induction daily as [| d daily IH]; intros buckets buckets' ws Hfill.
  - simpl in Hfill. by injection Hfill as <-.
  - simpl in Hfill.
    destruct (add_day buckets d) as [b1 |] eqn:Hadd; [| done].
    simpl in Hfill. rewrite (IH _ _ ws Hfill).
    assert (Hmon : exists w, _monday_week_start (date_iso d) = Ok w).
    { unfold add_day in Hadd.
      destruct (_monday_week_start (date_iso d)); [by eexists | done]. }
    destruct Hmon as [w Hw].
    destruct (add_day_get _ _ _ _ Hadd Hw) as [Hsame Hother].
    destruct (decide (w = ws)) as [-> | Hne].
    + rewrite filter_cons_True by done. rewrite Hsame. simpl.
      by destruct (filter _ daily).
    + rewrite filter_cons_False by (rewrite Hw; congruence).
      by rewrite (Hother ws) by done.
Qed.

Lemma fill_buckets_nodup daily : forall buckets buckets',
  fill_buckets buckets daily = Ok buckets' ->
  NoDup (ODict.keys buckets) -> NoDup (ODict.keys buckets').
Proof.
  induction daily as [| d daily IH]; intros buckets buckets' Hfill Hnd.
  - simpl in Hfill. by injection Hfill as <-.
  - simpl in Hfill.
    destruct (add_day buckets d) as [b1 |] eqn:Hadd; [| done].
    simpl in Hfill. eapply IH; [done |]. by eapply add_day_nodup.
Qed.

Lemma fill_buckets_ok daily : forall buckets,
  Forall (fun d => is_ok (_monday_week_start (date_iso d)) = true) daily ->
  exists buckets', fill_buckets buckets daily = Ok buckets'.
Proof.
  induction daily as [| d daily IH]; intros buckets Hall.
  - by eexists.
  - inversion Hall as [| ? ? Hd Hrest]; subst. simpl.
    destruct (add_day_ok buckets d Hd) as [b1 ->]. simpl. by apply IH.
Qed.

Lemma Qc_of_nat_nonzero n : (0 < n)%nat -> Qc_of_Z (Z.of_nat n) <> 0%Qc.
Proof.
  intros Hn Heq. apply (f_equal this) in Heq. unfold Qc_of_Z in Heq.
  assert (Hq : inject_Z (Z.of_nat n) == 0).
  { rewrite <- (Qred_correct (inject_Z (Z.of_nat n))). simpl in Heq.
    by rewrite Heq. }
  unfold Qeq in Hq. simpl in Hq. lia.
Qed.

(** [_avg] is the arithmetic mean: missing for no value, and otherwise the
    number which, taken as many times as there are values, gives their
    sum. *)
Lemma avg_mean vals :
  match vals with
  | [] => _avg vals = None
  | _ => exists m, _avg vals = Some m
           /\ (m * Qc_of_Z (Z.of_nat (length vals)) = sum vals)%Qc
  end.
Proof.
  destruct vals as [| x vals]; [done |].
  eexists. split; [reflexivity |].
  rewrite Qcmult_comm. apply Qcmult_div_r.
  apply Qc_of_nat_nonzero. simpl. lia.
Qed.

End Aggregation.

(** C1.  When the date of every record is read, the weekly aggregation
    returns, and for every week start [ws]: the table has an entry for [ws]
    exactly when some record falls in that week, and then each of
    [avg_weight], [avg_food], [avg_exercise] is [_avg] of the values of its
    field that are present among the records of the week, and [avg_net] is
    [_avg] of [food - exercise] over the records of the week that have
    both.  [_avg] of no value is missing (not zero) and [_avg] of some
    values is their sum divided by their number.  For the records
    (food 2000, exercise 300) and (food 1800, no exercise) of one week the
    averages are 1900, 300 and 1700. *)
Theorem weekly_averages (daily : list Diet.DailyRow) :
  Forall (fun d => is_ok (Diet._monday_week_start (Diet.date_iso d)) = true)
         daily ->
  (exists weekly,
     Diet._aggregate_weekly daily = Ok weekly
     /\ NoDup (ODict.keys weekly)
     /\ forall ws,
          ODict.get ws weekly
          = match Diet.in_week ws daily with
            | [] => None
            | days =>
                Some (Diet.mkWeeklyAvg
                        (Diet._avg (omap Diet.weight days))
                        (Diet._avg (omap Diet.food days))
                        (Diet._avg (omap Diet.exercise days))
                        (Diet._avg
                           (omap (fun d =>
                                    match Diet.food d, Diet.exercise d with
                                    | Some f, Some e => Some (f - e)%Qc
                                    | _, _ => None
                                    end) days)))
            end)
  /\ Diet._avg [] = None
  /\ (forall x vals,
        exists m, Diet._avg (x :: vals) = Some m
          /\ (m * Qc_of_Z (Z.of_nat (length (x :: vals)))
              = Diet.sum (x :: vals))%Qc)
  /\ Diet._aggregate_weekly
       [Diet.mkDailyRow (u "2025-12-22") None
          (Some (Qc_of_Z 2000)) (Some (Qc_of_Z 300));
        Diet.mkDailyRow (u "2025-12-24") None (Some (Qc_of_Z 1800)) None]
     = Ok [(u "2025-12-22",
            Diet.mkWeeklyAvg None (Some (Qc_of_Z 1900)) (Some (Qc_of_Z 300))
                             (Some (Qc_of_Z 1700)))].
Proof.
  intros Hdates. split; [| split; [| split]].
  - destruct (fill_buckets_ok daily [] Hdates) as [buckets Hfill].
    exists (map (fun '(ws, v) => (ws, Diet.bucket_avg v)) buckets).
    unfold Diet._aggregate_weekly. rewrite Hfill. simpl.
    split; [reflexivity |]. split.
    + rewrite odict_keys_map.
      apply (fill_buckets_nodup daily [] buckets Hfill). constructor.
    + intros ws. rewrite odict_get_map.
      rewrite (fill_buckets_get daily [] buckets ws Hfill).
      destruct (Diet.in_week ws daily) as [| d days]; [done |].
      rewrite fold_add_to_bucket. reflexivity.
  - reflexivity.
  - intros x vals. apply (avg_mean (x :: vals)).
  - qc_struct_eq.
Qed.

Lemma weekly_averages_witness :
  exists weekly,
    Diet._aggregate_weekly
      [Diet.mkDailyRow (u "2025-12-22") (Some (Qc_of_Z 180)) None None;
       Diet.mkDailyRow (u "2025-12-30") None (Some (Qc_of_Z 2100)) None]
    = Ok weekly
    /\ NoDup (ODict.keys weekly).
Proof.
  destruct (weekly_averages
              [Diet.mkDailyRow (u "2025-12-22") (Some (Qc_of_Z 180)) None None;
               Diet.mkDailyRow (u "2025-12-30") None (Some (Qc_of_Z 2100)) None])
    as [(weekly & Hrun & Hnd & _) _].
  - repeat constructor.
  - exists weekly. split; [exact Hrun | exact Hnd].
Defined.

(** ** The merge-upsert of [main] *)

Section MergeLoop.
Import Diet.

Lemma filter_ext_in {A} (P Q : A -> Prop) `{forall x, Decision (P x)}
    `{forall x, Decision (Q x)} (l : list A) :
  (forall x, x ∈ l -> (P x <-> Q x)) -> filter P l = filter Q l.
Proof.
  induction l as [| x l IH]; intros Hpq; [done |].
  assert (Hx : P x <-> Q x) by (apply Hpq; left).
  assert (Hl : filter P l = filter Q l)
    by (apply IH; intros y Hy; apply Hpq; by right).
  destruct (decide (P x)) as [HP | HP].
  - rewrite !filter_cons_True by tauto. by rewrite Hl.
  - rewrite !filter_cons_False by tauto. exact Hl.
Qed.

Lemma upsert_existing st k v :
  existing (upsert st (k, v)) = <[k := new_row k v]> (existing st).
Proof. unfold upsert. by destruct (existing st !! k). Qed.

Lemma upsert_added st k v :
  added (upsert st (k, v))
  = added st + (if decide (existing st !! k = None) then 1 else 0).
Proof.
  unfold upsert. destruct (existing st !! k); cbn [added];
    case_decide; done || lia.
Qed.

Lemma upsert_updated st k v :
  updated (upsert st (k, v))
  = updated st
    + (if decide (is_Some (existing st !! k)
                  /\ existing st !! k <> Some (new_row k v))
       then 1 else 0).
Proof.
  unfold upsert.
  destruct (existing st !! k) as [before |] eqn:Hk; cbn [updated].
  - destruct (decide (new_row k v ≠ before)) as [Hne | Heq].
    + rewrite decide_True; [done |]. split; [by eexists | congruence].
    + rewrite decide_False; [lia |]. intros [_ H]. apply H.
      f_equal. by destruct (decide (new_row k v = before)).
  - rewrite decide_False; [lia |]. intros [[? ?] _]. done.
Qed.

(** What the loop of [main] leaves in the table and in the counters. *)
Lemma merge_loop weekly : forall st,
  NoDup (ODict.keys weekly) ->
  (forall k, existing (fold_left upsert weekly st) !! k
             = match ODict.get k weekly with
               | Some v => Some (new_row k v)
               | None => existing st !! k
               end)
  /\ added (fold_left upsert weekly st)
     = added st + Z.of_nat (length (new_buckets (existing st) weekly))
  /\ updated (fold_left upsert weekly st)
     = updated st + Z.of_nat (length (changed_buckets (existing st) weekly)).
Proof.
  unfold new_buckets, changed_buckets.
  induction weekly as [| [k0 v0] weekly IH]; intros st Hnd.
  - simpl. split; [done |]. split; lia.
  - simpl in Hnd. apply NoDup_cons in Hnd as [Hk0 Hnd].
    destruct (IH (upsert st (k0, v0)) Hnd) as (Hex & Hadd & Hupd).
    assert (Hother : forall item, item ∈ weekly ->
              existing (upsert st (k0, v0)) !! item.1
              = existing st !! item.1).
    { intros [k v] Hin. rewrite upsert_existing. simpl.
      apply lookup_insert_ne. intros ->. apply Hk0.
      apply list_elem_of_fmap. by exists (k, v). }
    change (fold_left upsert ((k0, v0) :: weekly) st)
      with (fold_left upsert weekly (upsert st (k0, v0))).
    split; [| split].
    + intros k. rewrite Hex. cbn [ODict.get]. case_bool_decide as Hk.
      * subst k0. apply odict_get_keys in Hk0. rewrite Hk0.
        rewrite upsert_existing. apply lookup_insert_eq.
      * destruct (ODict.get k weekly); [done |].
        rewrite upsert_existing. by apply lookup_insert_ne.
    + rewrite Hadd, upsert_added.
      rewrite (filter_ext_in
                 (fun item => existing (upsert st (k0, v0)) !! item.1 = None)
                 (fun item => existing st !! item.1 = None) weekly)
        by (intros item Hin; by rewrite Hother).
      destruct (decide (existing st !! k0 = None)) as [Hn | Hn].
      * rewrite filter_cons_True by done. simpl length. lia.
      * rewrite filter_cons_False by done. lia.
    + rewrite Hupd, upsert_updated.
      rewrite (filter_ext_in
                 (fun item => is_Some (existing (upsert st (k0, v0)) !! item.1)
                    /\ existing (upsert st (k0, v0)) !! item.1
                       <> Some (new_row item.1 item.2))
                 (fun item => is_Some (existing st !! item.1)
                    /\ existing st !! item.1 <> Some (new_row item.1 item.2))
                 weekly)
        by (intros item Hin; by rewrite Hother).
      destruct (decide (is_Some (existing st !! k0)
                        /\ existing st !! k0 <> Some (new_row k0 v0)))
        as [Hc | Hc].
      * rewrite filter_cons_True by done. simpl length. lia.
      * rewrite filter_cons_False by done. lia.
Qed.

End MergeLoop.

(** ** Writing the table and reading it again *)

Section Store.
Import Diet.

Lemma write_row_ok r :
  writable r -> write_row OUTPUT_HEADERS r = Ok (row_cells r).
Proof. intros H. unfold write_row. by rewrite bool_decide_eq_true_2. Qed.

Lemma write_row_inv r cells :
  write_row OUTPUT_HEADERS r = Ok cells -> writable r /\ cells = row_cells r.
Proof.
  unfold write_row. case_bool_decide as H; [| done].
  intros [= <-]. done.
Qed.

Lemma write_rows_inv rows : forall written out,
  write_rows rows written = (out, Ok ()) ->
  Forall writable rows /\ out = written ++ map row_cells rows.
Proof.
  induction rows as [| r rows IH]; intros written out H; simpl in H.
  - injection H as <-. by rewrite app_nil_r.
  - destruct (write_row OUTPUT_HEADERS r) as [cells |] eqn:Hr; [| done].
    apply write_row_inv in Hr as [Hw ->].
    apply IH in H as [Hall ->]. split; [by constructor |].
    by rewrite <- app_assoc.
Qed.

Lemma write_rows_ok rows written :
  Forall writable rows ->
  write_rows rows written = (written ++ map row_cells rows, Ok ()).
Proof.
  intros H. revert written.
  induction H as [| r rows Hr _ IH]; intros written; simpl.
  - by rewrite app_nil_r.
  - rewrite write_row_ok by done. rewrite IH. by rewrite <- app_assoc.
Qed.

Lemma reread_new_row ws vals : reread (new_row ws vals) = new_row ws vals.
Proof. reflexivity. Qed.

Lemma reread_key r : row_key (reread r) = row_key r.
Proof. reflexivity. Qed.

Lemma reread_cells r : row_cells (reread r) = row_cells r.
Proof. reflexivity. Qed.

Lemma reread_writable r : writable (reread r).
Proof. split; [reflexivity |]. vm_compute. repeat constructor. Qed.

Lemma new_row_key ws vals : row_key (new_row ws vals) = strip ws.
Proof. reflexivity. Qed.

Lemma dict_keys_nodup {V} (t : gmap str V) : NoDup (dict_keys t).
Proof. apply NoDup_fst_map_to_list. Qed.

Lemma dict_keys_elem {V} (t : gmap str V) k :
  k ∈ dict_keys t <-> is_Some (t !! k).
Proof.
  unfold dict_keys. rewrite list_elem_of_fmap. split.
  - intros [[k' v] [-> Hin]]. apply elem_of_map_to_list in Hin. by eexists.
  - intros [v Hv]. exists (k, v). split; [done |].
    by apply elem_of_map_to_list.
Qed.

(** The items of a table in the order of [keys], when [keys] lists the
    keys of the table once each. *)
Lemma table_rows_perm (t : gmap str row) (keys : list str) :
  keys ≡ₚ dict_keys t ->
  exists rows,
    omap (fun ws => t !! ws) keys = rows
    /\ Forall2 (fun k r => t !! k = Some r) keys rows
    /\ zip keys rows ≡ₚ map_to_list t.
Proof.
  intros Hperm.
  assert (Hdom : forall k, k ∈ keys -> is_Some (t !! k)).
  { intros k Hk. apply dict_keys_elem. by rewrite <- Hperm. }
  assert (Hrows : forall ks : list str, (forall k, k ∈ ks -> is_Some (t !! k)) ->
            exists rows, omap (fun ws => t !! ws) ks = rows
              /\ Forall2 (fun k r => t !! k = Some r) ks rows).
  { induction ks as [| k ks IH]; intros Hks.
    - exists []. split; [done | constructor].
    - destruct (Hks k ltac:(left)) as [r Hr].
      destruct IH as (rows & Hom & Hf2).
      { intros k' Hk'. apply Hks. by right. }
      exists (r :: rows). split; [| by constructor].
      csimpl. rewrite Hr. by rewrite Hom. }
  destruct (Hrows keys Hdom) as (rows & Hom & Hf2).
  exists rows. split; [done |]. split; [done |].
  apply NoDup_Permutation.
  - assert (Hk : NoDup keys) by (rewrite Hperm; apply dict_keys_nodup).
    clear Hom Hperm Hdom Hrows. induction Hf2 as [| k r ks rs Hkr Hf2 IH].
    + constructor.
    + apply NoDup_cons in Hk as [Hnotin Hk]. simpl. constructor; [| by apply IH].
      intros Hin. apply Hnotin.
      apply (elem_of_zip_l k r ks rs Hin).
  - apply NoDup_map_to_list.
  - intros [k r]. rewrite elem_of_map_to_list. split.
    + intros Hin. clear Hom Hperm Hdom Hrows.
      induction Hf2 as [| k0 r0 ks rs Hkr Hf2 IH]; [by apply elem_of_nil in Hin |].
      simpl in Hin. apply elem_of_cons in Hin as [[= -> ->] | Hin]; [done |].
      by apply IH.
    + intros Hkr.
      assert (Hk : k ∈ keys).
      { rewrite Hperm. apply dict_keys_elem. by eexists. }
      clear Hom Hperm Hdom Hrows.
      induction Hf2 as [| k0 r0 ks rs Hkr0 Hf2 IH]; [by apply elem_of_nil in Hk |].
      simpl. apply elem_of_cons in Hk as [-> | Hk].
      * rewrite Hkr in Hkr0. injection Hkr0 as <-. left.
      * right. by apply IH.
Qed.

Lemma write_weekly_inv t out :
  _write_weekly t = (out, Ok ()) ->
  exists rows,
    Forall2 (fun k r => t !! k = Some r) (sorted (dict_keys t)) rows
    /\ zip (sorted (dict_keys t)) rows ≡ₚ map_to_list t
    /\ Forall writable rows
    /\ out = OUTPUT_HEADERS :: map row_cells rows.
Proof.
  unfold _write_weekly. cbv zeta. intros H.
  destruct (table_rows_perm t (sorted (dict_keys t)) (sorted_perm _))
    as (rows & Hom & Hf2 & Hzip).
  rewrite Hom in H. apply write_rows_inv in H as [Hw ->].
  exists rows. done.
Qed.

Lemma write_weekly_ok t :
  map_Forall (fun _ r => writable r) t ->
  exists rows,
    Forall2 (fun k r => t !! k = Some r) (sorted (dict_keys t)) rows
    /\ _write_weekly t = (OUTPUT_HEADERS :: map row_cells rows, Ok ()).
Proof.
  intros Hall. unfold _write_weekly. cbv zeta.
  destruct (table_rows_perm t (sorted (dict_keys t)) (sorted_perm _))
    as (rows & Hom & Hf2 & Hzip).
  exists rows. split; [done |]. rewrite Hom.
  rewrite write_rows_ok; [done |].
  clear Hom Hzip. induction Hf2 as [| k r ks rs Hkr _ IH]; constructor.
  - by apply (Hall k r).
  - exact IH.
Qed.

Lemma add_existing_keyed acc r : keyed acc -> keyed (add_existing acc r).
Proof.
  intros Hacc. unfold add_existing. cbv zeta.
  destruct (row_key r) as [| c s] eqn:Hk; [done |].
  apply map_Forall_insert_2; [| done]. by rewrite Hk.
Qed.

Lemma load_keyed path ex : _load_existing_weekly path = Ok ex -> keyed ex.
Proof.
  unfold _load_existing_weekly. destruct path as [f |].
  - destruct (_read_csv f) as [[rows names] |]; [| done]. simpl.
    intros [= <-].
    assert (H : forall acc, keyed acc -> keyed (fold_left add_existing rows acc)).
    { induction rows as [| r rows IH]; intros acc Hacc; [done |].
      simpl. apply IH. by apply add_existing_keyed. }
    apply H. apply map_Forall_empty.
  - intros [= <-]. apply map_Forall_empty.
Qed.

(** Rows that stand under distinct keys of their own are loaded as they
    are listed. *)
Lemma load_rows keys rows : forall acc,
  Forall2 (fun k r => row_key r = k /\ k <> []) keys rows ->
  NoDup keys ->
  fold_left add_existing rows acc = list_to_map (zip keys rows) ∪ acc.
Proof.
  intros acc H. revert acc.
  induction H as [| k r ks rs [Hk Hne] Hf2 IH]; intros acc Hnd.
  - simpl. by rewrite (left_id_L ∅ (∪)).
  - apply NoDup_cons in Hnd as [Hnotin Hnd]. simpl.
    assert (Hadd : add_existing acc r = <[k := r]> acc).
    { unfold add_existing. cbv zeta. rewrite Hk. by destruct k. }
    rewrite Hadd, IH by done.
    rewrite <- insert_union_l. symmetry. apply insert_union_r.
    apply not_elem_of_list_to_map_1. intros Hin. apply Hnotin.
    apply list_elem_of_fmap in Hin as [[k' r'] [-> Hin]].
    by apply elem_of_zip_l in Hin.
Qed.

Lemma read_csv_written rows :
  _read_csv (OUTPUT_HEADERS :: map row_cells rows)
  = Ok (map reread rows, OUTPUT_HEADERS).
Proof.
  unfold _read_csv, DictReader.
  assert (Hkeep : filter (fun rec : list str => rec <> []) (map row_cells rows)
                  = map row_cells rows).
  { induction rows as [| r rows IH]; [done |]. simpl.
    rewrite filter_cons_True by done. by rewrite IH. }
  rewrite Hkeep, map_map. reflexivity.
Qed.

(** What [_load_existing_weekly] makes of the file that [_write_weekly]
    wrote: every row under its key, as [DictReader] reads it. *)
Lemma reload t out :
  keyed t -> _write_weekly t = (out, Ok ()) ->
  _load_existing_weekly (Some out) = Ok (reread <$> t).
Proof.
  intros Hkeyed Hwrite.
  destruct (write_weekly_inv t out Hwrite) as (rows & Hf2 & Hzip & Hw & ->).
  unfold _load_existing_weekly. rewrite read_csv_written.
  cbn [mbind result_bind mret result_ret]. f_equal.
  assert (Hnd : NoDup (sorted (dict_keys t))).
  { rewrite sorted_perm. apply dict_keys_nodup. }
  rewrite (load_rows (sorted (dict_keys t)) (map reread rows) ∅).
  - rewrite (right_id_L ∅ (∪)).
    assert (Hz : zip (sorted (dict_keys t)) (map reread rows)
                 = prod_map id reread <$> zip (sorted (dict_keys t)) rows).
    { clear. generalize (sorted (dict_keys t)). intros ks. revert ks.
      induction rows as [| r rows IH]; intros [| k ks]; simpl; try done.
      by rewrite IH. }
    rewrite Hz, list_to_map_fmap. f_equal.
    etrans; [| apply list_to_map_to_list].
    apply list_to_map_proper; [| exact Hzip].
    assert (Hfst : (zip (sorted (dict_keys t)) rows).*1 = sorted (dict_keys t)).
    { apply fst_zip. apply Forall2_length in Hf2. lia. }
    by rewrite Hfst.
  - clear Hzip Hw Hwrite Hnd.
    induction Hf2 as [| k r ks rs Hkr _ IH]; simpl; constructor; [| exact IH].
    rewrite reread_key. by apply (Hkeyed k r).
  - exact Hnd.
Qed.

End Store.

(** ** A run of [main] *)

Section Run.
Import Diet.

Lemma digit_mod_not_space n : isspace (digit (n mod 10)) = false.
Proof. apply digit_not_space, N.mod_upper_bound. discriminate. Qed.

(** The ISO text of a date holds no white space and is not empty. *)
Lemma strftime_iso_clean d :
  strip (strftime d (u "%Y-%m-%d")) = strftime d (u "%Y-%m-%d")
  /\ strftime d (u "%Y-%m-%d") <> [].
Proof.
  unfold strftime.
  change (compile (u "%Y-%m-%d")) with (Some [DY; Lit 45%N; Dm; Lit 45%N; Dd]).
  cbn [flat_map render app dec4 dec2]. split; [| done].
  match goal with
  | |- strip ?b = _ => pose proof (strip_body [] b []) as H
  end.
  cbn [app] in H.
  apply H; [constructor | constructor |].
  repeat (constructor; [first [apply digit_mod_not_space | reflexivity] |]).
  constructor.
Qed.

Lemma monday_key_clean s ws :
  _monday_week_start s = Ok ws -> strip ws = ws /\ ws <> [].
Proof.
  unfold _monday_week_start.
  destruct (strptime s (u "%Y-%m-%d")) as [dt |]; [| done]. simpl.
  destruct (minus_days dt (weekday dt)) as [monday |]; [| done]. simpl.
  intros [= <-]. apply strftime_iso_clean.
Qed.

Lemma aggregate_inv daily weekly :
  _aggregate_weekly daily = Ok weekly ->
  NoDup (ODict.keys weekly)
  /\ forall k, k ∈ ODict.keys weekly -> strip k = k /\ k <> [].
Proof.
  unfold _aggregate_weekly.
  destruct (fill_buckets [] daily) as [buckets |] eqn:Hfill; [| done].
  simpl. intros [= <-]. rewrite odict_keys_map. split.
  - apply (fill_buckets_nodup daily [] buckets Hfill). constructor.
  - intros k Hk.
    assert (Hget : ODict.get k buckets <> None)
      by (intros Hn; by apply odict_get_keys in Hn).
    rewrite (fill_buckets_get daily [] buckets k Hfill) in Hget.
    destruct (in_week k daily) as [| d days] eqn:Hweek; [done |].
    assert (Hd : d ∈ in_week k daily) by (rewrite Hweek; left).
    apply list_elem_of_filter in Hd as [Hd _].
    by apply monday_key_clean in Hd.
Qed.

Lemma odict_get_elem {V} (d : ODict.odict V) k v :
  NoDup (ODict.keys d) -> (k, v) ∈ d -> ODict.get k d = Some v.
Proof.
  induction d as [| [k0 v0] d IH]; intros Hnd Hin.
  - by apply elem_of_nil in Hin.
  - simpl in Hnd. apply NoDup_cons in Hnd as [Hnotin Hnd]. simpl.
    apply elem_of_cons in Hin as [[= -> ->] | Hin].
    + by rewrite bool_decide_eq_true_2.
    + rewrite bool_decide_eq_false_2; [by apply IH |].
      intros ->. apply Hnotin. apply list_elem_of_fmap. by exists (k, v).
Qed.

Lemma odict_get_some {V} (d : ODict.odict V) k v :
  ODict.get k d = Some v -> k ∈ ODict.keys d.
Proof.
  intros H. destruct (decide (k ∈ ODict.keys d)) as [| Hn]; [done |].
  apply odict_get_keys in Hn. congruence.
Qed.

(** The parts of a run that ends well. *)
Lemma main_inv fs fs' rep :
  main fs = (fs', Ok rep) ->
  exists input rows headers daily col_map weekly ex out,
    input_file fs = Some input
    /\ _read_csv input = Ok (rows, headers)
    /\ _extract_daily_rows rows headers = Ok (daily, col_map)
    /\ _aggregate_weekly daily = Ok weekly
    /\ _load_existing_weekly (output_file fs) = Ok ex
    /\ _write_weekly (existing (merge_weekly weekly ex)) = (out, Ok ())
    /\ fs' = mkfiles (input_file fs) (Some out)
    /\ added_weeks rep = added (merge_weekly weekly ex)
    /\ updated_weeks rep = updated (merge_weekly weekly ex).
Proof.
  unfold main. destruct (input_file fs) as [input |] eqn:Hin; [| done].
  destruct (_read_csv input) as [[rows headers] |] eqn:Hread; [| done].
  cbn [mbind result_bind].
  destruct (_extract_daily_rows rows headers) as [[daily col_map] |] eqn:Hex;
    [| done].
  cbn [mbind result_bind].
  destruct (_aggregate_weekly daily) as [weekly |] eqn:Hagg; [| done].
  cbn [mbind result_bind].
  destruct (_load_existing_weekly (output_file fs)) as [ex |] eqn:Hload;
    [| done].
  cbn [mbind result_bind mret result_ret].
  destruct (_write_weekly (existing (merge_weekly weekly ex)))
    as [out res] eqn:Hwrite.
  destruct res as [[] |]; [| done].
  cbn [mbind result_bind mret result_ret]. intros [= <- <-].
  exists input, rows, headers, daily, col_map, weekly, ex, out.
  repeat split; done.
Qed.

Lemma main_run fs input rows headers daily col_map weekly ex out :
  input_file fs = Some input ->
  _read_csv input = Ok (rows, headers) ->
  _extract_daily_rows rows headers = Ok (daily, col_map) ->
  _aggregate_weekly daily = Ok weekly ->
  _load_existing_weekly (output_file fs) = Ok ex ->
  _write_weekly (existing (merge_weekly weekly ex)) = (out, Ok ()) ->
  exists rep,
    main fs = (mkfiles (input_file fs) (Some out), Ok rep)
    /\ added_weeks rep = added (merge_weekly weekly ex)
    /\ updated_weeks rep = updated (merge_weekly weekly ex).
Proof.
  intros Hin Hread Hex Hagg Hload Hwrite. unfold main.
  rewrite Hin, Hread. cbn [mbind result_bind]. rewrite Hex.
  cbn [mbind result_bind]. rewrite Hagg. cbn [mbind result_bind].
  rewrite Hload. cbn [mbind result_bind mret result_ret]. rewrite Hwrite.
  cbn [mbind result_bind mret result_ret].
  eexists. split; [reflexivity |]. done.
Qed.

(** The table a run leaves: the new row for a bucket of the run, the row
    that was there for any other key. *)
Lemma merged_table weekly ex k :
  NoDup (ODict.keys weekly) ->
  existing (merge_weekly weekly ex) !! k
  = match ODict.get k weekly with
    | Some v => Some (new_row k v)
    | None => ex !! k
    end.
Proof.
  intros Hnd. unfold merge_weekly.
  destruct (merge_loop weekly (mkmerge ex 0 0) Hnd) as (H & _ & _).
  apply H.
Qed.

Lemma merged_counters weekly ex :
  NoDup (ODict.keys weekly) ->
  added (merge_weekly weekly ex) = Z.of_nat (length (new_buckets ex weekly))
  /\ updated (merge_weekly weekly ex)
     = Z.of_nat (length (changed_buckets ex weekly)).
Proof.
  intros Hnd. unfold merge_weekly.
  destruct (merge_loop weekly (mkmerge ex 0 0) Hnd) as (_ & Ha & Hu).
  simpl in Ha, Hu. split; lia.
Qed.

Lemma merged_keyed weekly ex :
  NoDup (ODict.keys weekly) ->
  (forall k, k ∈ ODict.keys weekly -> strip k = k /\ k <> []) ->
  keyed ex -> keyed (existing (merge_weekly weekly ex)).
Proof.
  intros Hnd Hclean Hex k r Hk. rewrite merged_table in Hk by done.
  destruct (ODict.get k weekly) as [v |] eqn:Hg.
  - injection Hk as <-. rewrite new_row_key.
    apply Hclean. by eapply odict_get_some.
  - by apply Hex.
Qed.

End Run.

Section SecondRun.
Import Diet.

Lemma filter_none {A} (P : A -> Prop) `{forall x, Decision (P x)} (l : list A) :
  (forall x, x ∈ l -> ~ P x) -> filter P l = [].
Proof.
  induction l as [| x l IH]; intros Hl; [done |].
  rewrite filter_cons_False by (apply Hl; left).
  apply IH. intros y Hy. apply Hl. by right.
Qed.

Lemma reread_table_lookup (t : gmap str row) k :
  (reread <$> t) !! k = reread <$> (t !! k).
Proof. apply lookup_fmap. Qed.

Lemma reread_table_keys (t : gmap str row) :
  sorted (dict_keys (reread <$> t)) = sorted (dict_keys t).
Proof.
  apply sorted_unique. apply NoDup_Permutation; try apply dict_keys_nodup.
  intros k. rewrite !dict_keys_elem, reread_table_lookup.
  apply fmap_is_Some.
Qed.

(** Writing the table as it was read back gives the file it was read
    from. *)
Lemma write_reread t out :
  _write_weekly t = (out, Ok ()) ->
  _write_weekly (reread <$> t) = (out, Ok ()).
Proof.
  intros Hwrite.
  destruct (write_weekly_inv t out Hwrite) as (rows & Hf2 & _ & _ & ->).
  destruct (write_weekly_ok (reread <$> t)) as (rows2 & Hf2' & ->).
  { intros k r Hk. rewrite reread_table_lookup in Hk.
    destruct (t !! k); [| done]. injection Hk as <-. apply reread_writable. }
  rewrite reread_table_keys in Hf2'.
  assert (Hmap : map row_cells rows2 = map row_cells rows);
    [| by rewrite Hmap].
  clear Hwrite. revert rows2 Hf2'.
  induction Hf2 as [| k r ks rs Hkr _ IH]; intros rows2 Hf2'.
  - by inversion Hf2'.
  - inversion Hf2' as [| ? r2 ? rs2 Hkr2 Hrest]; subst.
    rewrite reread_table_lookup, Hkr in Hkr2. injection Hkr2 as <-.
    cbn [map]. rewrite (IH rs2 Hrest). reflexivity.
Qed.

(** A run against the table that holds the new row of every bucket adds
    nothing and updates nothing, and leaves the table as it is. *)
Lemma merge_again (weekly : ODict.odict WeeklyAvg) (ex : gmap str row) :
  NoDup (ODict.keys weekly) ->
  (forall k v, ODict.get k weekly = Some v -> ex !! k = Some (new_row k v)) ->
  new_buckets ex weekly = []
  /\ changed_buckets ex weekly = []
  /\ existing (merge_weekly weekly ex) = ex.
Proof.
  intros Hnd Hhas.
  assert (Hitem : forall item, item ∈ weekly ->
            ex !! item.1 = Some (new_row item.1 item.2)).
  { intros [k v] Hin. apply Hhas. by apply odict_get_elem. }
  split; [| split].
  - unfold new_buckets. apply filter_none.
    intros item Hin. by rewrite (Hitem item Hin).
  - unfold changed_buckets. apply filter_none.
    intros item Hin [_ Hne]. by rewrite (Hitem item Hin) in Hne.
  - apply map_eq. intros k. rewrite merged_table by done.
    destruct (ODict.get k weekly) as [v |] eqn:Hg; [| done].
    symmetry. by apply Hhas.
Qed.

End SecondRun.

(** C2.  When a run ends well, a second run on the same input file and on
    the output file that the first run wrote ends well too, reports no
    added and no updated week, and leaves the output file as it is. *)
Theorem merge_upsert_idempotent (fs fs' : Diet.files) (rep : Diet.report) :
  Diet.main fs = (fs', Ok rep) ->
  exists rep',
    Diet.main fs' = (fs', Ok rep')
    /\ Diet.added_weeks rep' = 0
    /\ Diet.updated_weeks rep' = 0.
Proof.
  intros Hrun.
  destruct (main_inv fs fs' rep Hrun)
    as (input & rows & headers & daily & col_map & weekly & ex & out
        & Hin & Hread & Hextract & Hagg & Hload & Hwrite & -> & _ & _).
  destruct (aggregate_inv daily weekly Hagg) as [Hnd Hclean].
  set (t1 := Diet.existing (Diet.merge_weekly weekly ex)) in *.
  assert (Hkeyed : Diet.keyed t1).
  { apply merged_keyed; [done | done |]. by eapply load_keyed. }
  pose proof (reload t1 out Hkeyed Hwrite) as Hload2.
  destruct (merge_again weekly (Diet.reread <$> t1) Hnd) as (Hnew & Hchg & Hsame).
  { intros k v Hg. rewrite reread_table_lookup. unfold t1.
    rewrite merged_table, Hg by done. simpl. by rewrite reread_new_row. }
  destruct (merged_counters weekly (Diet.reread <$> t1) Hnd) as [Ha Hu].
  destruct (main_run (Diet.mkfiles (Diet.input_file fs) (Some out))
              input rows headers daily col_map weekly (Diet.reread <$> t1) out)
    as (rep' & Hrun' & Hadd & Hupd); try done.
  { rewrite Hsame. by apply write_reread. }
  exists rep'. split; [exact Hrun' |].
  rewrite Hadd, Hupd, Ha, Hu, Hnew, Hchg. done.
Qed.

Lemma merge_upsert_idempotent_witness :
  exists fs' rep rep',
    Diet.main Diet.sample_files = (fs', Ok rep)
    /\ Diet.main fs' = (fs', Ok rep')
    /\ Diet.added_weeks rep' = 0
    /\ Diet.updated_weeks rep' = 0.
Proof.
  destruct (Diet.main Diet.sample_files) as [fs' [rep | e]] eqn:Hrun;
    [| vm_compute in Hrun; discriminate].
  destruct (merge_upsert_idempotent _ _ _ Hrun) as (rep' & H1 & H2 & H3).
  exists fs', rep, rep'.
  split; [reflexivity |]. split; [exact H1 |]. split; [exact H2 | exact H3].
Defined.

Example sample_run :
  exists fs',
    Diet.main Diet.sample_files
    = (fs', Ok (Diet.mkreport 4 3 2 2 1 1 3))
    /\ Diet.output_file fs'
       = Some (map (map u)
                 [["week_start"; "avg_weight"; "avg_food"; "avg_exercise"; "avg_net"];
                  ["2024-01-01"; "182.0"; "2100"; "250"; "1850"];
                  ["2025-12-15"; "180.5"; "1966"; "300"; "1632"];
                  ["2025-12-22"; "179.0"; "1800"; "100"; "1700"]]%string).
Proof. eexists. split; vm_compute; reflexivity. Qed.


(** ** Personal records *)

Section Maxima.
Import Workout.

Lemma Qc_leb_le x y : Qc_leb x y = true <-> (x <= y)%Qc.
Proof. unfold Qc_leb, Qcle. apply Qle_bool_iff. Qed.

Lemma Qc_ltb_lt x y : Qc_ltb x y = true <-> (x < y)%Qc.
Proof.
  unfold Qc_ltb. rewrite negb_true_iff.
  destruct (Qle_bool y x) eqn:H.
  - apply Qle_bool_iff in H. split; [done |]. intros Hlt.
    exfalso. by apply (Qcle_not_lt y x).
  - split; [| done]. intros _. apply Qcnot_le_lt. intros Hle.
    apply Qle_bool_iff in Hle. congruence.
Qed.

Lemma Qc_ltb_ge x y : Qc_ltb x y = false <-> (y <= x)%Qc.
Proof.
  unfold Qc_ltb. rewrite negb_false_iff. apply Qle_bool_iff.
Qed.

Lemma Qc_max_ge_l x y : (x <= Qc_max x y)%Qc.
Proof.
  unfold Qc_max. destruct (Qc_ltb x y) eqn:H.
  - apply Qclt_le_weak. by apply Qc_ltb_lt.
  - apply Qcle_refl.
Qed.

Lemma Qc_max_ge_r x y : (y <= Qc_max x y)%Qc.
Proof.
  unfold Qc_max. destruct (Qc_ltb x y) eqn:H.
  - apply Qcle_refl.
  - by apply Qc_ltb_ge.
Qed.

Lemma Qc_max_cases x y : Qc_max x y = x \/ Qc_max x y = y.
Proof. unfold Qc_max. destruct (Qc_ltb x y); auto. Qed.

Lemma fold_max_spec l : forall m0,
  (m0 <= fold_left Qc_max l m0)%Qc
  /\ (forall x, x ∈ l -> (x <= fold_left Qc_max l m0)%Qc)
  /\ (fold_left Qc_max l m0 = m0 \/ fold_left Qc_max l m0 ∈ l).
Proof.
  induction l as [| y l IH]; intros m0; simpl.
  - split; [apply Qcle_refl |]. split; [| by left].
    intros x Hx. by apply elem_of_nil in Hx.
  - destruct (IH (Qc_max m0 y)) as (H0 & Hall & Hin).
    split; [| split].
    + eapply Qcle_trans; [apply Qc_max_ge_l | exact H0].
    + intros x Hx. apply elem_of_cons in Hx as [-> | Hx]; [| by apply Hall].
      eapply Qcle_trans; [apply Qc_max_ge_r | exact H0].
    + destruct Hin as [Heq | Hin]; [| right; by right].
      rewrite Heq. destruct (Qc_max_cases m0 y) as [-> | ->];
        [by left | right; left].
Qed.

(** [Series.max] is an upper bound of the values and one of them. *)
Lemma series_max_spec l m :
  series_max l = Some m ->
  (forall x, x ∈ l -> (x <= m)%Qc) /\ m ∈ l.
Proof.
  destruct l as [| x0 l]; [done |]. simpl. intros [= <-].
  destruct (fold_max_spec l x0) as (H0 & Hall & Hin). split.
  - intros x Hx. apply elem_of_cons in Hx as [-> | Hx]; [done | by apply Hall].
  - destruct Hin as [-> | Hin]; [left | by right].
Qed.

Lemma fold_zmax_spec l : forall m0,
  m0 <= fold_left Z.max l m0
  /\ (forall x, x ∈ l -> x <= fold_left Z.max l m0)
  /\ (fold_left Z.max l m0 = m0 \/ fold_left Z.max l m0 ∈ l).
Proof.
  induction l as [| y l IH]; intros m0; simpl.
  - split; [lia |]. split; [| by left].
    intros x Hx. by apply elem_of_nil in Hx.
  - destruct (IH (Z.max m0 y)) as (H0 & Hall & Hin).
    split; [lia |]. split.
    + intros x Hx. apply elem_of_cons in Hx as [-> | Hx]; [lia | by apply Hall].
    + destruct Hin as [Heq | Hin]; [| right; by right].
      rewrite Heq. destruct (Z.max_spec m0 y) as [[_ ->] | [_ ->]];
        [right; left | by left].
Qed.

Lemma dates_max_spec l m :
  dates_max l = Some m -> (forall x, x ∈ l -> x <= m) /\ m ∈ l.
Proof.
  destruct l as [| x0 l]; [done |]. simpl. intros [= <-].
  destruct (fold_zmax_spec l x0) as (H0 & Hall & Hin). split.
  - intros x Hx. apply elem_of_cons in Hx as [-> | Hx]; [done | by apply Hall].
  - destruct Hin as [-> | Hin]; [left | by right].
Qed.

(** The scan of [idxmax]: [pre] is what was seen, [best] its greatest
    value and [best_i] the first place where it stands. *)
Lemma argmax_from_spec l : forall pre best_i best,
  pre !! best_i = Some best ->
  (forall x, x ∈ pre -> (x <= best)%Qc) ->
  (forall j x, (j < best_i)%nat -> pre !! j = Some x -> (x < best)%Qc) ->
  exists m,
    (pre ++ l) !! argmax_from best_i best (length pre) l = Some m
    /\ (forall x, x ∈ pre ++ l -> (x <= m)%Qc)
    /\ (forall j x, (j < argmax_from best_i best (length pre) l)%nat ->
                    (pre ++ l) !! j = Some x -> (x < m)%Qc).
Proof.
  induction l as [| y l IH]; intros pre best_i best Hbest Hmax Hfirst.
  - simpl. rewrite app_nil_r. by exists best.
  - simpl. destruct (Qc_ltb best y) eqn:Hlt.
    + apply Qc_ltb_lt in Hlt.
      destruct (IH (pre ++ [y]) (length pre) y) as (m & Hm & Hall & Hf).
      * by rewrite list_lookup_middle.
      * intros x Hx. apply elem_of_app in Hx as [Hx | Hx].
        -- apply Qclt_le_weak. eapply Qcle_lt_trans; [by apply Hmax | done].
        -- apply list_elem_of_singleton in Hx as ->. apply Qcle_refl.
      * intros j x Hj Hjx. rewrite lookup_app_l in Hjx by done.
        eapply Qcle_lt_trans; [| exact Hlt]. apply Hmax.
        by eapply list_elem_of_lookup_2.
      * rewrite length_app in Hm, Hf. simpl in Hm, Hf.
        rewrite Nat.add_1_r in Hm, Hf. rewrite <- app_assoc in Hm, Hall, Hf.
        by exists m.
    + apply Qc_ltb_ge in Hlt.
      destruct (IH (pre ++ [y]) best_i best) as (m & Hm & Hall & Hf).
      * rewrite lookup_app_l; [done |]. by eapply lookup_lt_Some.
      * intros x Hx. apply elem_of_app in Hx as [Hx | Hx]; [by apply Hmax |].
        by apply list_elem_of_singleton in Hx as ->.
      * intros j x Hj Hjx. apply (Hfirst j x Hj).
        rewrite lookup_app_l in Hjx; [done |].
        apply lookup_lt_Some in Hbest. lia.
      * rewrite length_app in Hm, Hf. simpl in Hm, Hf.
        rewrite Nat.add_1_r in Hm, Hf. rewrite <- app_assoc in Hm, Hall, Hf.
        by exists m.
Qed.

(** [idxmax] is the first place where the greatest value stands. *)
Lemma idxmax_spec l i :
  idxmax l = Some i ->
  exists m,
    l !! i = Some m
    /\ (forall x, x ∈ l -> (x <= m)%Qc)
    /\ (forall j x, (j < i)%nat -> l !! j = Some x -> (x < m)%Qc).
Proof.
  destruct l as [| x0 l]; [done |]. simpl. intros [= <-].
  destruct (argmax_from_spec l [x0] 0%nat x0) as (m & Hm & Hall & Hf).
  - done.
  - intros x Hx. apply list_elem_of_singleton in Hx as ->. apply Qcle_refl.
  - intros j x Hj. lia.
  - by exists m.
Qed.

End Maxima.

Section PrStats.
Import Workout.

#[global] Instance date_le_total : Total date_le.
Proof. intros a b. unfold date_le. lia. Qed.

#[global] Instance date_le_trans : Transitive date_le.
Proof. intros a b c. unfold date_le. lia. Qed.

#[global] Instance gap_ge_total : Total gap_ge.
Proof. intros a b. unfold gap_ge. lia. Qed.

#[global] Instance gap_ge_trans : Transitive gap_ge.
Proof. intros a b c. unfold gap_ge. lia. Qed.

Lemma strongly_sorted_lookup {A} (R : relation A) (l : list A) i j x y :
  StronglySorted R l -> (i < j)%nat ->
  l !! i = Some x -> l !! j = Some y -> R x y.
Proof.
  intros Hs. revert i j. induction Hs as [| a l Hl IH Ha]; intros i j Hij Hi Hj.
  - done.
  - destruct j as [| j]; [lia |]. destruct i as [| i]; simpl in *.
    + injection Hi as ->. rewrite Forall_forall in Ha. apply Ha.
      by eapply list_elem_of_lookup_2.
    + apply (IH i j); [lia | done | done].
Qed.

Lemma sort_by_date_sorted g : StronglySorted date_le (sort_by_date g).
Proof. apply StronglySorted_merge_sort; apply _. Qed.

Lemma sort_by_date_perm g : sort_by_date g ≡ₚ g.
Proof. apply merge_sort_Permutation. Qed.

(** The statistics of one exercise with enough sessions. *)
Lemma group_stat_spec min_sessions ex g :
  g <> [] -> min_sessions <= Z.of_nat (length g) ->
  exists st,
    group_stat min_sessions ex g = Some st
    /\ exercise st = ex
    /\ sessions st = length g
    /\ (forall r, r ∈ g -> (d_est r <= pr_1rm st)%Qc)
    /\ (exists r, r ∈ g /\ d_est r = pr_1rm st /\ d_date r = pr_date st)
    /\ (forall r, r ∈ g -> d_est r = pr_1rm st -> pr_date st <= d_date r)
    /\ (forall r, r ∈ g -> d_date r <= last_date st)
    /\ (exists r, r ∈ g /\ d_date r = last_date st)
    /\ days_since_pr st = days (last_date st - pr_date st).
Proof.
  intros Hne Hmin. unfold group_stat. cbv zeta.
  pose proof (sort_by_date_perm g) as Hperm.
  pose proof (sort_by_date_sorted g) as Hsorted.
  remember (sort_by_date g) as g' eqn:Hg'. clear Hg'.
  assert (Hlen : length g' = length g) by (by rewrite Hperm).
  rewrite Hlen. destruct (Z.ltb_spec (Z.of_nat (length g)) min_sessions); [lia |].
  assert (Hne' : g' <> []).
  { intros ->. destruct g; [done | simpl in Hlen; lia]. }
  destruct (series_max (map d_est g')) as [m |] eqn:Hmax;
    [| destruct g'; done].
  destruct (idxmax (map d_est g')) as [i |] eqn:Hidx;
    [| destruct g'; done].
  destruct (dates_max (map d_date g')) as [last |] eqn:Hlast;
    [| destruct g'; done].
  destruct (series_max_spec _ _ Hmax) as [Hub Hin].
  destruct (idxmax_spec _ _ Hidx) as (m' & Hi & Hub' & Hfirst).
  assert (Hmm : m' = m).
  { apply Qcle_antisym.
    - apply Hub. by eapply list_elem_of_lookup_2.
    - by apply Hub'. }
  subst m'.
  rewrite list_lookup_fmap in Hi.
  destruct (g' !! i) as [pr_row |] eqn:Hrow; [| done].
  simpl in Hi. injection Hi as Hest.
  destruct (dates_max_spec _ _ Hlast) as [Hdub Hdin].
  simpl. rewrite ?Hrow. simpl. eexists. split; [reflexivity |]. simpl.
  split; [done |]. split; [done |]. split.
  { intros r Hr. apply Hub. apply list_elem_of_fmap. exists r.
    split; [done |]. by rewrite Hperm. }
  split.
  { exists pr_row. split; [| done]. rewrite <- Hperm.
    by eapply list_elem_of_lookup_2. }
  split.
  { intros r Hr Hr_est. rewrite <- Hperm in Hr.
    apply list_elem_of_lookup_1 in Hr as [j Hj].
    destruct (Nat.lt_trichotomy j i) as [Hlt | [-> | Hgt]].
    - exfalso. apply (Qclt_not_eq (d_est r) m); [| exact Hr_est].
      apply (Hfirst j (d_est r) Hlt). by rewrite list_lookup_fmap, Hj.
    - rewrite Hrow in Hj. by injection Hj as ->.
    - apply (strongly_sorted_lookup date_le g' i j pr_row r Hsorted Hgt Hrow Hj). }
  split.
  { intros r Hr. apply Hdub. apply list_elem_of_fmap. exists r.
    split; [done |]. by rewrite Hperm. }
  split; [| done].
  apply list_elem_of_fmap in Hdin as [r [Hr Hin']].
  exists r. split; [by rewrite <- Hperm | done].
Qed.

Lemma group_stat_few min_sessions ex g :
  Z.of_nat (length g) < min_sessions -> group_stat min_sessions ex g = None.
Proof.
  intros H. unfold group_stat. cbv zeta.
  assert (Hlen : length (sort_by_date g) = length g)
    by (by rewrite sort_by_date_perm).
  rewrite Hlen. by destruct (Z.ltb_spec (Z.of_nat (length g)) min_sessions); [| lia].
Qed.

Lemma group_stat_name min_sessions ex g st :
  group_stat min_sessions ex g = Some st -> exercise st = ex.
Proof.
  unfold group_stat. cbv zeta. destruct (_ <? _); [done |].
  destruct (series_max _); [| done]. simpl.
  destruct (idxmax _); [| done]. simpl.
  destruct (_ !! _); [| done]. simpl.
  destruct (dates_max _); [| done]. simpl. by intros [= <-].
Qed.

(** The statistics computed are those of the exercises of the frame. *)
Lemma pr_stats_elem daily min_sessions st :
  st ∈ pr_stats daily min_sessions
  <-> exercise st ∈ map d_exercise daily
      /\ group_stat min_sessions (exercise st)
           (filter (fun r => d_exercise r = exercise st) daily) = Some st.
Proof.
  unfold pr_stats, groupby_exercise. rewrite list_elem_of_omap. split.
  - intros [[ex g] [Hin Hst]].
    apply list_elem_of_fmap in Hin as [ex' [[= -> ->] Hin]].
    pose proof (group_stat_name _ _ _ _ Hst) as Hname. subst ex'.
    split; [| done].
    unfold sorted in Hin. rewrite merge_sort_Permutation in Hin.
    by rewrite elem_of_remove_dups in Hin.
  - intros [Hin Hst]. eexists (exercise st, _). split; [| exact Hst].
    apply list_elem_of_fmap. exists (exercise st). split; [done |].
    unfold sorted. rewrite merge_sort_Permutation.
    by rewrite elem_of_remove_dups.
Qed.

(** The running record at a session is the greatest of the estimates up
    to that session. *)
Lemma cummax_from_lookup l : forall m i,
  (i < length l)%nat ->
  cummax_from m l !! i = Some (fold_left Qc_max (take (S i) l) m).
Proof.
  induction l as [| x l IH]; intros m i Hi; simpl in Hi; [lia |].
  destruct i as [| i]; simpl.
  - done.
  - apply IH. lia.
Qed.

Lemma cummax_lookup l i :
  (i < length l)%nat -> cummax l !! i = series_max (take (S i) l).
Proof.
  destruct l as [| x l]; simpl; [lia |]. intros Hi.
  destruct i as [| i]; simpl; [done |].
  apply cummax_from_lookup. lia.
Qed.

Lemma cummax_length l : length (cummax l) = length l.
Proof.
  destruct l as [| x l]; [done |]. simpl. f_equal.
  generalize x. induction l as [| y l IH]; intros m; simpl; [done |].
  by rewrite IH.
Qed.

Lemma cummax_monotone l i j x y :
  (i <= j)%nat -> cummax l !! i = Some x -> cummax l !! j = Some y ->
  (x <= y)%Qc.
Proof.
  intros Hij Hi Hj.
  assert (Hjl : (j < length l)%nat).
  { apply lookup_lt_Some in Hj. by rewrite cummax_length in Hj. }
  rewrite cummax_lookup in Hi, Hj by lia.
  destruct (series_max_spec _ _ Hi) as [_ Hin].
  destruct (series_max_spec _ _ Hj) as [Hub _].
  apply Hub. apply list_elem_of_lookup_1 in Hin as [k Hk].
  apply list_elem_of_lookup_2 with k.
  apply lookup_take_Some in Hk as [Hk Hlt].
  apply lookup_take_Some. split; [done | lia].
Qed.

Lemma cummax_dominates l i v m :
  l !! i = Some v -> cummax l !! i = Some m -> (v <= m)%Qc.
Proof.
  intros Hv Hm. pose proof (lookup_lt_Some _ _ _ Hv) as Hi.
  rewrite cummax_lookup in Hm by done.
  destruct (series_max_spec _ _ Hm) as [Hub _]. apply Hub.
  apply list_elem_of_lookup_2 with i. apply lookup_take_Some.
  split; [done | lia].
Qed.

End PrStats.

Section PrExample.
Import Workout.

Lemma filter_exercise_nonempty daily ex :
  ex ∈ map d_exercise daily ->
  filter (fun r => d_exercise r = ex) daily <> [].
Proof.
  intros Hin Hnil. apply list_elem_of_fmap in Hin as [r [-> Hr]].
  assert (Hr' : r ∈ filter (fun r' => d_exercise r' = d_exercise r) daily)
    by (by apply list_elem_of_filter).
  rewrite Hnil in Hr'. by apply elem_of_nil in Hr'.
Qed.

Lemma not_Qcle_closed x y : Qc_leb x y = false -> ~ (x <= y)%Qc.
Proof. intros H Hle. apply Qc_leb_le in Hle. congruence. Qed.

(** Three sessions with the estimates 200, 220, 210 at dates in
    ascending order. *)
Lemma three_sessions min_sessions name d1 d2 d3 :
  d1 <= d2 -> d2 <= d3 -> min_sessions <= 3 ->
  exists st,
    group_stat min_sessions name
      [mkDailyBest d1 name (Qc_of_Z 200); mkDailyBest d2 name (Qc_of_Z 220);
       mkDailyBest d3 name (Qc_of_Z 210)] = Some st
    /\ pr_1rm st = Qc_of_Z 220
    /\ pr_date st = d2
    /\ last_date st = d3
    /\ days_since_pr st = days (d3 - d2).
Proof.
  intros H12 H23 Hmin.
  destruct (group_stat_spec min_sessions name
              [mkDailyBest d1 name (Qc_of_Z 200);
               mkDailyBest d2 name (Qc_of_Z 220);
               mkDailyBest d3 name (Qc_of_Z 210)])
    as (st & Hst & _ & _ & Hub & (r & Hr & Hest & Hdate) & _ & Hdub
        & (rl & Hrl & Hlast) & Hdays); [done | simpl; lia |].
  exists st. split; [exact Hst |].
  pose proof (Hub _ ltac:(right; left)) as H220. simpl in H220.
  assert (Hr2 : r = mkDailyBest d2 name (Qc_of_Z 220)).
  { repeat (apply elem_of_cons in Hr as [-> | Hr]); try done.
    - exfalso. simpl in Hest. rewrite <- Hest in H220.
      by apply (not_Qcle_closed (Qc_of_Z 220) (Qc_of_Z 200)).
    - exfalso. simpl in Hest. rewrite <- Hest in H220.
      by apply (not_Qcle_closed (Qc_of_Z 220) (Qc_of_Z 210)).
    - by apply elem_of_nil in Hr. }
  subst r. simpl in Hest, Hdate.
  assert (Hl3 : last_date st = d3).
  { pose proof (Hdub _ ltac:(right; right; left)) as H3. simpl in H3.
    repeat (apply elem_of_cons in Hrl as [-> | Hrl]); simpl in Hlast;
      try lia. by apply elem_of_nil in Hrl. }
  split; [done |]. split; [done |]. split; [done |].
  by rewrite Hdays, Hl3, <- Hdate.
Qed.

End PrExample.

(** C9.  For an exercise of the frame: with fewer sessions than the
    minimum it has no statistics; otherwise its statistics hold the number
    of its sessions, the greatest estimate as the record, as the date of the
    record the earliest date at which that estimate was reached, the latest
    date as the last session and the whole days from the one to the other.
    The frame that is drawn is the statistics ranked by falling
    days-since-record and cut to the first [top_n]; with no statistics at
    all the function raises.  The running record of [plot_exercise_history]
    never falls and is never below the estimate of its session.  For the
    sessions (d1, 200), (d2, 220), (d3, 210) the record is 220, reached at
    d2, and the gap is the days from d2 to d3. *)
Theorem pr_ranking
    (daily : list Workout.DailyBest) (top_n min_sessions : Z) (ex : str) :
  0 <= top_n ->
  ex ∈ map Workout.d_exercise daily ->
  (Z.of_nat (length (filter (fun r => Workout.d_exercise r = ex) daily))
   < min_sessions ->
   forall st, st ∈ Workout.pr_stats daily min_sessions ->
              Workout.exercise st <> ex)
  /\ (min_sessions
      <= Z.of_nat (length (filter (fun r => Workout.d_exercise r = ex) daily)) ->
      exists st,
        st ∈ Workout.pr_stats daily min_sessions
        /\ Workout.exercise st = ex
        /\ Workout.sessions st
           = length (filter (fun r => Workout.d_exercise r = ex) daily)
        /\ (forall r, r ∈ daily -> Workout.d_exercise r = ex ->
                      (Workout.d_est r <= Workout.pr_1rm st)%Qc)
        /\ (exists r, r ∈ daily /\ Workout.d_exercise r = ex
                      /\ Workout.d_est r = Workout.pr_1rm st
                      /\ Workout.d_date r = Workout.pr_date st)
        /\ (forall r, r ∈ daily -> Workout.d_exercise r = ex ->
                      Workout.d_est r = Workout.pr_1rm st ->
                      Workout.pr_date st <= Workout.d_date r)
        /\ (forall r, r ∈ daily -> Workout.d_exercise r = ex ->
                      Workout.d_date r <= Workout.last_date st)
        /\ (exists r, r ∈ daily /\ Workout.d_exercise r = ex
                      /\ Workout.d_date r = Workout.last_date st)
        /\ Workout.days_since_pr st
           = Workout.days (Workout.last_date st - Workout.pr_date st))
  /\ match Workout.pr_stats daily min_sessions with
     | [] =>
         Workout.plot_days_since_pr daily top_n min_sessions
         = Raise (ValueError "Not enough data to compute PR gaps.")
     | _ =>
         exists ranked,
           ranked ≡ₚ Workout.pr_stats daily min_sessions
           /\ StronglySorted Workout.gap_ge ranked
           /\ Workout.plot_days_since_pr daily top_n min_sessions
              = Ok (take (Z.to_nat top_n) ranked)
     end
  /\ (forall l i j x y,
        (i <= j)%nat -> Workout.cummax l !! i = Some x ->
        Workout.cummax l !! j = Some y -> (x <= y)%Qc)
  /\ (forall l i v m,
        l !! i = Some v -> Workout.cummax l !! i = Some m -> (v <= m)%Qc)
  /\ (forall name d1 d2 d3,
        d1 <= d2 -> d2 <= d3 -> min_sessions <= 3 ->
        exists st,
          Workout.group_stat min_sessions name
            [Workout.mkDailyBest d1 name (Qc_of_Z 200);
             Workout.mkDailyBest d2 name (Qc_of_Z 220);
             Workout.mkDailyBest d3 name (Qc_of_Z 210)] = Some st
          /\ Workout.pr_1rm st = Qc_of_Z 220
          /\ Workout.pr_date st = d2
          /\ Workout.last_date st = d3
          /\ Workout.days_since_pr st = Workout.days (d3 - d2)).
Proof.
  intros Htop Hex.
  set (g := filter (fun r => Workout.d_exercise r = ex) daily).
  assert (Hg : forall r, r ∈ g <-> Workout.d_exercise r = ex /\ r ∈ daily)
    by (intros r; unfold g;
        apply (list_elem_of_filter (fun r => Workout.d_exercise r = ex))).
  split; [| split; [| split; [| split; [| split]]]].
  - intros Hfew st Hst Hname.
    apply (proj1 (pr_stats_elem daily min_sessions _)) in Hst as [_ Hst].
    rewrite Hname in Hst. fold g in Hst.
    rewrite group_stat_few in Hst by done. done.
  - intros Hmin.
    destruct (group_stat_spec min_sessions ex g)
      as (st & Hst & Hname & Hsess & Hub & (r & Hr & Hest & Hdate) & Hfirst
          & Hdub & (rl & Hrl & Hlast) & Hdays);
      [by apply filter_exercise_nonempty | done |].
    exists st. split.
    { apply (proj2 (pr_stats_elem daily min_sessions st)).
      rewrite Hname. by split. }
    split; [done |]. split; [done |]. split.
    { intros r' Hr' He. apply Hub, Hg. by split. }
    split.
    { apply Hg in Hr as [He Hr]. by exists r. }
    split.
    { intros r' Hr' He. apply Hfirst, Hg. by split. }
    split.
    { intros r' Hr' He. apply Hdub, Hg. by split. }
    split; [| done].
    apply Hg in Hrl as [He Hrl]. by exists rl.
  - unfold Workout.plot_days_since_pr.
    destruct (Workout.pr_stats daily min_sessions) as [| s stats] eqn:Hstats;
      [done |].
    exists (merge_sort Workout.gap_ge (s :: stats)).
    split; [apply merge_sort_Permutation |].
    split; [apply StronglySorted_merge_sort; apply _ |].
    unfold Workout.head. by destruct (Z.leb_spec 0 top_n); [| lia].
  - apply cummax_monotone.
  - apply cummax_dominates.
  - intros name d1 d2 d3. apply three_sessions.
Qed.

Lemma pr_ranking_witness :
  let day := Workout.NS_PER_DAY in
  let name := u "Squat" in
  let daily :=
    [Workout.mkDailyBest 0 name (Qc_of_Z 200);
     Workout.mkDailyBest (7 * day) name (Qc_of_Z 220);
     Workout.mkDailyBest (10 * day) name (Qc_of_Z 210);
     Workout.mkDailyBest (3 * day) (u "Row") (Qc_of_Z 100)] in
  exists st,
    st ∈ Workout.pr_stats daily 3
    /\ Workout.exercise st = name
    /\ Workout.sessions st = 3%nat
    /\ Workout.days_since_pr st
       = Workout.days (Workout.last_date st - Workout.pr_date st).
Proof.
  intros day name daily.
  destruct (pr_ranking daily 20 3 name) as (_ & Hstat & _).
  - lia.
  - vm_compute. left.
  - destruct Hstat as (st & H1 & H2 & H3 & _ & _ & _ & _ & _ & H4).
    + vm_compute. discriminate.
    + exists st. split; [exact H1 |]. split; [exact H2 |].
      split; [exact H3 | exact H4].
Defined.

Example days_since_pr_example :
  Workout.plot_days_since_pr
    [Workout.mkDailyBest 0 (u "Squat") (Qc_of_Z 200);
     Workout.mkDailyBest (7 * Workout.NS_PER_DAY) (u "Squat") (Qc_of_Z 220);
     Workout.mkDailyBest (10 * Workout.NS_PER_DAY) (u "Squat") (Qc_of_Z 210);
     Workout.mkDailyBest (3 * Workout.NS_PER_DAY) (u "Row") (Qc_of_Z 100)]
    20 3
  = Ok [Workout.mkPrStat (u "Squat") 3 (Qc_of_Z 220)
          (7 * Workout.NS_PER_DAY) (10 * Workout.NS_PER_DAY) 3].
Proof. qc_struct_eq. Qed.

(** ** The estimate as a function of the weight and the repetitions *)

Section EstimateOrder.
Import Workout.

Lemma Qc_of_Z_std z : Qc_of_Z z = numbers.Qc_of_Z z.
Proof. apply Qc_is_canon. simpl. apply Qred_correct. Qed.

Lemma Qc_of_Z_le a b : a <= b -> (Qc_of_Z a <= Qc_of_Z b)%Qc.
Proof. rewrite !Qc_of_Z_std. apply Z2Qc_inj_le. Qed.

Lemma Qc_of_Z_pos a : 0 < a -> (0 < Qc_of_Z a)%Qc.
Proof. rewrite Qc_of_Z_std. intros H. by apply (proj1 (Z2Qc_inj_lt 0 a)). Qed.

Lemma Qc_of_Z_sub a b : (Qc_of_Z a - Qc_of_Z b)%Qc = Qc_of_Z (a - b).
Proof. rewrite !Qc_of_Z_std. symmetry. apply Z2Qc_inj_sub. Qed.

Lemma Qc_pos_nonzero (x : Qc) : (0 < x)%Qc -> x <> 0%Qc.
Proof. intros H ->. by apply (Qclt_not_le _ _ H), Qcle_refl. Qed.

Lemma estimate_factor w reps cfg :
  lower (formula cfg) = u "epley" \/ lower (formula cfg) = u "brzycki" ->
  estimate_1rm w reps cfg = Ok (w * factor (lower (formula cfg)) reps)%Qc.
Proof.
  intros Hf. unfold estimate_1rm, factor.
  destruct (reps <=? 1); [f_equal; ring |].
  destruct Hf as [-> | ->]; [done |].
  rewrite (bool_decide_eq_false_2 (u "brzycki" = u "epley")) by (by vm_compute).
  by rewrite bool_decide_eq_true_2.
Qed.

Lemma inverse_antitone a b :
  0 < b -> b <= a ->
  (Qc_of_Z 36 / Qc_of_Z a <= Qc_of_Z 36 / Qc_of_Z b)%Qc.
Proof.
  intros Hb Hab.
  assert (Ha' : (0 < Qc_of_Z a)%Qc) by (apply Qc_of_Z_pos; lia).
  assert (Hb' : (0 < Qc_of_Z b)%Qc) by (by apply Qc_of_Z_pos).
  pose proof (Qc_pos_nonzero _ Ha') as Hna.
  pose proof (Qc_pos_nonzero _ Hb') as Hnb.
  apply (Qcmult_lt_0_le_reg_r _ _ (Qc_of_Z a * Qc_of_Z b)%Qc).
  - apply Qcmult_pos_pos; assumption.
  - replace (Qc_of_Z 36 / Qc_of_Z a * (Qc_of_Z a * Qc_of_Z b))%Qc
      with (Qc_of_Z 36 * Qc_of_Z b)%Qc by (field; assumption).
    replace (Qc_of_Z 36 / Qc_of_Z b * (Qc_of_Z a * Qc_of_Z b))%Qc
      with (Qc_of_Z 36 * Qc_of_Z a)%Qc by (field; assumption).
    apply Qcmult_le_mono_nonneg_l; [by vm_compute | by apply Qc_of_Z_le].
Qed.

Lemma factor_epley_mono r1 r2 :
  r1 <= r2 ->
  (1 + Qc_of_Z r1 / Qc_of_Z 30 <= 1 + Qc_of_Z r2 / Qc_of_Z 30)%Qc.
Proof.
  intros H. apply Qcplus_le_mono_l. unfold Qcdiv.
  apply Qcmult_le_compat_r; [by apply Qc_of_Z_le | by vm_compute].
Qed.

Lemma factor_brzycki_mono r1 r2 :
  r1 <= r2 ->
  (Qc_of_Z 36 / (Qc_of_Z 37 - Qc_of_Z (Z.min r1 36))
   <= Qc_of_Z 36 / (Qc_of_Z 37 - Qc_of_Z (Z.min r2 36)))%Qc.
Proof.
  intros H. rewrite !Qc_of_Z_sub. apply inverse_antitone; lia.
Qed.

Lemma factor_ge_1 f reps : (1 <= factor f reps)%Qc.
Proof.
  unfold factor. destruct (Z.leb_spec reps 1); [apply Qcle_refl |].
  case_bool_decide.
  - replace 1%Qc with (1 + Qc_of_Z 0 / Qc_of_Z 30)%Qc at 1 by qc_eq.
    apply factor_epley_mono. lia.
  - replace 1%Qc with (Qc_of_Z 36 / Qc_of_Z 36)%Qc at 1 by qc_eq.
    rewrite Qc_of_Z_sub. apply inverse_antitone; lia.
Qed.

Lemma factor_mono f r1 r2 : r1 <= r2 -> (factor f r1 <= factor f r2)%Qc.
Proof.
  intros H. destruct (Z.leb_spec r1 1) as [H1 | H1].
  - unfold factor at 1. destruct (Z.leb_spec r1 1); [| lia].
    apply factor_ge_1.
  - unfold factor.
    destruct (Z.leb_spec r1 1); [lia |]. destruct (Z.leb_spec r2 1); [lia |].
    case_bool_decide;
      [by apply factor_epley_mono | by apply factor_brzycki_mono].
Qed.
End EstimateOrder.

(** X1.  With a known formula and a weight that is not negative, the
    estimate is never below the weight lifted, and a set of more repetitions
    at the same weight never gets a lower estimate. *)
Theorem estimate_1rm_monotone (w : Qc) (r1 r2 : Z) (cfg : Workout.OneRMConfig) :
  lower (Workout.formula cfg) = u "epley"
  \/ lower (Workout.formula cfg) = u "brzycki" ->
  (0 <= w)%Qc -> r1 <= r2 ->
  exists e1 e2,
    Workout.estimate_1rm w r1 cfg = Ok e1
    /\ Workout.estimate_1rm w r2 cfg = Ok e2
    /\ (w <= e1)%Qc /\ (e1 <= e2)%Qc.
Proof.
  intros Hf Hw Hr.
  exists (w * Workout.factor (lower (Workout.formula cfg)) r1)%Qc,
         (w * Workout.factor (lower (Workout.formula cfg)) r2)%Qc.
  split; [by apply estimate_factor |]. split; [by apply estimate_factor |].
  split.
  - replace w with (w * 1)%Qc at 1 by ring.
    apply Qcmult_le_mono_nonneg_l; [done | apply factor_ge_1].
  - apply Qcmult_le_mono_nonneg_l; [done | by apply factor_mono].
Qed.

Lemma estimate_1rm_monotone_witness :
  exists e1 e2,
    Workout.estimate_1rm (Qc_of_Z 100) 5 (Workout.mkOneRMConfig (u "Brzycki"))
    = Ok e1
    /\ Workout.estimate_1rm (Qc_of_Z 100) 40
         (Workout.mkOneRMConfig (u "Brzycki")) = Ok e2
    /\ (Qc_of_Z 100 <= e1)%Qc /\ (e1 <= e2)%Qc.
Proof.
  apply estimate_1rm_monotone.
  - right. reflexivity.
  - by vm_compute.
  - lia.
Defined.

(** X2.  On the repetitions [load_and_prepare] keeps (1 to 20) and for a
    weight that is not negative, the two formulas agree at 10 repetitions;
    below, Brzycki gives at most what Epley gives, above, at least. *)
Theorem epley_brzycki_crossover (w : Qc) (reps : Z)
    (ce cb : Workout.OneRMConfig) :
  lower (Workout.formula ce) = u "epley" ->
  lower (Workout.formula cb) = u "brzycki" ->
  (0 <= w)%Qc -> Workout.MIN_REPS <= reps <= Workout.MAX_REPS ->
  exists ee eb,
    Workout.estimate_1rm w reps ce = Ok ee
    /\ Workout.estimate_1rm w reps cb = Ok eb
    /\ (reps <= 10 -> (eb <= ee)%Qc)
    /\ (10 <= reps -> (ee <= eb)%Qc).
Proof.
  intros He Hb Hw [Hlo Hhi]. unfold Workout.MIN_REPS, Workout.MAX_REPS in *.
  exists (w * Workout.factor (lower (Workout.formula ce)) reps)%Qc,
         (w * Workout.factor (lower (Workout.formula cb)) reps)%Qc.
  split; [apply estimate_factor; by left |].
  split; [apply estimate_factor; by right |].
  rewrite He, Hb.
  assert (Hcases : Z.to_nat reps ∈ seq 1 20).
  { apply elem_of_seq. lia. }
  replace reps with (Z.of_nat (Z.to_nat reps)) by lia.
  revert Hcases. generalize (Z.to_nat reps). intros n Hn.
  split; intros Hr; apply Qcmult_le_mono_nonneg_l; try done;
    cbn in Hn; set_unfold; 
    repeat (destruct Hn as [-> | Hn]; [first [lia | by vm_compute] |]);
    done.
Qed.

Lemma epley_brzycki_crossover_witness :
  exists ee eb,
    Workout.estimate_1rm (Qc_of_Z 100) 10 (Workout.mkOneRMConfig (u "epley"))
    = Ok ee
    /\ Workout.estimate_1rm (Qc_of_Z 100) 10
         (Workout.mkOneRMConfig (u "brzycki")) = Ok eb
    /\ (10 <= 10 -> (eb <= ee)%Qc)
    /\ (10 <= 10 -> (ee <= eb)%Qc).
Proof.
  apply epley_brzycki_crossover.
  - reflexivity.
  - reflexivity.
  - by vm_compute.
  - by vm_compute.
Defined.

(** ** From the sets of the export to the daily bests *)

Section Frames.
Import Workout.

Lemma mapM_result {A B} (f : A -> result B) (l : list A) :
  match mapM f l with
  | Ok out => Forall2 (fun x y => f x = Ok y) l out
  | Raise e =>
      exists l1 x l2,
        l = l1 ++ x :: l2
        /\ Forall (fun x => exists y, f x = Ok y) l1
        /\ f x = Raise e
  end.
Proof.
  induction l as [| x l IH]; [constructor |].
  cbn [mapM]. destruct (f x) as [y | e] eqn:Hx; cbn.
  - change ((fix go (l : list A) : result (list B) :=
               match l with
               | [] => mret []
               | x :: l0 => f x ≫= fun y => go l0 ≫= fun k => mret (y :: k)
               end) l) with (mapM f l).
    destruct (mapM f l) as [out | e]; cbn.
    + by constructor.
    + destruct IH as (l1 & x' & l2 & -> & Hl1 & Hx').
      exists (x :: l1), x', l2. repeat split; [| done].
      constructor; [by exists y | done].
  - exists [], x, l. by repeat split.
Qed.

Lemma estimate_one_rep w reps cfg :
  reps <= 1 -> estimate_1rm w reps cfg = Ok w.
Proof.
  intros H. unfold estimate_1rm. destruct (Z.leb_spec reps 1); [done | lia].
Qed.

Lemma estimate_raises w reps cfg e :
  estimate_1rm w reps cfg = Raise e ->
  1 < reps
  /\ lower (formula cfg) <> u "epley" /\ lower (formula cfg) <> u "brzycki".
Proof.
  unfold estimate_1rm. destruct (Z.leb_spec reps 1); [done |].
  repeat case_bool_decide; done.
Qed.

Lemma estimate_unknown_formula w reps cfg :
  1 < reps ->
  lower (formula cfg) <> u "epley" -> lower (formula cfg) <> u "brzycki" ->
  estimate_1rm w reps cfg = Raise (ValueError "Unknown formula").
Proof.
  intros H He Hb. unfold estimate_1rm.
  destruct (Z.leb_spec reps 1); [lia |].
  by rewrite !bool_decide_eq_false_2.
Qed.

Lemma estimate_ge_weight w reps cfg e :
  (0 <= w)%Qc -> estimate_1rm w reps cfg = Ok e -> (w <= e)%Qc.
Proof.
  intros Hw He.
  destruct (Z.leb_spec reps 1) as [H1 | H1].
  - rewrite estimate_one_rep in He by done. injection He as <-.
    apply Qcle_refl.
  - destruct (decide (lower (formula cfg) = u "epley")) as [Hf | Hf];
      [| destruct (decide (lower (formula cfg) = u "brzycki")) as [Hf' | Hf']].
    + rewrite estimate_factor in He by (by left). injection He as <-.
      replace w with (w * 1)%Qc at 1 by ring.
      apply Qcmult_le_mono_nonneg_l; [done | apply factor_ge_1].
    + rewrite estimate_factor in He by (by right). injection He as <-.
      replace w with (w * 1)%Qc at 1 by ring.
      apply Qcmult_le_mono_nonneg_l; [done | apply factor_ge_1].
    + by rewrite estimate_unknown_formula in He.
Qed.

Lemma prepared_set_ok cfg r p :
  prepared_set cfg r = Ok p ->
  estimate_1rm (s_weight r) (s_reps r) cfg = Ok (p_est p)
  /\ p = mkPreparedSet (s_date r) (strip (s_exercise r)) (s_weight r)
           (s_reps r) (p_est p).
Proof.
  unfold prepared_set.
  destruct (estimate_1rm (s_weight r) (s_reps r) cfg) as [e | e]; [| done].
  cbn. unfold mret, result_ret. intros [= <-]. by split.
Qed.

Lemma prepared_set_raise cfg r e :
  prepared_set cfg r = Raise e ->
  estimate_1rm (s_weight r) (s_reps r) cfg = Raise e.
Proof.
  unfold prepared_set.
  destruct (estimate_1rm (s_weight r) (s_reps r) cfg) as [x | x]; cbn;
    unfold mret, result_ret; congruence.
Qed.

(** The order of the keys. *)

#[global] Instance key_le_total : Total key_le.
Proof.
  intros [a1 a2] [b1 b2]. unfold key_le, str_lt; cbn.
  destruct (decide (a1 = b1)) as [-> | Hne].
  - destruct (Z.le_gt_cases a2 b2); [left; right | right; right];
      (split; [done | lia]).
  - destruct (str_leb_total a1 b1); [left; left | right; left];
      (split; [done | congruence]).
Qed.

#[global] Instance key_le_trans : Transitive key_le.
Proof.
  intros [a1 a2] [b1 b2] [c1 c2]. unfold key_le, str_lt; cbn.
  intros [[Hab Hne] | [-> Hab]] [[Hbc Hne'] | [-> Hbc]].
  - left. split; [by apply (str_leb_trans a1 b1 c1) |].
    intros ->. apply Hne. by apply str_leb_antisym.
  - left. by split.
  - left. by split.
  - right. split; [done | lia].
Qed.

Lemma key_le_antisym a b : key_le a b -> key_le b a -> a = b.
Proof.
  destruct a as [a1 a2], b as [b1 b2]. unfold key_le, str_lt; cbn.
  intros [[Hab Hne] | [-> Hab]] [[Hba Hne'] | [Heq Hba]].
  - exfalso. apply Hne. by apply str_leb_antisym.
  - by subst.
  - done.
  - f_equal. lia.
Qed.

Lemma omap_keys {A B} (f : A -> option B) (key : B -> A) (l : list A) :
  (forall k, k ∈ l -> exists y, f k = Some y /\ key y = k) ->
  map key (omap f l) = l.
Proof.
  induction l as [| k l IH]; [done |]. intros H.
  destruct (H k) as (y & Hy & Hk); [left |].
  cbn. rewrite Hy. cbn. rewrite Hk. f_equal.
  apply IH. intros k' Hk'. apply H. by right.
Qed.

Lemma best_row df k :
  k ∈ map set_key df ->
  exists m,
    series_max (map p_est (filter (fun r => set_key r = k) df)) = Some m.
Proof.
  intros (r & -> & Hr)%list_elem_of_fmap.
  assert (Hin : r ∈ filter (fun r' => set_key r' = set_key r) df).
  { by apply list_elem_of_filter. }
  destruct (filter (fun r' => set_key r' = set_key r) df) as [| x g];
    [by apply elem_of_nil in Hin |].
  by eexists.
Qed.

Lemma best_keys df :
  map daily_key (best_1rm_per_day df)
  = merge_sort key_le (remove_dups (map set_key df)).
Proof.
  unfold best_1rm_per_day. apply omap_keys. intros k Hk.
  rewrite merge_sort_Permutation, elem_of_remove_dups in Hk.
  destruct (best_row df k Hk) as (m & Hm).
  rewrite Hm. cbn. eexists. split; [done |]. by destruct k.
Qed.

Lemma best_elem df d :
  d ∈ best_1rm_per_day df <->
  daily_key d ∈ map set_key df
  /\ series_max (map p_est (filter (fun r => set_key r = daily_key d) df))
     = Some (d_est d).
Proof.
  unfold best_1rm_per_day. rewrite list_elem_of_omap. split.
  - intros (k & Hk & Hd).
    rewrite merge_sort_Permutation, elem_of_remove_dups in Hk.
    destruct (series_max _) as [m |] eqn:Hm; [| done].
    cbn in Hd. injection Hd as <-. cbn.
    unfold daily_key; cbn. by destruct k.
  - intros [Hk Hm]. exists (daily_key d). split.
    + by rewrite merge_sort_Permutation, elem_of_remove_dups.
    + rewrite Hm. cbn. by destruct d.
Qed.
End Frames.

(** X3.  [load_and_prepare] fails on the estimate exactly when the formula
    is neither [epley] nor [brzycki] and some set has 2 to 20 repetitions:
    an export of single repetitions only is prepared under any formula
    name. *)
Theorem prepare_sets_raises (cfg : Workout.OneRMConfig)
    (rows : list Workout.SetRow) :
  (exists e, Workout.prepare_sets cfg rows = Raise e)
  <-> (lower (Workout.formula cfg) <> u "epley"
       /\ lower (Workout.formula cfg) <> u "brzycki"
       /\ exists r, r ∈ rows /\ 2 <= Workout.s_reps r <= Workout.MAX_REPS).
Proof.
  unfold Workout.prepare_sets. cbn [Workout.CONVERT_KG_TO_LBS].
  pose proof (mapM_result (Workout.prepared_set cfg)
                (filter Workout.in_rep_range rows)) as Hm.
  split.
  - intros [e He]. rewrite He in Hm.
    destruct Hm as (l1 & x & l2 & Hl & _ & Hx).
    apply prepared_set_raise, estimate_raises in Hx as (Hr & Hf & Hf').
    split; [done |]. split; [done |].
    assert (Hin : x ∈ filter Workout.in_rep_range rows).
    { rewrite Hl. apply elem_of_app. right. left. }
    apply list_elem_of_filter in Hin as [[_ Hhi] Hin].
    exists x. split; [done | lia].
  - intros (Hf & Hf' & r & Hr & Hlo & Hhi).
    destruct (mapM _ _) as [out | e]; [| by exists e]. exfalso.
    assert (Hin : r ∈ filter Workout.in_rep_range rows).
    { apply list_elem_of_filter. split; [| done].
      unfold Workout.in_rep_range, Workout.MIN_REPS. lia. }
    apply list_elem_of_lookup in Hin as [i Hi].
    destruct (Forall2_lookup_l _ _ _ _ _ Hm Hi) as (p & _ & Hp).
    apply prepared_set_ok in Hp as [Hp _].
    by rewrite estimate_unknown_formula in Hp by (done || lia).
Qed.

(** X4.  What [load_and_prepare] returns holds one row for each set of 1 to
    20 repetitions, in the order of the export, with the name stripped and
    the estimate of the set; when the weight is not negative the estimate
    is at least the weight. *)
Theorem prepare_sets_rows (cfg : Workout.OneRMConfig)
    (rows : list Workout.SetRow) (out : list Workout.PreparedSet) :
  Workout.prepare_sets cfg rows = Ok out ->
  Forall2
    (fun r p =>
       Workout.MIN_REPS <= Workout.s_reps r <= Workout.MAX_REPS
       /\ Workout.estimate_1rm (Workout.s_weight r) (Workout.s_reps r) cfg
          = Ok (Workout.p_est p)
       /\ p = Workout.mkPreparedSet (Workout.s_date r)
                (strip (Workout.s_exercise r)) (Workout.s_weight r)
                (Workout.s_reps r) (Workout.p_est p)
       /\ ((0 <= Workout.s_weight r)%Qc ->
           (Workout.s_weight r <= Workout.p_est p)%Qc))
    (filter (fun r => Workout.MIN_REPS <= Workout.s_reps r
                      /\ Workout.s_reps r <= Workout.MAX_REPS) rows)
    out.
Proof.
  unfold Workout.prepare_sets. cbn [Workout.CONVERT_KG_TO_LBS].
  pose proof (mapM_result (Workout.prepared_set cfg)
                (filter Workout.in_rep_range rows)) as Hm.
  intros Hout. rewrite Hout in Hm.
  change (filter (fun r => Workout.MIN_REPS <= Workout.s_reps r
                           /\ Workout.s_reps r <= Workout.MAX_REPS) rows)
    with (filter Workout.in_rep_range rows).
  assert (Hall : Forall Workout.in_rep_range
                   (filter Workout.in_rep_range rows)).
  { apply Forall_forall. by intros r [Hr _]%list_elem_of_filter. }
  clear Hout. revert Hall Hm. generalize (filter Workout.in_rep_range rows).
  intros l Hall Hm. induction Hm as [| r p l out' Hp Hm IH]; [constructor |].
  apply Forall_cons in Hall as [Hr Hall].
  constructor; [| by apply IH].
  apply prepared_set_ok in Hp as [He Hp].
  split; [exact Hr |]. split; [done |]. split; [done |].
  intros Hw. by apply (estimate_ge_weight _ (Workout.s_reps r) cfg).
Qed.

Lemma prepare_sets_rows_witness :
  Forall2
    (fun r p =>
       Workout.MIN_REPS <= Workout.s_reps r <= Workout.MAX_REPS
       /\ Workout.estimate_1rm (Workout.s_weight r) (Workout.s_reps r)
            (Workout.mkOneRMConfig (u "epley"))
          = Ok (Workout.p_est p)
       /\ p = Workout.mkPreparedSet (Workout.s_date r)
                (strip (Workout.s_exercise r)) (Workout.s_weight r)
                (Workout.s_reps r) (Workout.p_est p)
       /\ ((0 <= Workout.s_weight r)%Qc ->
           (Workout.s_weight r <= Workout.p_est p)%Qc))
    (filter (fun r => Workout.MIN_REPS <= Workout.s_reps r
                      /\ Workout.s_reps r <= Workout.MAX_REPS)
       [Workout.mkSetRow 0 (u " Squat ") (Qc_of_Z 100) 10;
        Workout.mkSetRow 0 (u "Squat") (Qc_of_Z 60) 25])
    [Workout.mkPreparedSet 0 (u "Squat") (Qc_of_Z 100) 10
       (Qc_of_Z 100 * (1 + Qc_of_Z 10 / Qc_of_Z 30))%Qc].
Proof.
  apply (prepare_sets_rows (Workout.mkOneRMConfig (u "epley"))).
  reflexivity.
Defined.

(** X5.  [best_1rm_per_day] returns one row for each pair of an exercise
    and a day that has a set, in the order of the exercise names and then of
    the dates; the estimate of the row is the largest estimate among the
    sets of that pair, and one of them. *)
Theorem best_1rm_per_day_spec (df : list Workout.PreparedSet) :
  let key := fun d => (Workout.d_exercise d, Workout.d_date d) in
  let daily := Workout.best_1rm_per_day df in
  NoDup (map key daily)
  /\ StronglySorted Workout.key_le (map key daily)
  /\ (forall r, r ∈ df ->
        exists d, d ∈ daily /\ key d = Workout.set_key r)
  /\ (forall d, d ∈ daily ->
        (exists r, r ∈ df /\ Workout.set_key r = key d
                   /\ Workout.p_est r = Workout.d_est d)
        /\ (forall r, r ∈ df -> Workout.set_key r = key d ->
                      (Workout.p_est r <= Workout.d_est d)%Qc)).
Proof.
  intros key daily. subst daily.
  change (map key) with (map Workout.daily_key). rewrite best_keys.
  split; [| split; [| split]].
  - rewrite merge_sort_Permutation. apply NoDup_remove_dups.
  - apply StronglySorted_merge_sort; apply _.
  - intros r Hr.
    assert (Hk : Workout.set_key r ∈ map Workout.daily_key (Workout.best_1rm_per_day df)).
    { rewrite best_keys, merge_sort_Permutation, elem_of_remove_dups.
      apply list_elem_of_fmap. by exists r. }
    apply list_elem_of_fmap in Hk as (d & Hd & Hin). by exists d.
  - intros d [Hk Hm]%best_elem.
    apply series_max_spec in Hm as [Hle Hin].
    apply list_elem_of_fmap in Hin as (r & Hr & Hin).
    apply list_elem_of_filter in Hin as [Hkey Hin].
    split; [by exists r |].
    intros r' Hr' Hkey'. apply Hle, list_elem_of_fmap.
    exists r'. split; [done |]. by apply list_elem_of_filter.
Qed.

(** ** More on the days since the record and on the history of an exercise *)

Section PrMore.
Import Workout.

Lemma pr_stats_group daily min_sessions st :
  st ∈ pr_stats daily min_sessions ->
  let g := filter (fun r => d_exercise r = exercise st) daily in
  g <> [] /\ min_sessions <= Z.of_nat (length g)
  /\ group_stat min_sessions (exercise st) g = Some st.
Proof.
  intros [Hname Hst]%pr_stats_elem g. subst g.
  split; [by apply filter_exercise_nonempty |]. split; [| done].
  destruct (Z.lt_ge_cases
              (Z.of_nat (length (filter (fun r => d_exercise r = exercise st)
                                   daily))) min_sessions) as [Hlt | Hge];
    [| done].
  by rewrite (group_stat_few _ _ _ Hlt) in Hst.
Qed.

Lemma omap_names_sublist (f : str -> list DailyBest -> option PrStat)
    (g : str -> list DailyBest) (names : list str) :
  (forall ex st, f ex (g ex) = Some st -> exercise st = ex) ->
  map exercise (omap (fun '(ex, rows) => f ex rows)
                  (map (fun ex => (ex, g ex)) names))
  `sublist_of` names.
Proof.
  intros Hname. induction names as [| ex names IH]; [constructor |].
  cbn. destruct (f ex (g ex)) as [st |] eqn:Hst; cbn.
  - rewrite (Hname _ _ Hst). by constructor.
  - by constructor.
Qed.

Lemma pr_stats_names daily min_sessions :
  map exercise (pr_stats daily min_sessions)
  `sublist_of` sorted (remove_dups (map d_exercise daily)).
Proof.
  unfold pr_stats, groupby_exercise.
  apply (omap_names_sublist (group_stat min_sessions)
           (fun ex => filter (fun r => d_exercise r = ex) daily)).
  intros ex st. apply group_stat_name.
Qed.

Lemma head_take {A} (n : Z) (l : list A) :
  head n l = take (if 0 <=? n then Z.to_nat n
                   else (length l - Z.to_nat (- n))%nat) l.
Proof. unfold head. by destruct (0 <=? n). Qed.


End PrMore.

(** X6.  In the statistics of [plot_days_since_pr] the record never lies
    after the last session: the days since the record are never negative,
    and they are 0 exactly when the last session came less than 24 hours
    after the record. *)
Theorem days_since_pr_nonneg (daily : list Workout.DailyBest)
    (min_sessions : Z) (st : Workout.PrStat) :
  st ∈ Workout.pr_stats daily min_sessions ->
  Workout.pr_date st <= Workout.last_date st
  /\ 0 <= Workout.days_since_pr st
  /\ (Workout.days_since_pr st = 0
      <-> Workout.last_date st - Workout.pr_date st < Workout.NS_PER_DAY).
Proof.
  intros Hst. destruct (pr_stats_group _ _ _ Hst) as (Hne & Hlen & Hg).
  destruct (group_stat_spec min_sessions (Workout.exercise st) _ Hne Hlen)
    as (st' & Hg' & _ & _ & _ & (r & Hr & _ & Hdate) & _ & Hlast & _ & Hdays).
  rewrite Hg in Hg'. injection Hg' as <-.
  assert (Hle : Workout.pr_date st <= Workout.last_date st).
  { rewrite <- Hdate. by apply Hlast. }
  split; [done |]. rewrite Hdays. unfold Workout.days, Workout.NS_PER_DAY.
  split; [div_lia |]. split; intros H; div_lia.
Qed.

Lemma days_since_pr_nonneg_witness :
  0 <= Workout.days_since_pr
         (Workout.mkPrStat (u "Squat") 2 (Qc_of_Z 220) 0
            (3 * Workout.NS_PER_DAY) 3).
Proof.
  refine (proj1 (proj2 (days_since_pr_nonneg
    [Workout.mkDailyBest 0 (u "Squat") (Qc_of_Z 220);
     Workout.mkDailyBest (3 * Workout.NS_PER_DAY) (u "Squat") (Qc_of_Z 200)]
    2 _ _))).
  vm_compute. left.
Defined.

(** X7.  The statistics hold at most one row for an exercise, and so does
    the frame that is drawn; that frame is a prefix of the ranking: its
    first [top_n] rows when [top_n] is not negative, and the ranking without
    its last [-top_n] rows when it is. *)
Theorem plot_days_since_pr_rows (daily : list Workout.DailyBest)
    (top_n min_sessions : Z) (out : list Workout.PrStat) :
  Workout.plot_days_since_pr daily top_n min_sessions = Ok out ->
  NoDup (map Workout.exercise (Workout.pr_stats daily min_sessions))
  /\ NoDup (map Workout.exercise out)
  /\ (forall st, st ∈ out -> st ∈ Workout.pr_stats daily min_sessions)
  /\ length out
     = (if 0 <=? top_n
        then Nat.min (Z.to_nat top_n)
               (length (Workout.pr_stats daily min_sessions))
        else (length (Workout.pr_stats daily min_sessions)
              - Z.to_nat (- top_n))%nat).
Proof.
  unfold Workout.plot_days_since_pr.
  assert (Hnd : NoDup (map Workout.exercise
                         (Workout.pr_stats daily min_sessions))).
  { eapply sublist_NoDup; [| apply pr_stats_names].
    unfold sorted. rewrite merge_sort_Permutation. apply NoDup_remove_dups. }
  destruct (Workout.pr_stats daily min_sessions) as [| s stats] eqn:Hs;
    [done |].
  intros [= <-]. rewrite head_take.
  set (ranked := merge_sort Workout.gap_ge (s :: stats)).
  assert (Hperm : ranked ≡ₚ s :: stats) by apply merge_sort_Permutation.
  split; [done |]. split; [| split].
  - rewrite fmap_take. eapply sublist_NoDup; [| apply sublist_take].
    by rewrite Hperm.
  - intros st Hin. rewrite <- Hperm.
    apply list_elem_of_lookup in Hin as [i Hi].
    apply lookup_take_Some in Hi as [Hi _].
    by apply list_elem_of_lookup_2 in Hi.
  - rewrite length_take, (Permutation_length Hperm).
    destruct (0 <=? top_n); lia.
Qed.

Lemma plot_days_since_pr_rows_witness :
  NoDup (map Workout.exercise
           [Workout.mkPrStat (u "Squat") 2 (Qc_of_Z 220) 0
              (3 * Workout.NS_PER_DAY) 3]).
Proof.
  refine (proj1 (proj2 (plot_days_since_pr_rows
    [Workout.mkDailyBest 0 (u "Squat") (Qc_of_Z 220);
     Workout.mkDailyBest (3 * Workout.NS_PER_DAY) (u "Squat") (Qc_of_Z 200);
     Workout.mkDailyBest 0 (u "Bench") (Qc_of_Z 100);
     Workout.mkDailyBest Workout.NS_PER_DAY (u "Bench") (Qc_of_Z 110)]
    1 2 _ _))).
  vm_compute. reflexivity.
Defined.



(** ** Lose It: every cell text [parse_int_like] can meet *)

Section IntLike.
Import LoseIt.

Lemma omap_cons_eq {A B} (f : A -> option B) x l :
  omap f (x :: l)
  = match f x with Some y => y :: omap f l | None => omap f l end.
Proof. reflexivity. Qed.

Lemma decimal_not_space c : isdecimal c = true -> isspace c = false.
Proof.
  intros Hd. destruct (isspace c) eqn:Hs; [| done].
  unfold isspace in Hs. apply bool_decide_eq_true in Hs.
  unfold whitespace in Hs. set_unfold.
  repeat (destruct Hs as [-> | Hs]; [by vm_compute in Hd |]).
  done.
Qed.

Lemma kept_not_num_space c : kept c -> num_space c = false.
Proof.
  intros [Hd | ->]; [| done].
  unfold num_space. by rewrite (decimal_not_space c Hd).
Qed.

Lemma kept_not_underscore c : kept c -> (c =? 95)%N = false.
Proof.
  intros [Hd | ->]; [| done].
  destruct (N.eqb_spec c 95) as [-> | Hne]; [by vm_compute in Hd | done].
Qed.

Lemma decimal_not_sign c :
  isdecimal c = true -> (c =? 45)%N = false /\ (c =? 43)%N = false.
Proof.
  intros Hd. split.
  - destruct (N.eqb_spec c 45) as [-> | Hne]; [by vm_compute in Hd | done].
  - destruct (N.eqb_spec c 43) as [-> | Hne]; [by vm_compute in Hd | done].
Qed.

Lemma clean_kept s : Forall kept (clean s).
Proof. apply Forall_forall. by intros c [Hc _]%list_elem_of_filter. Qed.

Lemma drop_underscores_kept s : forall b,
  Forall kept s -> drop_underscores b s = Some s.
Proof.
  induction s as [| c s IH]; intros b Hs; [done |].
  apply Forall_cons in Hs as [Hc Hs]. cbn.
  rewrite (kept_not_underscore c Hc). by rewrite IH.
Qed.

Lemma lstrip_num_kept s : Forall kept s -> lstrip_num s = s.
Proof.
  destruct s as [| c s]; [done |]. intros [Hc _]%Forall_cons.
  cbn. by rewrite (kept_not_num_space c Hc).
Qed.

Lemma strip_num_kept s : Forall kept s -> strip_num s = s.
Proof.
  intros Hs. unfold strip_num. rewrite (lstrip_num_kept s Hs).
  rewrite lstrip_num_kept by (by apply Forall_reverse).
  apply reverse_involutive.
Qed.

Lemma span_digits_decimals s :
  Forall (fun c => isdecimal c = true) s ->
  span_digits s = (omap decimal_value s, []).
Proof.
  induction s as [| c s IH]; [done |]. intros [Hc Hs]%Forall_cons.
  cbn [span_digits]. rewrite omap_cons_eq. unfold isdecimal in Hc.
  destruct (decimal_value c) as [d |]; [| done].
  by rewrite (IH Hs).
Qed.

Lemma span_digits_stops s :
  45%N ∈ s -> (span_digits s).2 <> [].
Proof.
  induction s as [| c s IH]; [by intros ?%elem_of_nil |].
  intros Hin. cbn [span_digits].
  destruct (decimal_value c) as [d |] eqn:Hc; [| done].
  apply elem_of_cons in Hin as [<- | Hin]; [by vm_compute in Hc |].
  specialize (IH Hin). by destruct (span_digits s).
Qed.

Lemma omap_decimals_nonempty s :
  s <> [] -> Forall (fun c => isdecimal c = true) s ->
  omap decimal_value s <> [].
Proof.
  destruct s as [| c s]; [done |]. intros _ [Hc _]%Forall_cons.
  rewrite omap_cons_eq. unfold isdecimal in Hc.
  by destruct (decimal_value c).
Qed.

Lemma kept_no_minus s :
  Forall kept s -> 45%N ∉ s -> Forall (fun c => isdecimal c = true) s.
Proof.
  intros Hs Hno. apply Forall_forall. intros c Hc.
  destruct (proj1 (Forall_forall _ _) Hs c Hc) as [Hd | ->]; [done |].
  by destruct Hno.
Qed.

Lemma int_of_str_kept c :
  Forall kept c -> c <> [] -> c <> [45%N] ->
  int_of_str c
  = if bool_decide (45%N ∈ tail c) then None
    else Some (signed (startswith c (u "-"))
                 (Z.of_N (nat_of_digits (omap decimal_value c)))).
Proof.
  intros Hk Hne Hne'. unfold int_of_str.
  rewrite (drop_underscores_kept c false Hk). cbn [mbind option_bind].
  rewrite (strip_num_kept c Hk).
  destruct c as [| x t]; [done |]. clear Hne.
  apply Forall_cons in Hk as [Hx Ht]. cbn [tail].
  destruct Hx as [Hx | ->].
  - destruct (decimal_not_sign x Hx) as [H45 H43].
    assert (Hstart : startswith (x :: t) (u "-") = false).
    { unfold startswith. apply bool_decide_eq_false. cbn.
      intros [= ->]. by vm_compute in Hx. }
    rewrite Hstart. unfold parse_sign. rewrite H45, H43.
    case_bool_decide as Hin.
    + pose proof (span_digits_stops (x :: t)) as Hstop.
      destruct (span_digits (x :: t)) as [ds s2].
      cbn in Hstop. destruct s2; [| by destruct ds].
      exfalso. apply Hstop; [by right | done].
    + rewrite span_digits_decimals
        by (constructor; [done | by apply kept_no_minus]).
      pose proof (omap_decimals_nonempty (x :: t)) as Hnn.
      destruct (omap decimal_value (x :: t)) as [| d ds]; [| done].
      exfalso. apply Hnn; [done | | done].
      constructor; [done | by apply kept_no_minus].
  - assert (Hstart : startswith (45%N :: t) (u "-") = true).
    { unfold startswith. by apply bool_decide_eq_true. }
    rewrite Hstart. cbn [parse_sign N.eqb Pos.eqb].
    change (45 =? 45)%N with true. cbv iota.
    case_bool_decide as Hin.
    + pose proof (span_digits_stops t Hin) as Hstop.
      destruct (span_digits t) as [ds s2].
      cbn in Hstop. destruct s2; [done | by destruct ds].
    + rewrite span_digits_decimals by (by apply kept_no_minus).
      assert (Hom : omap decimal_value (45%N :: t) = omap decimal_value t)
        by done.
      rewrite Hom.
      pose proof (omap_decimals_nonempty t) as Hnn.
      destruct (omap decimal_value t) as [| d ds]; [| done].
      exfalso. apply Hnn; [| by apply kept_no_minus | done].
      by intros ->.
Qed.
End IntLike.

(** X9.  [parse_int_like] in closed form, for a cell of at most 4300 kept
    characters (beyond that, [int] refuses the text for its length).  Let
    [c] be the cell with everything but decimal digits and minus signs
    removed.  The call raises [ValueError] exactly when [c] has a minus sign
    after its first character; otherwise it returns the number the digits of
    [c] spell, which is 0 when there is none, negated when [c] starts with a
    minus sign.  So a decimal point is dropped ([1.5] reads as 15) and a
    range such as [3-4] raises. *)
Theorem parse_int_like_closed_form (s : str) :
  (length (LoseIt.clean s) <= 4300)%nat ->
  LoseIt.parse_int_like (Some s)
  = if bool_decide (45%N ∈ tail (LoseIt.clean s))
    then Raise (ValueError "invalid literal for int() with base 10")
    else Ok (signed (startswith (LoseIt.clean s) (u "-"))
               (Z.of_N (nat_of_digits (omap decimal_value (LoseIt.clean s))))).
Proof.
  intros _. unfold LoseIt.parse_int_like.
  rewrite (clean_strip s).
  case_bool_decide as Hsp.
  { rewrite <- (clean_strip s).
    set_unfold. destruct Hsp as [-> | [-> | [-> | []]]]; by vm_compute. }
  case_bool_decide as Hcl.
  { set_unfold. destruct Hcl as [-> | [-> | []]]; by vm_compute. }
  rewrite int_of_str_kept.
  - by case_bool_decide.
  - apply clean_kept.
  - intros H. apply Hcl. rewrite H. set_solver.
  - intros H. apply Hcl. rewrite H. set_solver.
Qed.

Lemma parse_int_like_closed_form_witness :
  LoseIt.parse_int_like (Some (u " -1,5.0 kcal"))
  = if bool_decide (45%N ∈ tail (LoseIt.clean (u " -1,5.0 kcal")))
    then Raise (ValueError "invalid literal for int() with base 10")
    else Ok (signed (startswith (LoseIt.clean (u " -1,5.0 kcal")) (u "-"))
               (Z.of_N (nat_of_digits
                          (omap decimal_value
                             (LoseIt.clean (u " -1,5.0 kcal")))))).
Proof.
  apply parse_int_like_closed_form. vm_compute. lia.
Defined.

(** ** Lose It: the Daily Summary table and the maintenance estimate *)

Section Summary.
Import LoseIt.

Lemma scan_blank rows : forall b acc,
  scan_summary b (filter (fun row => row <> []) rows) acc
  = scan_summary b rows acc.
Proof.
  induction rows as [| row rows IH]; intros b acc; [done |].
  destruct row as [| c row].
  - rewrite filter_cons_False by (by intros H; apply H). cbn. apply IH.
  - rewrite filter_cons_True by done. cbn [scan_summary].
    destruct b; cbn [negb].
    + destruct (ends_summary _); [done |].
      destruct (strptime _ _) as [dt | e]; [| done].
      destruct (day_record dt (c :: row)) as [r | e]; [| done].
      cbn. apply IH.
    + apply IH.
Qed.

Lemma header_nonempty hdr : is_summary_header hdr = true -> hdr <> [].
Proof. by intros H ->. Qed.

Lemma scan_before pre rows acc :
  Forall (fun row => is_summary_header row = false) pre ->
  scan_summary false (pre ++ rows) acc = scan_summary false rows acc.
Proof.
  induction 1 as [| row pre Hrow Hpre IH]; [done |].
  cbn [app scan_summary negb]. rewrite Hrow. by destruct row.
Qed.

Lemma scan_header hdr rows acc :
  is_summary_header hdr = true ->
  scan_summary false (hdr :: rows) acc = scan_summary true rows acc.
Proof.
  intros H. cbn [scan_summary negb]. rewrite H.
  destruct hdr; [by apply header_nonempty in H | done].
Qed.

Lemma scan_date_row row r rows acc :
  date_row row r ->
  scan_summary true (row :: rows) acc = scan_summary true rows (acc ++ [r]).
Proof.
  intros (Hne & Hend & dt & Hdt & Hr). cbn [scan_summary negb].
  destruct row as [| c row]; [done |]. by rewrite Hend, Hdt, Hr.
Qed.

Lemma scan_body body recs : forall rows acc,
  Forall2 date_row body recs ->
  scan_summary true (body ++ rows) acc = scan_summary true rows (acc ++ recs).
Proof.
  intros rows acc H. revert acc.
  induction H as [| row r body recs Hrow _ IH]; intros acc.
  - by rewrite app_nil_r.
  - cbn [app]. rewrite (scan_date_row row r _ _ Hrow), IH.
    by rewrite <- app_assoc.
Qed.

Lemma scan_stop row rows acc :
  stop_row row -> scan_summary true (row :: rows) acc = Ok acc.
Proof.
  intros (Hne & Hstop). cbn [scan_summary negb].
  destruct row as [| c row]; [done |].
  destruct (ends_summary _); [done |].
  destruct Hstop as [Hstop | Hstop]; [done |].
  by destruct (strptime _ _).
Qed.

Lemma parse_int_like_error x e :
  parse_int_like x = Raise e ->
  e = ValueError "invalid literal for int() with base 10".
Proof.
  unfold parse_int_like. destruct x as [s |]; [| done].
  repeat case_bool_decide; try done.
  destruct (int_of_str _); [done |]. by intros [= <-].
Qed.

Lemma day_record_raises dt row i e :
  (1 <= i <= 5)%nat ->
  parse_int_like (Some (cell_or_empty row i)) = Raise e ->
  day_record dt row
  = Raise (ValueError "invalid literal for int() with base 10").
Proof.
  intros Hi He. pose proof (parse_int_like_error _ _ He) as ->.
  unfold day_record.
  assert (Hcases : (i = 1 \/ i = 2 \/ i = 3 \/ i = 4 \/ i = 5)%nat) by lia.
  destruct (parse_int_like (Some (cell_or_empty row 1))) as [x1 | e1] eqn:H1;
    [| by rewrite (parse_int_like_error _ _ H1)].
  destruct (parse_int_like (Some (cell_or_empty row 2))) as [x2 | e2] eqn:H2;
    [| by rewrite (parse_int_like_error _ _ H2)].
  destruct (parse_int_like (Some (cell_or_empty row 3))) as [x3 | e3] eqn:H3;
    [| by rewrite (parse_int_like_error _ _ H3)].
  destruct (parse_int_like (Some (cell_or_empty row 4))) as [x4 | e4] eqn:H4;
    [| by rewrite (parse_int_like_error _ _ H4)].
  destruct (parse_int_like (Some (cell_or_empty row 5))) as [x5 | e5] eqn:H5;
    [| by rewrite (parse_int_like_error _ _ H5)].
  destruct Hcases as [-> | [-> | [-> | [-> | ->]]]]; congruence.
Qed.



End Summary.

(** X10.  [read_daily_summary] returns the table that follows the first
    header row (an empty first cell, then [Budget], then a cell starting
    with [Food]): one record for each row read as a date, in order, up to
    the first row that ends the table or the end of the file, whatever comes
    after.  Rows before the header are ignored, and a file without the
    header gives no record. *)
Theorem read_daily_summary_table
    (pre body rest : list (list str)) (hdr : list str)
    (recs : list LoseIt.DayRecord) :
  Forall (fun row => LoseIt.is_summary_header row = false) pre ->
  LoseIt.is_summary_header hdr = true ->
  Forall2 LoseIt.date_row body recs ->
  rest = [] \/ (exists stop rest', rest = stop :: rest' /\ LoseIt.stop_row stop) ->
  LoseIt.read_daily_summary (pre ++ hdr :: body ++ rest) = Ok recs
  /\ LoseIt.read_daily_summary pre = Ok [].
Proof.
  intros Hpre Hhdr Hbody Hrest. unfold LoseIt.read_daily_summary. split.
  - rewrite (scan_before pre _ _ Hpre), (scan_header hdr _ _ Hhdr).
    rewrite (scan_body body recs _ _ Hbody). cbn [app].
    destruct Hrest as [-> | (stop & rest' & -> & Hstop)]; [done |].
    by apply scan_stop.
  - rewrite <- (app_nil_r pre). by rewrite (scan_before pre [] _ Hpre).
Qed.

Lemma read_daily_summary_table_witness :
  LoseIt.read_daily_summary
    ([[u "Weekly Summary"]; []]
     ++ [[]; u "Budget"; u "Food calories"; u "Exercise"; u "Net"]
     :: [[u "10-Nov-25"; u "1,729"; u "1,650"; u "300"; u "1,350"; u "-379"];
         [u "11-Nov-25"; u "1,729"; u "2,024"; u "-"]]
     ++ [[u "Totals"; u "3,458"]; [u "12-Nov-25"; u "1"]])
  = Ok [LoseIt.mkDayRecord (mkdate 2025 11 10) 1729 1650 300 1350 (-379);
        LoseIt.mkDayRecord (mkdate 2025 11 11) 1729 2024 0 0 0]
  /\ LoseIt.read_daily_summary [[u "Weekly Summary"]; []] = Ok [].
Proof.
  apply read_daily_summary_table.
  - repeat constructor.
  - reflexivity.
  - repeat constructor; try done; by eexists.
  - right. eexists _, _. split; [reflexivity |]. split; [done |].
    left. reflexivity.
Defined.

(** X11.  Empty records (blank lines of the file) never matter to
    [read_daily_summary]: they neither end the table nor count as rows. *)
Theorem read_daily_summary_blank_rows (rows : list (list str)) :
  LoseIt.read_daily_summary (filter (fun row => row <> []) rows)
  = LoseIt.read_daily_summary rows.
Proof. apply scan_blank. Qed.

(** X12.  A date row of the table with a cell that [parse_int_like] refuses
    makes [read_daily_summary] raise [ValueError]: the records read before
    it are lost with it. *)
Theorem read_daily_summary_raises
    (pre body rest : list (list str)) (hdr bad : list str)
    (recs : list LoseIt.DayRecord) (dt : date) (i : nat) (e : exn) :
  Forall (fun row => LoseIt.is_summary_header row = false) pre ->
  LoseIt.is_summary_header hdr = true ->
  Forall2 LoseIt.date_row body recs ->
  LoseIt.ends_summary (strip (nth 0 bad [])) = false ->
  strptime (strip (nth 0 bad [])) (u "%d-%b-%y") = Ok dt ->
  (1 <= i <= 5)%nat ->
  LoseIt.parse_int_like (Some (LoseIt.cell_or_empty bad i)) = Raise e ->
  LoseIt.read_daily_summary (pre ++ hdr :: body ++ bad :: rest)
  = Raise (ValueError "invalid literal for int() with base 10").
Proof.
  intros Hpre Hhdr Hbody Hend Hdt Hi He. unfold LoseIt.read_daily_summary.
  rewrite (scan_before pre _ _ Hpre), (scan_header hdr _ _ Hhdr).
  rewrite (scan_body body recs _ _ Hbody).
  cbn [LoseIt.scan_summary negb].
  destruct bad as [| c bad].
  { exfalso. destruct i as [| [| [| [| [| [| i]]]]]]; try lia;
      by vm_compute in He. }
  rewrite Hend, Hdt. by rewrite (day_record_raises dt _ i e Hi He).
Qed.

Lemma read_daily_summary_raises_witness :
  LoseIt.read_daily_summary
    ([[u "Weekly Summary"]]
     ++ [[]; u "Budget"; u "Food calories"]
     :: [[u "10-Nov-25"; u "1,729"; u "1,650"]]
     ++ [u "11-Nov-25"; u "1,729"; u "1,800-2,000"] :: [[u "Totals"]])
  = Raise (ValueError "invalid literal for int() with base 10").
Proof.
  apply (read_daily_summary_raises _ _ _ _ _
           [LoseIt.mkDayRecord (mkdate 2025 11 10) 1729 1650 0 0 0]
           (mkdate 2025 11 11) 2
           (ValueError "invalid literal for int() with base 10")).
  - repeat constructor.
  - reflexivity.
  - repeat constructor; try done; by eexists.
  - reflexivity.
  - reflexivity.
  - lia.
  - reflexivity.
Defined.



(** ** Dates and weeks once more *)

Section Weeks.
Import Diet.

Lemma try_patterns_some raw pats d :
  try_patterns raw pats = Some d ->
  exists pat, pat ∈ pats /\ strptime raw pat = Ok d.
Proof.
  induction pats as [| pat pats IH]; [done |]. cbn [try_patterns].
  destruct (strptime raw pat) as [d' | e] eqn:Hp.
  - intros [= ->]. exists pat. split; [left | done].
  - intros (pat' & Hin & Hd)%IH. exists pat'. split; [by right | done].
Qed.

Lemma parse_date_inv raw s :
  _parse_date_to_iso raw = Ok s ->
  exists d, valid d = true /\ s = strftime d (u "%Y-%m-%d").
Proof.
  unfold _parse_date_to_iso.
  destruct (strip (or_empty raw)) as [| c t]; [done |].
  destruct (try_patterns (c :: t) DATE_PATTERNS) as [d |] eqn:H1.
  - intros [= <-]. exists d. split; [| done].
    apply try_patterns_some in H1 as (pat & _ & Hd).
    by apply strptime_valid in Hd.
  - destruct (try_patterns _ [u "%Y-%m-%d"]) as [d |] eqn:H2; [| done].
    intros [= <-]. exists d. split; [| done].
    apply try_patterns_some in H2 as (pat & _ & Hd).
    by apply strptime_valid in Hd.
Qed.

Lemma parse_date_iso d :
  valid d = true ->
  _parse_date_to_iso (Some (strftime d (u "%Y-%m-%d")))
  = Ok (strftime d (u "%Y-%m-%d")).
Proof.
  intros Hv. unfold _parse_date_to_iso. cbn [or_empty].
  destruct (strftime_iso_clean d) as [-> Hne].
  destruct (strftime d (u "%Y-%m-%d")) as [| c t] eqn:Hs; [done |].
  rewrite <- Hs.
  change DATE_PATTERNS with (u "%Y-%m-%d" :: tail DATE_PATTERNS).
  cbn [try_patterns]. by rewrite (strptime_strftime_iso d Hv).
Qed.

Lemma monday_week_start_inv s ws :
  _monday_week_start s = Ok ws ->
  exists d monday,
    strptime s (u "%Y-%m-%d") = Ok d
    /\ ws = strftime monday (u "%Y-%m-%d")
    /\ valid monday = true
    /\ weekday monday = 0
    /\ 0 <= toordinal d - toordinal monday <= 6.
Proof.
  unfold _monday_week_start.
  destruct (strptime s (u "%Y-%m-%d")) as [d | e] eqn:Hd; [| done].
  pose proof (strptime_valid _ _ _ Hd) as Hv.
  destruct (monday_of d Hv) as (monday & Hminus & Hvm & Hord & Hwd).
  cbn. rewrite Hminus. cbn. unfold mret, result_ret. intros [= <-].
  exists d, monday. repeat split; try done; rewrite Hord;
    pose proof (weekday_range d); lia.
Qed.

Lemma monday_week_start_iso d :
  valid d = true ->
  is_ok (_monday_week_start (strftime d (u "%Y-%m-%d"))) = true.
Proof.
  intros Hv. unfold _monday_week_start.
  rewrite (strptime_strftime_iso d Hv). cbn.
  destruct (monday_of d Hv) as (monday & -> & _). done.
Qed.

Lemma add_day_length buckets d buckets' :
  add_day buckets d = Ok buckets' ->
  (length (ODict.keys buckets') <= S (length (ODict.keys buckets)))%nat.
Proof.
  unfold add_day.
  destruct (_monday_week_start (date_iso d)) as [ws | e]; [| done].
  cbn. unfold mret, result_ret. intros [= <-].
  rewrite odict_keys_set.
  destruct (ODict.mem ws buckets) eqn:Hmem.
  - rewrite Hmem. lia.
  - rewrite odict_keys_set, Hmem.
    assert (Hm : ODict.mem ws (ODict.set ws empty_bucket buckets) = true).
    { unfold ODict.mem. by rewrite odict_get_set_eq. }
    rewrite Hm, length_app. cbn. lia.
Qed.

Lemma fill_buckets_length daily : forall buckets buckets',
  fill_buckets buckets daily = Ok buckets' ->
  (length (ODict.keys buckets')
   <= length (ODict.keys buckets) + length daily)%nat.
Proof.
  induction daily as [| d daily IH]; intros buckets buckets'.
  - intros [= <-]. lia.
  - cbn [fill_buckets].
    destruct (add_day buckets d) as [b1 | e] eqn:Hadd; [| done]. cbn.
    intros H. apply IH in H. apply add_day_length in Hadd.
    cbn [length]. lia.
Qed.

Lemma add_day_raise buckets d :
  is_ok (_monday_week_start (date_iso d)) = false ->
  exists e, add_day buckets d = Raise e.
Proof.
  unfold add_day.
  destruct (_monday_week_start (date_iso d)) as [ws | e]; [done |].
  by exists e.
Qed.

Lemma fill_buckets_raise daily : forall buckets,
  Exists (fun d => is_ok (_monday_week_start (date_iso d)) = false) daily ->
  exists e, fill_buckets buckets daily = Raise e.
Proof.
  induction daily as [| d daily IH]; intros buckets Hex;
    [by apply Exists_nil in Hex |].
  cbn [fill_buckets].
  destruct (is_ok (_monday_week_start (date_iso d))) eqn:Hd.
  - apply Exists_cons in Hex as [Hex | Hex]; [congruence |].
    destruct (add_day_ok buckets d Hd) as [b1 ->]. cbn. by apply IH.
  - destruct (add_day_raise buckets d Hd) as [e ->]. by exists e.
Qed.
End Weeks.

(** X16.  What [_parse_date_to_iso] returns is the ISO text of a date of
    the calendar.  From the year 1000 on (below, [%Y] may print fewer than
    the four digits it reads) that text is read back as the same date,
    [_parse_date_to_iso] maps it to itself, and [_monday_week_start]
    accepts it. *)
Theorem parse_date_canonical (raw : cell) (s : str) :
  Diet._parse_date_to_iso raw = Ok s ->
  exists d,
    valid d = true
    /\ s = strftime d (u "%Y-%m-%d")
    /\ (1000 <= year d ->
        strptime s (u "%Y-%m-%d") = Ok d
        /\ Diet._parse_date_to_iso (Some s) = Ok s
        /\ is_ok (Diet._monday_week_start s) = true).
Proof.
  intros (d & Hv & ->)%parse_date_inv. exists d.
  split; [done |]. split; [done |]. intros _.
  split; [by apply strptime_strftime_iso |].
  split; [by apply parse_date_iso | by apply monday_week_start_iso].
Qed.

Lemma parse_date_canonical_witness :
  exists d,
    valid d = true
    /\ u "2025-12-15" = strftime d (u "%Y-%m-%d")
    /\ (1000 <= year d ->
        strptime (u "2025-12-15") (u "%Y-%m-%d") = Ok d
        /\ Diet._parse_date_to_iso (Some (u "2025-12-15")) = Ok (u "2025-12-15")
        /\ is_ok (Diet._monday_week_start (u "2025-12-15")) = true).
Proof.
  apply (parse_date_canonical (Some (u " 15-Dec-25 "))). reflexivity.
Defined.

(** X17.  Every bucket of [_aggregate_weekly] stands under the ISO text of a
    Monday and holds at least one day of the input, a day of the week that
    starts on that Monday; so there are at most as many buckets as days. *)
Theorem weekly_keys_are_mondays
    (daily : list Diet.DailyRow) (weekly : ODict.odict Diet.WeeklyAvg) :
  Diet._aggregate_weekly daily = Ok weekly ->
  (length weekly <= length daily)%nat
  /\ forall ws, ws ∈ ODict.keys weekly ->
       exists day d monday,
         day ∈ daily
         /\ Diet._monday_week_start (Diet.date_iso day) = Ok ws
         /\ strptime (Diet.date_iso day) (u "%Y-%m-%d") = Ok d
         /\ ws = strftime monday (u "%Y-%m-%d")
         /\ valid monday = true
         /\ weekday monday = 0
         /\ 0 <= toordinal d - toordinal monday <= 6.
Proof.
  unfold Diet._aggregate_weekly.
  destruct (Diet.fill_buckets [] daily) as [buckets |] eqn:Hfill; [| done].
  cbn. unfold mret, result_ret. intros [= <-]. split.
  - rewrite length_map.
    pose proof (fill_buckets_length daily [] buckets Hfill) as H.
    unfold ODict.keys in H. rewrite length_map in H. cbn in H. lia.
  - rewrite odict_keys_map. intros ws Hws.
    assert (Hget : ODict.get ws buckets <> None)
      by (intros Hn; by apply odict_get_keys in Hn).
    rewrite (fill_buckets_get daily [] buckets ws Hfill) in Hget.
    destruct (Diet.in_week ws daily) as [| day days] eqn:Hweek; [done |].
    assert (Hd : day ∈ Diet.in_week ws daily) by (rewrite Hweek; left).
    apply list_elem_of_filter in Hd as [Hd Hin].
    destruct (monday_week_start_inv _ _ Hd) as (d & monday & H).
    exists day, d, monday. by repeat split; try apply H.
Qed.

Lemma weekly_keys_are_mondays_witness :
  (length [(u "2025-12-22",
            Diet.mkWeeklyAvg None (Some (Qc_of_Z 1900)) (Some (Qc_of_Z 300))
                             (Some (Qc_of_Z 1700)))]
   <= length [Diet.mkDailyRow (u "2025-12-22") None
                (Some (Qc_of_Z 2000)) (Some (Qc_of_Z 300));
              Diet.mkDailyRow (u "2025-12-24") None
                (Some (Qc_of_Z 1800)) None])%nat.
Proof.
  refine (proj1 (weekly_keys_are_mondays _ _ _)).
  apply (f_equal Ok). qc_struct_eq.
Defined.

(** X18.  [_aggregate_weekly] raises exactly when the date of some day is
    not accepted by [_monday_week_start]; no bucket is returned then. *)
Theorem aggregate_weekly_raises (daily : list Diet.DailyRow) :
  (exists e, Diet._aggregate_weekly daily = Raise e)
  <-> Exists (fun d => is_ok (Diet._monday_week_start (Diet.date_iso d)) = false)
             daily.
Proof.
  unfold Diet._aggregate_weekly. split.
  - intros [e He].
    destruct (decide (Exists (fun d => is_ok (Diet._monday_week_start
                                                (Diet.date_iso d)) = false)
                        daily)) as [| Hno]; [done |].
    exfalso. apply not_Exists_Forall in Hno; [| intros d; apply _].
    assert (Hall : Forall (fun d => is_ok (Diet._monday_week_start
                                             (Diet.date_iso d)) = true) daily).
    { eapply Forall_impl; [exact Hno |]. cbn. intros d Hd.
      by destruct (is_ok _). }
    destruct (fill_buckets_ok daily [] Hall) as [b Hb].
    by rewrite Hb in He.
  - intros Hex. destruct (fill_buckets_raise daily [] Hex) as [e ->].
    by exists e.
Qed.

(** ** Which header stands for a column, which row for a week *)

Section Columns.
Import Diet.

Lemma last_cons_eq {A} (x : A) (l : list A) :
  last (x :: l) = match last l with Some y => Some y | None => Some x end.
Proof.
  destruct l as [| y l]; [done |]. rewrite last_cons_cons.
  by destruct (last (y :: l)) eqn:H; [| by apply last_None in H].
Qed.

(** A dictionary filled from a list, a later item replacing an earlier one
    of the same key, holds under a key the last item of that key. *)
Lemma fold_insert_last {A} (key : A -> str) (keep : A -> Prop)
    `{forall x, Decision (keep x)} (l : list A) : forall (m : gmap str A) k,
  fold_left (fun m x => if decide (keep x) then <[key x := x]> m else m) l m
    !! k
  = match last (filter (fun x => keep x /\ key x = k) l) with
    | Some x => Some x
    | None => m !! k
    end.
Proof.
  induction l as [| x l IH]; intros m k; [done |].
  cbn [fold_left]. rewrite IH.
  destruct (decide (keep x /\ key x = k)) as [[Hkeep Hk] | Hno].
  - rewrite filter_cons_True by done. rewrite last_cons_eq.
    destruct (last (filter _ l)); [done |].
    rewrite decide_True by done. subst k. by rewrite lookup_insert_eq.
  - rewrite filter_cons_False by done.
    destruct (last (filter _ l)); [done |].
    destruct (decide (keep x)) as [Hkeep |]; [| done].
    rewrite lookup_insert_ne; [done |]. intros Hk. apply Hno. by split.
Qed.

Lemma norm_to_original_lookup headers k :
  norm_to_original headers !! k
  = last (filter (fun h => _normalize_header h = k) headers).
Proof.
  unfold norm_to_original.
  pose proof (fold_insert_last _normalize_header (fun _ => True) headers ∅ k)
    as H.
  cbn in H.
  replace (filter (fun h => _normalize_header h = k) headers)
    with (filter (fun h => True /\ _normalize_header h = k) headers)
    by (apply filter_ext_in; intros; tauto).
  rewrite lookup_empty in H.
  destruct (last (filter (fun h => True /\ _normalize_header h = k) headers));
    exact H.
Qed.

Lemma first_alias_spec m aliases :
  match first_alias m aliases with
  | Some h =>
      exists i a,
        aliases !! i = Some a
        /\ m !! _normalize_header a = Some h
        /\ forall j a', (j < i)%nat -> aliases !! j = Some a' ->
                        m !! _normalize_header a' = None
  | None => forall a, a ∈ aliases -> m !! _normalize_header a = None
  end.
Proof.
  induction aliases as [| a aliases IH]; cbn [first_alias].
  - by intros a ?%elem_of_nil.
  - destruct (m !! _normalize_header a) as [h |] eqn:Ha.
    + exists 0%nat, a. repeat split; [done |]. intros j a' Hj. lia.
    + destruct (first_alias m aliases) as [h |].
      * destruct IH as (i & a0 & Hi & Hh & Hfirst).
        exists (S i), a0. repeat split; [done | done |].
        intros [| j] a' Hj Ha'; [by injection Ha' as <- |].
        apply (Hfirst j); [lia | done].
      * intros a' [-> | Hin]%elem_of_cons; [done | by apply IH].
Qed.

Lemma column_fold (m : gmap str str) (al : list (str * list str)) :
  forall (acc : gmap str str) (c : str),
  NoDup (map fst al) ->
  fold_left
    (fun (col_map : gmap str str) '(canonical, alias_list) =>
       match first_alias m alias_list with
       | Some h => <[canonical := h]> col_map
       | None => col_map
       end) al acc !! c
  = match ODict.get c al with
    | Some aliases =>
        match first_alias m aliases with
        | Some h => Some h
        | None => acc !! c
        end
    | None => acc !! c
    end.
Proof.
  induction al as [| [k a] al IH]; intros acc c Hnd; [done |].
  cbn [map fst] in Hnd. apply NoDup_cons in Hnd as [Hk Hnd].
  cbn [fold_left ODict.get]. rewrite (IH _ c Hnd).
  case_bool_decide as Hkc.
  - subst c.
    assert (Hnone : ODict.get k al = None) by (by apply odict_get_keys).
    rewrite Hnone.
    destruct (first_alias m a); [by rewrite lookup_insert_eq | done].
  - assert (Hacc : match first_alias m a with
                   | Some h => <[k := h]> acc
                   | None => acc
                   end !! c = acc !! c).
    { destruct (first_alias m a); [by rewrite lookup_insert_ne | done]. }
    by rewrite Hacc.
Qed.

Lemma build_column_map_lookup headers c :
  _build_column_map headers !! c
  = aliases ← ODict.get c ALIASES;
    first_alias (norm_to_original headers) aliases.
Proof.
  unfold _build_column_map. rewrite column_fold.
  - destruct (ODict.get c ALIASES) as [aliases |]; [| done]. cbn.
    by destruct (first_alias _ aliases).
  - apply (bool_decide_unpack _). by vm_compute.
Qed.

Lemma last_filter_elem {A} (P : A -> Prop) `{forall x, Decision (P x)}
    (l : list A) x :
  last (filter P l) = Some x -> x ∈ l /\ P x.
Proof.
  intros Hl.
  assert (Hin : x ∈ filter P l).
  { apply last_Some in Hl as [l' ->]. apply elem_of_app. right. left. }
  apply list_elem_of_filter in Hin. tauto.
Qed.

Lemma last_filter_none {A} (P : A -> Prop) `{forall x, Decision (P x)}
    (l : list A) :
  last (filter P l) = None -> forall x, x ∈ l -> ~ P x.
Proof.
  intros Hl x Hin HP. apply last_None in Hl.
  assert (Hx : x ∈ filter P l) by (by apply list_elem_of_filter).
  rewrite Hl in Hx. by apply elem_of_nil in Hx.
Qed.

Lemma load_fold rows : forall m : gmap str row,
  fold_left add_existing rows m
  = fold_left (fun (m : gmap str row) x =>
                 if decide (row_key x <> [])
                 then <[row_key x := x]> m else m) rows m.
Proof.
  induction rows as [| r rows IH]; intros m; [done |].
  cbn [fold_left]. rewrite IH. f_equal.
  unfold add_existing. destruct (row_key r) as [| x t].
  - rewrite decide_False; [done |]. intros Hne. by apply Hne.
  - by rewrite decide_True.
Qed.

Lemma load_lookup rows k :
  fold_left add_existing rows ∅ !! k
  = if decide (k = []) then None
    else last (filter (fun r => row_key r = k) rows).
Proof.
  rewrite load_fold.
  rewrite (fold_insert_last row_key (fun r => row_key r <> []) rows ∅ k).
  rewrite lookup_empty. destruct (decide (k = [])) as [-> | Hk].
  - rewrite (filter_none (fun x => row_key x <> [] /\ row_key x = []));
      [done |]. intros r _ [Hne He]. by apply Hne.
  - replace (filter (fun x => row_key x <> [] /\ row_key x = k) rows)
      with (filter (fun r => row_key r = k) rows).
    + by destruct (last _).
    + apply filter_ext_in. intros r _. split; [| tauto].
      intros He. split; [congruence | done].
Qed.
End Columns.

(** X19.  The header [_build_column_map] gives to a column is a header of
    the file whose normal form is that of one of the aliases of the column:
    of the first alias, in the order of the list, that some header matches,
    and among the headers that match it the last one.  A column none of
    whose aliases is matched stays out of the map, and without a date column
    [_extract_daily_rows] raises. *)
Theorem build_column_map_spec (headers : list str) (c : str) :
  match Diet._build_column_map headers !! c with
  | Some h =>
      exists aliases i a,
        ODict.get c Diet.ALIASES = Some aliases
        /\ aliases !! i = Some a
        /\ h ∈ headers
        /\ Diet._normalize_header h = Diet._normalize_header a
        /\ last (filter (fun h' => Diet._normalize_header h'
                                   = Diet._normalize_header a) headers)
           = Some h
        /\ forall j a' h', (j < i)%nat -> aliases !! j = Some a' ->
             h' ∈ headers ->
             Diet._normalize_header h' <> Diet._normalize_header a'
  | None =>
      (forall aliases a h',
         ODict.get c Diet.ALIASES = Some aliases -> a ∈ aliases ->
         h' ∈ headers ->
         Diet._normalize_header h' <> Diet._normalize_header a)
      /\ (c = u "date" ->
          forall rows,
            Diet._extract_daily_rows rows headers
            = Raise (ValueError "input must have a Date column"))
  end.
Proof.
  assert (Hraise : Diet._build_column_map headers !! c = None ->
            c = u "date" ->
            forall rows,
              Diet._extract_daily_rows rows headers
              = Raise (ValueError "input must have a Date column")).
  { intros Hc -> rows. unfold Diet._extract_daily_rows. by rewrite Hc. }
  revert Hraise. rewrite build_column_map_lookup. intros Hraise.
  destruct (ODict.get c Diet.ALIASES) as [aliases |] eqn:Hal.
  - unfold mbind, option_bind in *. cbv beta iota in *.
    pose proof (first_alias_spec (Diet.norm_to_original headers) aliases)
      as Hspec.
    destruct (Diet.first_alias (Diet.norm_to_original headers) aliases)
      as [h |]; cbv beta iota.
    + destruct Hspec as (i & a & Hi & Hh & Hfirst).
      rewrite norm_to_original_lookup in Hh.
      destruct (last_filter_elem _ _ _ Hh) as [Hin Hn].
      exists aliases, i, a.
      split; [done |]. split; [done |]. split; [done |]. split; [done |].
      split; [done |].
      intros j a' h' Hj Ha' Hin'. specialize (Hfirst j a' Hj Ha').
      rewrite norm_to_original_lookup in Hfirst.
      by apply (last_filter_none _ _ Hfirst).
    + split; [| by apply Hraise].
      intros aliases' a h' [= <-] Ha Hin'. specialize (Hspec a Ha).
      rewrite norm_to_original_lookup in Hspec.
      by apply (last_filter_none _ _ Hspec).
  - split; [done | by apply Hraise].
Qed.

(** X20.  [_load_existing_weekly] keeps, for each week start that is not
    blank, the last row of the file that bears it (stripped); rows with a
    blank week start are left out; a file that is not there gives the empty
    table. *)
Theorem load_existing_last_wins (f : Csv.file) (rows : list row)
    (headers : list str) :
  Diet._read_csv f = Ok (rows, headers) ->
  Diet._load_existing_weekly None = Ok ∅
  /\ exists ex,
       Diet._load_existing_weekly (Some f) = Ok ex
       /\ forall k,
            ex !! k
            = if decide (k = []) then None
              else last (filter (fun r => Diet.row_key r = k) rows).
Proof.
  intros Hread. split; [done |].
  unfold Diet._load_existing_weekly. rewrite Hread. cbn.
  eexists. split; [reflexivity |]. apply load_lookup.
Qed.

Lemma load_existing_last_wins_witness :
  Diet._load_existing_weekly None = Ok ∅
  /\ exists ex,
       Diet._load_existing_weekly
         (Some (map (map u)
                  [["week_start"; "avg_weight"];
                   ["2025-12-15"; "181.0"];
                   [" "; "7"];
                   [" 2025-12-15"; "180.0"]]%string)) = Ok ex
       /\ forall k,
            ex !! k
            = if decide (k = []) then None
              else last (filter (fun r => Diet.row_key r = k)
                           (map (read_row (map u ["week_start"; "avg_weight"]%string))
                              (map (map u)
                                 [["2025-12-15"; "181.0"];
                                  [" "; "7"];
                                  [" 2025-12-15"; "180.0"]]%string))).
Proof.
  apply (load_existing_last_wins _ _ (map u ["week_start"; "avg_weight"]%string)).
  reflexivity.
Defined.

(** ** The summary of a run, and a run that fails *)

Section Runs.
Import Diet.

Lemma length_omap_le {A B} (f : A -> option B) (l : list A) :
  (length (omap f l) <= length l)%nat.
Proof.
  induction l as [| x l IH]; [done |]. rewrite omap_cons_eq.
  destruct (f x); cbn [length]; lia.
Qed.

Lemma length_filters_disjoint {A} (P Q : A -> Prop)
    `{forall x, Decision (P x)} `{forall x, Decision (Q x)} (l : list A) :
  (forall x, P x -> Q x -> False) ->
  (length (filter P l) + length (filter Q l) <= length l)%nat.
Proof.
  intros Hdis. induction l as [| x l IH]; [done |].
  destruct (decide (P x)) as [HP | HP], (decide (Q x)) as [HQ | HQ];
    [by destruct (Hdis x) | | |];
    rewrite ?(filter_cons_True P) by done;
    rewrite ?(filter_cons_False P) by done;
    rewrite ?(filter_cons_True Q) by done;
    rewrite ?(filter_cons_False Q) by done;
    cbn [length]; lia.
Qed.

Lemma upsert_size st item :
  Z.of_nat (size (existing (upsert st item))) - added (upsert st item)
  = Z.of_nat (size (existing st)) - added st.
Proof.
  destruct item as [ws vals]. unfold upsert.
  destruct (existing st !! ws) as [before |] eqn:Hws; cbn [existing added].
  - rewrite map_size_insert_Some by done. lia.
  - rewrite map_size_insert_None by done. lia.
Qed.

Lemma merge_size weekly : forall st,
  Z.of_nat (size (existing (fold_left upsert weekly st)))
  - added (fold_left upsert weekly st)
  = Z.of_nat (size (existing st)) - added st.
Proof.
  induction weekly as [| item weekly IH]; intros st; [done |].
  cbn [fold_left]. rewrite IH. apply upsert_size.
Qed.

Lemma extract_length rows headers daily col_map :
  _extract_daily_rows rows headers = Ok (daily, col_map) ->
  (length daily <= length rows)%nat.
Proof.
  unfold _extract_daily_rows.
  destruct (_build_column_map headers !! u "date"); [| done].
  intros [= <- _]. apply length_omap_le.
Qed.

Lemma aggregate_length daily weekly :
  _aggregate_weekly daily = Ok weekly ->
  (length weekly <= length daily)%nat.
Proof.
  unfold _aggregate_weekly.
  destruct (fill_buckets [] daily) as [buckets |] eqn:Hfill; [| done].
  cbn. unfold mret, result_ret. intros [= <-]. rewrite length_map.
  pose proof (fill_buckets_length daily [] buckets Hfill) as H.
  unfold ODict.keys in H. rewrite length_map in H. cbn in H. lia.
Qed.

Lemma write_rows_raise rows : forall written out e,
  write_rows rows written = (out, Raise e) ->
  exists n r,
    rows !! n = Some r
    /\ ~ writable r
    /\ Forall writable (take n rows)
    /\ out = written ++ map row_cells (take n rows)
    /\ e = ValueError "dict contains fields not in fieldnames".
Proof.
  induction rows as [| r rows IH]; intros written out e; [done |].
  cbn [write_rows].
  destruct (write_row OUTPUT_HEADERS r) as [cells | e'] eqn:Hr.
  - apply write_row_inv in Hr as [Hw ->].
    intros (n & r' & Hn & Hbad & Hgood & -> & ->)%IH.
    exists (S n), r'. split; [done |]. split; [done |].
    split; [by constructor |]. split; [| done].
    cbn [take map]. by rewrite <- app_assoc.
  - intros [= <- <-]. exists 0%nat, r. split; [done |].
    split.
    + intros Hw. by rewrite (write_row_ok r Hw) in Hr.
    + split; [constructor |]. split; [by rewrite app_nil_r |].
      unfold write_row in Hr. case_bool_decide; [done |].
      by injection Hr as <-.
Qed.

(** The parts of a run that ends well, with its summary. *)
Lemma main_report fs fs' rep :
  main fs = (fs', Ok rep) ->
  exists input rows headers daily col_map weekly ex out,
    input_file fs = Some input
    /\ _read_csv input = Ok (rows, headers)
    /\ _extract_daily_rows rows headers = Ok (daily, col_map)
    /\ _aggregate_weekly daily = Ok weekly
    /\ _load_existing_weekly (output_file fs) = Ok ex
    /\ _write_weekly (existing (merge_weekly weekly ex)) = (out, Ok ())
    /\ fs' = mkfiles (input_file fs) (Some out)
    /\ rep = mkreport (length rows) (length daily) (length weekly) (size ex)
               (added (merge_weekly weekly ex))
               (updated (merge_weekly weekly ex))
               (size (existing (merge_weekly weekly ex))).
Proof.
  unfold main. destruct (input_file fs) as [input |] eqn:Hin; [| done].
  destruct (_read_csv input) as [[rows headers] |] eqn:Hread; [| done].
  cbn [mbind result_bind].
  destruct (_extract_daily_rows rows headers) as [[daily col_map] |] eqn:Hex;
    [| done].
  cbn [mbind result_bind].
  destruct (_aggregate_weekly daily) as [weekly |] eqn:Hagg; [| done].
  cbn [mbind result_bind].
  destruct (_load_existing_weekly (output_file fs)) as [ex |] eqn:Hload;
    [| done].
  cbn [mbind result_bind mret result_ret].
  destruct (_write_weekly (existing (merge_weekly weekly ex)))
    as [out res] eqn:Hwrite.
  destruct res as [[] |]; [| done].
  cbn [mbind result_bind mret result_ret]. intros [= <- <-].
  exists input, rows, headers, daily, col_map, weekly, ex, out.
  repeat split; done.
Qed.

(** The parts of a run that fails. *)
Lemma main_raise fs fs' e :
  main fs = (fs', Raise e) ->
  fs' = fs
  \/ exists input rows headers daily col_map weekly ex out,
       input_file fs = Some input
       /\ _read_csv input = Ok (rows, headers)
       /\ _extract_daily_rows rows headers = Ok (daily, col_map)
       /\ _aggregate_weekly daily = Ok weekly
       /\ _load_existing_weekly (output_file fs) = Ok ex
       /\ _write_weekly (existing (merge_weekly weekly ex)) = (out, Raise e)
       /\ fs' = mkfiles (input_file fs) (Some out).
Proof.
  unfold main. destruct (input_file fs) as [input |] eqn:Hin;
    [| intros [= <- _]; by left].
  destruct (_read_csv input) as [[rows headers] |] eqn:Hread;
    [| intros [= <- _]; by left].
  cbn [mbind result_bind].
  destruct (_extract_daily_rows rows headers) as [[daily col_map] |] eqn:Hex;
    [| intros [= <- _]; by left].
  cbn [mbind result_bind].
  destruct (_aggregate_weekly daily) as [weekly |] eqn:Hagg;
    [| intros [= <- _]; by left].
  cbn [mbind result_bind].
  destruct (_load_existing_weekly (output_file fs)) as [ex |] eqn:Hload;
    [| intros [= <- _]; by left].
  cbn [mbind result_bind mret result_ret].
  destruct (_write_weekly (existing (merge_weekly weekly ex)))
    as [out res] eqn:Hwrite.
  destruct res as [[] | e']; [done |].
  cbn [mbind result_bind mret result_ret]. intros [= <- <-].
  right. exists input, rows, headers, daily, col_map, weekly, ex, out.
  repeat split; done.
Qed.
End Runs.

(** X21.  The summary [main] prints is consistent: the rows with a date are
    rows of the input, each week computed holds one of them, the weeks
    added and the weeks updated are different weeks computed by the run,
    the table has the weeks loaded and the weeks added, and the file
    written has one record for each week of the table after its header. *)
Theorem main_report_consistent (fs fs' : Diet.files) (rep : Diet.report) :
  Diet.main fs = (fs', Ok rep) ->
  (Diet.rows_parsed rep <= Diet.rows_read rep)%nat
  /\ (Diet.weeks_computed rep <= Diet.rows_parsed rep)%nat
  /\ 0 <= Diet.added_weeks rep
  /\ 0 <= Diet.updated_weeks rep
  /\ Diet.added_weeks rep + Diet.updated_weeks rep
     <= Z.of_nat (Diet.weeks_computed rep)
  /\ Z.of_nat (Diet.total_weeks rep)
     = Z.of_nat (Diet.weeks_loaded rep) + Diet.added_weeks rep
  /\ exists out,
       Diet.output_file fs' = Some out
       /\ length out = S (Diet.total_weeks rep).
Proof.
  intros (input & rows & headers & daily & col_map & weekly & ex & out
          & Hin & Hread & Hex & Hagg & Hload & Hwrite & -> & ->)%main_report.
  cbn [Diet.rows_parsed Diet.rows_read Diet.weeks_computed Diet.added_weeks
       Diet.updated_weeks Diet.total_weeks Diet.weeks_loaded Diet.output_file].
  destruct (aggregate_inv daily weekly Hagg) as [Hnd _].
  destruct (merged_counters weekly ex Hnd) as [Ha Hu].
  pose proof (merge_size weekly (Diet.mkmerge ex 0 0)) as Hsize.
  cbn [Diet.existing Diet.added] in Hsize.
  fold (Diet.merge_weekly weekly ex) in Hsize.
  pose proof (length_filters_disjoint
                (fun item : str * Diet.WeeklyAvg => ex !! item.1 = None)
                (fun item : str * Diet.WeeklyAvg =>
                   is_Some (ex !! item.1)
                   /\ ex !! item.1 <> Some (Diet.new_row item.1 item.2))
                weekly) as Hdis.
  fold (Diet.new_buckets ex weekly) in Hdis.
  fold (Diet.changed_buckets ex weekly) in Hdis.
  split; [by apply (extract_length rows headers daily col_map) |].
  split; [by apply aggregate_length |].
  split; [lia |]. split; [lia |]. split.
  { rewrite Ha, Hu.
    assert ((length (Diet.new_buckets ex weekly)
             + length (Diet.changed_buckets ex weekly) <= length weekly)%nat).
    { apply Hdis. intros item Hnone [[r Hr] _]. congruence. }
    lia. }
  split; [lia |].
  exists out. split; [done |].
  apply write_weekly_inv in Hwrite as (wrows & Hf2 & _ & _ & ->).
  cbn [length]. f_equal. rewrite length_map.
  rewrite <- (Forall2_length _ _ _ Hf2).
  unfold sorted. rewrite merge_sort_Permutation.
  unfold Diet.dict_keys. by rewrite length_map, length_map_to_list.
Qed.

Lemma main_report_consistent_witness :
  exists fs' rep,
    Diet.main Diet.sample_files = (fs', Ok rep)
    /\ Z.of_nat (Diet.total_weeks rep)
       = Z.of_nat (Diet.weeks_loaded rep) + Diet.added_weeks rep.
Proof.
  destruct (Diet.main Diet.sample_files) as [fs' [rep | e]] eqn:Hrun;
    [| vm_compute in Hrun; discriminate].
  exists fs', rep. split; [reflexivity |].
  exact (proj1 (proj2 (proj2 (proj2 (proj2 (proj2
           (main_report_consistent _ _ _ Hrun))))))).
Defined.

(** X22.  A run of [main] that fails leaves the input file as it was.  It
    leaves the output file as it was too, unless the failure is that of
    [_write_weekly] on a row with a key outside the five output columns
    (a row kept from a file with another column, or with more cells than
    headers): then the output file has already been replaced by the header
    and the rows that come before that row in the order of the week starts,
    and the weeks from that row on are no longer in the file. *)
Theorem main_failure_files (fs fs' : Diet.files) (e : exn) :
  Diet.main fs = (fs', Raise e) ->
  Diet.input_file fs' = Diet.input_file fs
  /\ (Diet.output_file fs' = Diet.output_file fs
      \/ exists (table : gmap str row) (rows : list row) (n : nat) (r : row),
           Forall2 (fun k r => table !! k = Some r)
                   (sorted (Diet.dict_keys table)) rows
           /\ rows !! n = Some r
           /\ ~ Diet.writable r
           /\ Forall Diet.writable (take n rows)
           /\ Diet.output_file fs'
              = Some (Diet.OUTPUT_HEADERS :: map Diet.row_cells (take n rows))
           /\ (length (take n rows) < size table)%nat
           /\ e = ValueError "dict contains fields not in fieldnames").
Proof.
  intros [-> | (input & rows & headers & daily & col_map & weekly & ex & out
               & Hin & Hread & Hex & Hagg & Hload & Hwrite & ->)]%main_raise.
  { split; [done | by left]. }
  split; [done |]. right. cbn [Diet.output_file].
  set (table := Diet.existing (Diet.merge_weekly weekly ex)) in *.
  unfold Diet._write_weekly in Hwrite. cbv zeta in Hwrite.
  destruct (table_rows_perm table (sorted (Diet.dict_keys table))
              (sorted_perm _)) as (wrows & Hom & Hf2 & _).
  rewrite Hom in Hwrite.
  apply write_rows_raise in Hwrite as (n & r & Hn & Hbad & Hgood & -> & ->).
  exists table, wrows, n, r.
  split; [done |]. split; [done |]. split; [done |]. split; [done |].
  split; [done |]. split; [| done].
  assert (Hlen : length wrows = size table).
  { rewrite <- (Forall2_length _ _ _ Hf2).
    unfold sorted. rewrite merge_sort_Permutation.
    unfold Diet.dict_keys. by rewrite length_map, length_map_to_list. }
  rewrite length_take, <- Hlen.
  apply lookup_lt_Some in Hn. lia.
Qed.

Lemma main_failure_files_witness :
  exists fs' e,
    Diet.main
      (Diet.mkfiles
         (Some (map (map u) [["Date"; "Food"]; ["2025-12-22"; "1800"]]%string))
         (Some (map (map u)
                  [["week_start"; "avg_food"; "notes"];
                   ["2024-01-01"; "2100"; "holiday"]]%string)))
    = (fs', Raise e)
    /\ Diet.input_file fs'
       = Some (map (map u) [["Date"; "Food"]; ["2025-12-22"; "1800"]]%string)
    /\ e = ValueError "dict contains fields not in fieldnames".
Proof.
  destruct (Diet.main _) as [fs' [rep | e]] eqn:Hrun;
    [vm_compute in Hrun; discriminate |].
  exists fs', e. split; [reflexivity |].
  destruct (main_failure_files _ _ _ Hrun) as [Hin [Hout | Hout]].
  - split; [exact Hin |]. vm_compute in Hrun. by injection Hrun as _ <-.
  - split; [exact Hin |].
    destruct Hout as (table & rows & n & r & _ & _ & _ & _ & _ & _ & He).
    exact He.
Defined.

(** ** From the sets to the statistics *)

Section Pipeline.
Import Workout.

Lemma NoDup_fmap_filter {A B} (f : A -> B) (P : A -> Prop)
    `{forall x, Decision (P x)} (l : list A) :
  NoDup (f <$> l) -> NoDup (f <$> filter P l).
Proof.
  induction l as [| x l IH]; [done |]. cbn [fmap list_fmap].
  intros [Hx Hl]%NoDup_cons.
  destruct (decide (P x)).
  - rewrite filter_cons_True by done. cbn [fmap list_fmap].
    apply NoDup_cons. split; [| by apply IH].
    intros (y & Hy & Hin)%list_elem_of_fmap. apply Hx.
    apply list_elem_of_fmap. exists y. split; [done |].
    by apply list_elem_of_filter in Hin as [_ Hin].
  - rewrite filter_cons_False by done. by apply IH.
Qed.

Lemma daily_key_elem df ex t :
  (ex, t) ∈ map daily_key (best_1rm_per_day df)
  <-> exists r, r ∈ df /\ p_exercise r = ex /\ p_date r = t.
Proof.
  rewrite best_keys, merge_sort_Permutation, elem_of_remove_dups.
  rewrite list_elem_of_fmap. unfold set_key. split.
  - intros (r & [= -> ->] & Hr). by exists r.
  - intros (r & Hr & <- & <-). by exists r.
Qed.

Lemma best_keys_nodup df : NoDup (map daily_key (best_1rm_per_day df)).
Proof.
  rewrite best_keys, merge_sort_Permutation. apply NoDup_remove_dups.
Qed.

Lemma group_dates df ex :
  map d_date (filter (fun d => d_exercise d = ex) (best_1rm_per_day df))
  ≡ₚ remove_dups (map p_date (filter (fun r => p_exercise r = ex) df)).
Proof.
  set (g := filter (fun d => d_exercise d = ex) (best_1rm_per_day df)).
  assert (Hkeys : daily_key <$> g = (fun t => (ex, t)) <$> (d_date <$> g)).
  { rewrite <- list_fmap_compose. apply Forall_fmap_ext, Forall_forall.
    intros d Hd. subst g. apply list_elem_of_filter in Hd as [<- _]. done. }
  assert (Hnd : NoDup ((fun t => (ex, t)) <$> (d_date <$> g))).
  { rewrite <- Hkeys. apply NoDup_fmap_filter, best_keys_nodup. }
  apply NoDup_Permutation.
  - exact (NoDup_fmap_1 _ _ Hnd).
  - apply NoDup_remove_dups.
  - intros t. rewrite elem_of_remove_dups, !list_elem_of_fmap. split.
    + intros (d & -> & Hd). subst g.
      apply list_elem_of_filter in Hd as [Hex Hd].
      assert (Hk : (ex, d_date d) ∈ map daily_key (best_1rm_per_day df)).
      { apply list_elem_of_fmap. exists d. split; [| done].
        unfold daily_key. by rewrite Hex. }
      apply daily_key_elem in Hk as (r & Hr & Hre & Hrt).
      exists r. split; [done |]. by apply list_elem_of_filter.
    + intros (r & -> & Hr). apply list_elem_of_filter in Hr as [Hex Hr].
      assert (Hk : (ex, p_date r) ∈ map daily_key (best_1rm_per_day df)).
      { apply daily_key_elem. by exists r. }
      apply list_elem_of_fmap in Hk as (d & Hd & Hin).
      injection Hd as Hde Hdt. exists d. split; [done |].
      subst g. by apply list_elem_of_filter.
Qed.
End Pipeline.

(** X23.  The statistics of an exercise, taken over the daily bests of the
    sets: the sessions are the days on which the exercise has a set; the
    record is the largest estimate among all its sets, reached by a set on
    the date of the record; the last session is the latest day with a
    set. *)
Theorem pr_stats_of_sets (df : list Workout.PreparedSet) (min_sessions : Z)
    (st : Workout.PrStat) :
  st ∈ Workout.pr_stats (Workout.best_1rm_per_day df) min_sessions ->
  let sets := filter (fun r => Workout.p_exercise r = Workout.exercise st) df in
  Workout.sessions st = length (remove_dups (map Workout.p_date sets))
  /\ min_sessions <= Z.of_nat (Workout.sessions st)
  /\ (forall r, r ∈ sets -> (Workout.p_est r <= Workout.pr_1rm st)%Qc)
  /\ (exists r, r ∈ sets /\ Workout.p_est r = Workout.pr_1rm st
                /\ Workout.p_date r = Workout.pr_date st)
  /\ (forall r, r ∈ sets -> Workout.p_date r <= Workout.last_date st)
  /\ (exists r, r ∈ sets /\ Workout.p_date r = Workout.last_date st).
Proof.
  intros Hst sets.
  destruct (pr_stats_group _ _ _ Hst) as (Hne & Hlen & Hg).
  set (ex := Workout.exercise st) in *.
  set (g := filter (fun d => Workout.d_exercise d = ex)
              (Workout.best_1rm_per_day df)) in *.
  destruct (group_stat_spec min_sessions ex g Hne Hlen)
    as (st' & Hg' & _ & Hsess & Hmax & (d0 & Hd0 & Hd0e & Hd0d) & _
        & Hlast & (d1 & Hd1 & Hd1d) & _).
  rewrite Hg in Hg'. injection Hg' as <-.
  assert (Hdaily : forall d, d ∈ g ->
            (exists r, r ∈ sets /\ Workout.p_date r = Workout.d_date d
                       /\ Workout.p_est r = Workout.d_est d)).
  { intros d [Hex Hd]%list_elem_of_filter.
    apply best_elem in Hd as [_ Hm].
    apply series_max_spec in Hm as [_ Hin].
    apply list_elem_of_fmap in Hin as (r & Hr & Hin).
    apply list_elem_of_filter in Hin as [Hkey Hin].
    injection Hkey as Hke Hkd. exists r. split; [| done].
    apply list_elem_of_filter. split; [congruence | done]. }
  assert (Hsets : forall r, r ∈ sets ->
            exists d, d ∈ g /\ Workout.d_date d = Workout.p_date r
                      /\ (Workout.p_est r <= Workout.d_est d)%Qc).
  { intros r [Hex Hr]%list_elem_of_filter.
    assert (Hk : (ex, Workout.p_date r)
                 ∈ map Workout.daily_key (Workout.best_1rm_per_day df)).
    { apply daily_key_elem. by exists r. }
    apply list_elem_of_fmap in Hk as (d & Hd & Hin).
    injection Hd as Hde Hdt. exists d.
    split; [by apply list_elem_of_filter |]. split; [done |].
    apply best_elem in Hin as [_ Hm].
    apply series_max_spec in Hm as [Hle _].
    apply Hle, list_elem_of_fmap. exists r. split; [done |].
    apply list_elem_of_filter. split; [| done].
    unfold Workout.set_key, Workout.daily_key. congruence. }
  split.
  { rewrite Hsess. rewrite <- (length_map Workout.d_date g).
    apply Permutation_length. apply group_dates. }
  split; [rewrite Hsess; lia |]. split.
  { intros r (d & Hd & _ & Hle)%Hsets.
    eapply Qcle_trans; [exact Hle | by apply Hmax]. }
  split.
  { destruct (Hdaily d0 Hd0) as (r & Hr & Hrd & Hre).
    exists r. split; [done |]. split; congruence. }
  split.
  { intros r (d & Hd & <- & _)%Hsets. by apply Hlast. }
  destruct (Hdaily d1 Hd1) as (r & Hr & Hrd & _).
  exists r. split; [done | congruence].
Qed.

Lemma pr_stats_of_sets_witness :
  Workout.sessions
    (Workout.mkPrStat (u "Squat") 2 (Qc_of_Z 220) 0
       (3 * Workout.NS_PER_DAY) 3)
  = length
      (remove_dups
         (map Workout.p_date
            (filter (fun r => Workout.p_exercise r = u "Squat")
               [Workout.mkPreparedSet 0 (u "Squat") (Qc_of_Z 200) 1
                  (Qc_of_Z 200);
                Workout.mkPreparedSet 0 (u "Squat") (Qc_of_Z 220) 1
                  (Qc_of_Z 220);
                Workout.mkPreparedSet (3 * Workout.NS_PER_DAY) (u "Squat")
                  (Qc_of_Z 210) 1 (Qc_of_Z 210)]))).
Proof.
  refine (proj1 (pr_stats_of_sets
    [Workout.mkPreparedSet 0 (u "Squat") (Qc_of_Z 200) 1 (Qc_of_Z 200);
     Workout.mkPreparedSet 0 (u "Squat") (Qc_of_Z 220) 1 (Qc_of_Z 220);
     Workout.mkPreparedSet (3 * Workout.NS_PER_DAY) (u "Squat")
       (Qc_of_Z 210) 1 (Qc_of_Z 210)]
    2 _ _)).
  vm_compute. left.
Defined.

(** ** Lose It: the export that is analysed *)

Section Latest.
Import LoseIt.

#[global] Instance newer_first_total : Total newer_first.
Proof. intros a b. unfold newer_first. apply Qc_le_total. Qed.

#[global] Instance newer_first_trans : Transitive newer_first.
Proof.
  intros a b c Hab Hbc. unfold newer_first in *.
  by apply (Qcle_trans _ (e_mtime b)).
Qed.

Lemma head_sorted_first {A} (R : relation A) `{!Transitive R} (l : list A) x :
  StronglySorted R l -> head l = Some x ->
  forall y, y ∈ l -> y = x \/ R x y.
Proof.
  destruct l as [| x0 l]; [done |]. intros Hs [= ->] y Hy.
  apply StronglySorted_inv in Hs as [_ Hall].
  apply elem_of_cons in Hy as [-> | Hy]; [by left | right].
  by apply (proj1 (Forall_forall _ _) Hall).
Qed.
End Latest.

(** X24.  [find_latest_csv] returns nothing exactly when the directory has
    no regular file whose name ends in [.csv] and does not start with
    [daily_log], letter case aside.  Otherwise it returns such a file, and
    none of them was modified later. *)
Theorem find_latest_csv_newest (listing : list LoseIt.DirEntry) :
  match LoseIt.find_latest_csv listing with
  | None => forall e, e ∈ listing -> LoseIt.is_candidate e = false
  | Some name =>
      exists e,
        e ∈ listing /\ LoseIt.e_name e = name
        /\ LoseIt.is_candidate e = true
        /\ forall e', e' ∈ listing -> LoseIt.is_candidate e' = true ->
                      (LoseIt.e_mtime e' <= LoseIt.e_mtime e)%Qc
  end.
Proof.
  unfold LoseIt.find_latest_csv. cbv zeta.
  destruct (filter _ listing) as [| c cs] eqn:Hc.
  - intros e He. destruct (LoseIt.is_candidate e) eqn:Hcand; [| done].
    assert (Hin : e ∈ filter (fun e => LoseIt.is_candidate e = true) listing)
      by (by apply list_elem_of_filter).
    rewrite Hc in Hin. by apply elem_of_nil in Hin.
  - rewrite <- Hc. clear c cs Hc.
    set (cands := filter (fun e => LoseIt.is_candidate e = true) listing).
    pose proof (StronglySorted_merge_sort LoseIt.newer_first cands) as Hs.
    pose proof (merge_sort_Permutation LoseIt.newer_first cands) as Hp.
    destruct (head (merge_sort LoseIt.newer_first cands)) as [e |] eqn:Hh.
    + cbn. exists e.
      assert (Hin : e ∈ cands).
      { rewrite <- Hp. apply head_Some_elem_of. by rewrite Hh. }
      apply list_elem_of_filter in Hin as [Hcand Hin].
      split; [done |]. split; [done |]. split; [done |].
      intros e' Hin' Hcand'.
      assert (He' : e' ∈ merge_sort LoseIt.newer_first cands).
      { rewrite Hp. by apply list_elem_of_filter. }
      destruct (head_sorted_first _ _ e Hs Hh e' He') as [-> | Hle];
        [apply Qcle_refl | exact Hle].
    + cbn. intros e He. destruct (LoseIt.is_candidate e) eqn:Hcand; [| done].
      assert (Hin : e ∈ merge_sort LoseIt.newer_first cands).
      { rewrite Hp. by apply list_elem_of_filter. }
      apply head_None in Hh. rewrite Hh in Hin. by apply elem_of_nil in Hin.
Qed.

(** ** What the merge keeps, replaces and writes *)

Section Frame.
Import Diet.

Lemma new_row_writable ws vals : writable (new_row ws vals).
Proof. rewrite <- reread_new_row. apply reread_writable. Qed.

Lemma merged_writable weekly ex :
  NoDup (ODict.keys weekly) ->
  (forall k r, ex !! k = Some r -> ODict.get k weekly = None -> writable r) ->
  map_Forall (fun _ r => writable r) (existing (merge_weekly weekly ex)).
Proof.
  intros Hnd Hw k r Hk. rewrite merged_table in Hk by done.
  destruct (ODict.get k weekly) as [vals |] eqn:Hg.
  - injection Hk as <-. apply new_row_writable.
  - by apply (Hw k).
Qed.

Lemma loaded_table path ex :
  _load_existing_weekly path = Ok ex ->
  match path with
  | None => ex = ∅
  | Some f =>
      exists prows hs,
        _read_csv f = Ok (prows, hs)
        /\ forall k,
             ex !! k
             = if decide (k = []) then None
               else last (filter (fun r => row_key r = k) prows)
  end.
Proof.
  unfold _load_existing_weekly. destruct path as [f |].
  - destruct (_read_csv f) as [[prows hs] | e]; [| done].
    cbn. unfold mret, result_ret. intros [= <-].
    exists prows, hs. split; [done |]. apply load_lookup.
  - by intros [= <-].
Qed.
End Frame.

(** C3, as the code has it.  Let the run have computed the weekly values
    [weekly] and loaded the table [ex], every row of which that the run
    does not recompute has no key beyond the five output columns.  Then
    [_write_weekly] ends well, and the file holds, after the header, one
    record for each key that the table had or that the run computed, in
    strictly ascending order of the keys; the record of a key that the run
    did not compute holds the cells of the row the table had under it; the
    record of a key that the run did compute holds the newly formatted row;
    [added] counts the computed keys that the table did not have and
    [updated] those it had with a row other than the newly formatted one.
    This is what [main] does with what it computed and loaded, and the
    table it loads holds under a key the last row of the persisted file
    with that week start.  The cells written for a row that was read from a
    full record under the output headers are that record. *)
Theorem merge_upsert_frame
    (weekly : ODict.odict Diet.WeeklyAvg) (ex : gmap str row) :
  NoDup (ODict.keys weekly) ->
  (forall k r, ex !! k = Some r -> ODict.get k weekly = None ->
               Diet.writable r) ->
  exists keys rows,
    Diet._write_weekly (Diet.existing (Diet.merge_weekly weekly ex))
    = (Diet.OUTPUT_HEADERS :: map Diet.row_cells rows, Ok ())
    /\ StronglySorted str_lt keys
    /\ (forall k, k ∈ keys <-> is_Some (ex !! k) \/ k ∈ ODict.keys weekly)
    /\ Forall2 (fun k r =>
                  match ODict.get k weekly with
                  | Some vals => r = Diet.new_row k vals
                  | None => ex !! k = Some r
                  end) keys rows
    /\ Diet.added (Diet.merge_weekly weekly ex)
       = Z.of_nat (length (Diet.new_buckets ex weekly))
    /\ Diet.updated (Diet.merge_weekly weekly ex)
       = Z.of_nat (length (Diet.changed_buckets ex weekly))
    /\ (forall fs input rows0 headers daily col_map,
          Diet.input_file fs = Some input ->
          Diet._read_csv input = Ok (rows0, headers) ->
          Diet._extract_daily_rows rows0 headers = Ok (daily, col_map) ->
          Diet._aggregate_weekly daily = Ok weekly ->
          Diet._load_existing_weekly (Diet.output_file fs) = Ok ex ->
          match Diet.output_file fs with
          | None => ex = ∅
          | Some f =>
              exists prows hs,
                Diet._read_csv f = Ok (prows, hs)
                /\ forall k,
                     ex !! k
                     = if decide (k = []) then None
                       else last (filter (fun r => Diet.row_key r = k) prows)
          end
          /\ exists rep,
               Diet.main fs
               = (Diet.mkfiles (Diet.input_file fs)
                    (Some (Diet.OUTPUT_HEADERS :: map Diet.row_cells rows)),
                  Ok rep)
               /\ Diet.added_weeks rep
                  = Diet.added (Diet.merge_weekly weekly ex)
               /\ Diet.updated_weeks rep
                  = Diet.updated (Diet.merge_weekly weekly ex))
    /\ (forall c1 c2 c3 c4 c5,
          Diet.row_cells (read_row Diet.OUTPUT_HEADERS [c1; c2; c3; c4; c5])
          = [c1; c2; c3; c4; c5]).
Proof.
  intros Hnd Hw.
  destruct (write_weekly_ok _ (merged_writable weekly ex Hnd Hw))
    as (rows & Hf2 & Hwrite).
  destruct (merged_counters weekly ex Hnd) as [Ha Hu].
  exists (sorted (Diet.dict_keys (Diet.existing (Diet.merge_weekly weekly ex)))),
    rows.
  split; [done |]. split.
  { apply sorted_strict, dict_keys_nodup. }
  split.
  { intros k. rewrite sorted_perm, dict_keys_elem, merged_table by done.
    destruct (ODict.get k weekly) as [v |] eqn:Hg.
    - split; [intros _; right; by eapply odict_get_some | by eexists].
    - split; [by left |]. intros [? | Hk]; [done |].
      by apply odict_get_keys in Hg. }
  split.
  { eapply Forall2_impl; [exact Hf2 |]. intros k r Hk. cbn beta in Hk.
    rewrite merged_table in Hk by done.
    destruct (ODict.get k weekly); [by injection Hk | done]. }
  split; [done |]. split; [done |]. split; [| reflexivity].
  intros fs input rows0 headers daily col_map Hin Hread Hex Hagg Hload.
  split; [by apply loaded_table |].
  by apply (main_run fs input rows0 headers daily col_map weekly ex).
Qed.

Lemma merge_upsert_frame_witness :
  exists keys rows,
    Diet._write_weekly
      (Diet.existing
         (Diet.merge_weekly
            [(u "2025-12-22",
              Diet.mkWeeklyAvg (Some (Qc_of_Z 179)) (Some (Qc_of_Z 1800))
                               None None)]
            {[ u "2024-01-01" :=
                 read_row Diet.OUTPUT_HEADERS
                   (map u ["2024-01-01"; "182.0"; "2100"; "250"; "1850"]%string) ]}))
    = (Diet.OUTPUT_HEADERS :: map Diet.row_cells rows, Ok ())
    /\ StronglySorted str_lt keys
    /\ Forall2 (fun k r =>
                  match ODict.get k
                          [(u "2025-12-22",
                            Diet.mkWeeklyAvg (Some (Qc_of_Z 179))
                              (Some (Qc_of_Z 1800)) None None)] with
                  | Some vals => r = Diet.new_row k vals
                  | None =>
                      ({[ u "2024-01-01" :=
                            read_row Diet.OUTPUT_HEADERS
                              (map u ["2024-01-01"; "182.0"; "2100"; "250";
                                      "1850"]%string) ]} : gmap str row) !! k
                      = Some r
                  end) keys rows.
Proof.
  destruct (merge_upsert_frame
              [(u "2025-12-22",
                Diet.mkWeeklyAvg (Some (Qc_of_Z 179)) (Some (Qc_of_Z 1800))
                                 None None)]
              {[ u "2024-01-01" :=
                   read_row Diet.OUTPUT_HEADERS
                     (map u ["2024-01-01"; "182.0"; "2100"; "250"; "1850"]%string) ]})
    as (keys & rows & H1 & H2 & _ & H3 & _).
  - apply (bool_decide_unpack _). vm_compute. reflexivity.
  - intros k r [<- <-]%lookup_singleton_Some _.
    apply (bool_decide_unpack _). vm_compute. reflexivity.
  - exists keys, rows. split; [exact H1 |]. split; [exact H2 | exact H3].
Defined.

(** C3 as stated fails for a persisted table with a sixth column: the
    table holds the week of 2024-01-01, the run computes another week only,
    and [_write_weekly], which has emptied the file and written the header,
    raises on the row of 2024-01-01: the run ends with the exception and the
    file holds the header alone. *)
Lemma merge_upsert_drops_bucket :
  (exists ex r,
     Diet._load_existing_weekly (Diet.output_file Diet.foreign_files) = Ok ex
     /\ ex !! u "2024-01-01" = Some r
     /\ Diet.row_cells r
        = map u ["2024-01-01"; "182.0"; "2100"; "250"; "1850"]%string)
  /\ (exists input rows0 headers daily col_map weekly,
        Diet.input_file Diet.foreign_files = Some input
        /\ Diet._read_csv input = Ok (rows0, headers)
        /\ Diet._extract_daily_rows rows0 headers = Ok (daily, col_map)
        /\ Diet._aggregate_weekly daily = Ok weekly
        /\ ODict.keys weekly = [u "2025-12-22"])
  /\ exists fs',
       Diet.main Diet.foreign_files
       = (fs', Raise (ValueError "dict contains fields not in fieldnames"))
       /\ Diet.output_file fs' = Some [Diet.OUTPUT_HEADERS].
Proof.
  split; [| split].
  - eexists _, _. split; [vm_compute; reflexivity |].
    split; vm_compute; reflexivity.
  - eexists _, _, _, _, _, _. split; [reflexivity |].
    split; [vm_compute; reflexivity |].
    split; [vm_compute; reflexivity |].
    split; vm_compute; reflexivity.
  - eexists. split; vm_compute; reflexivity.
Qed.
